(** * mtd: type-erased values, type-erased callables and owning pointers

    A shallow embedding of [src/util/function.hpp], [src/util/memory.hpp]
    and [src/util/any.hpp].

    - Objects with automatic storage ([Function], [SharedPtr], [UniquePtr],
      [WeakPtr], [Any]) are records passed by value.  A member function
      that changes its object returns the object as it leaves it; a move
      returns the pair of the target and the source.
    - Everything the C++ code reaches through a raw pointer lives in an
      explicit heap whose deleted blocks stay marked, so that aliasing,
      leaks, dangling pointers and double deletes are visible.
    - An operation is a function from the memory to an [Outcome]: a result
      with the new memory, an exception in flight, [std::terminate], or
      undefined behaviour.
    - Each C++ initialisation and assignment is translated to the special
      member function that overload resolution selects for it. *)

From Stdlib Require Import ZArith String Lia PrimFloat.
From stdpp Require Import base gmap strings.

Local Open Scope Z_scope.

(** ** Addresses, blocks and heaps *)

Abbreviation loc := positive.

(** A raw pointer [T*]: [None] is [nullptr]. *)
Abbreviation ptr := (option loc).
Abbreviation nullptr := (@None loc).

(** A block obtained from [new].  After [delete] the address stays known to
    the heap as [freed] and is never handed out again, so that a stale
    pointer cannot be mistaken for a pointer to a younger object. *)
Inductive block (V : Type) : Type :=
| live (v : V)
| freed.
Arguments live {V} v.
Arguments freed {V}.

Abbreviation heap V := (gmap loc (block V)).

(** What the C++ standard leaves undefined and the code can run into. *)
Inductive UB : Type :=
| use_after_free        (* access through a pointer to a deleted block *)
| double_free           (* delete of a deleted block *)
| wild_pointer          (* access through an address that was never allocated *)
| indeterminate_read.   (* read of a member that was never initialised *)

(** ** Exceptions

    The library only ever executes [throw "<literal>"], which throws a
    [const char*].  User callables may throw objects of class type. *)
Inductive ExnType : Type :=
| const_char_ptr
| class_type (name : string).

Record Exn : Type := { exn_type : ExnType; what : string }.

Definition cstring (msg : string) : Exn :=
  {| exn_type := const_char_ptr; what := msg |}.


#[global] Instance ExnType_eq_dec : EqDecision ExnType.
Proof. solve_decision. Defined.


(** ** Outcomes and the state monad of the embedding *)

Inductive Outcome (S A : Type) : Type :=
| Ret (a : A) (s : S)        (* normal completion *)
| Throw (e : Exn) (s : S)    (* an exception is in flight *)
| Terminate (s : S)          (* std::terminate: exception left a noexcept function *)
| Undef (u : UB).
Arguments Ret {S A} a s.
Arguments Throw {S A} e s.
Arguments Terminate {S A} s.
Arguments Undef {S A} u.

Definition M (S A : Type) : Type := S -> Outcome S A.

Definition ret {S A} (a : A) : M S A := fun s => Ret a s.

Definition bind {S A B} (m : M S A) (k : A -> M S B) : M S B :=
  fun s =>
    match m s with
    | Ret a s' => k a s'
    | Throw e s' => Throw e s'
    | Terminate s' => Terminate s'
    | Undef u => Undef u
    end.

Definition throw {S A} (msg : string) : M S A := fun s => Throw (cstring msg) s.

Definition undef {S A} (u : UB) : M S A := fun _ => Undef u.

(** A destructor or a function declared [noexcept]: an exception that
    would leave it calls [std::terminate]. *)
Definition noexcept {S A} (m : M S A) : M S A :=
  fun s =>
    match m s with
    | Throw _ s' => Terminate s'
    | o => o
    end.

(** An object with automatic storage: built by [make], used by [body],
    and destroyed by [dtor] when the scope is left, normally or by an
    exception.  An exception out of the destructor terminates. *)
Definition scoped {S T A} (make : M S T) (dtor : T -> M S unit) (body : T -> M S A)
  : M S A :=
  fun s =>
    match make s with
    | Ret tmp s1 =>
        match body tmp s1 with
        | Ret a s2 =>
            match noexcept (dtor tmp) s2 with
            | Ret _ s3 => Ret a s3
            | Throw _ s3 | Terminate s3 => Terminate s3
            | Undef u => Undef u
            end
        | Throw e s2 =>
            match noexcept (dtor tmp) s2 with
            | Ret _ s3 => Throw e s3
            | Throw _ s3 | Terminate s3 => Terminate s3
            | Undef u => Undef u
            end
        | Terminate s2 => Terminate s2
        | Undef u => Undef u
        end
    | Throw e s1 => Throw e s1
    | Terminate s1 => Terminate s1
    | Undef u => Undef u
    end.

Notation "'let*' x ':=' m 'in' k" := (bind m (fun x => k))
  (at level 10, x pattern, m at level 100, k at level 200).
Notation "m '>>' k" := (bind m (fun _ => k))
  (at level 62, right associativity).

(** ** The process memory

    [Args], [Rt] are the signature of the [Function<Rt(Args...)>]
    instantiation in use; [Env] is whatever the wrapped callables act on
    (for a destroyer: the pointees).  A callable object is its call
    operator. *)
Abbreviation Callable Args Rt Env := (Args -> Env -> Outcome Env Rt).

(** [template <typename Callable> struct CallableHolder : CallableBase
    { Callable callable_; ... }].  [Callable] is a callable type of the
    user's or, when a [Function] is built from a non-const [Function] lvalue
    (see [Function.construct_from_Function]), [Function] itself.  The holder
    such a member [Function] points to can be reached from that member
    alone, so it is kept inside the block of the outer holder rather than at
    an address of its own. *)
Inductive CallableHolder (Args Rt Env : Type) : Type :=
| holds_callable (callable_ : Callable Args Rt Env)
| holds_indeterminate_Function   (* a Function whose pointer was never written *)
| holds_empty_Function           (* a Function whose pointer is null *)
| holds_Function (inner : CallableHolder Args Rt Env).
Arguments holds_callable {Args Rt Env} callable_.
Arguments holds_indeterminate_Function {Args Rt Env}.
Arguments holds_empty_Function {Args Rt Env}.
Arguments holds_Function {Args Rt Env} inner.

Section CallableHolder.
Context {Args Rt Env : Type}.

(** [Rt invoke(Args... args) override { return callable_(args...); }];
    on a member [Function] this is [Function::operator()]. *)
Fixpoint CallableHolder_invoke (h : CallableHolder Args Rt Env) (args : Args) (e : Env)
  : Outcome Env Rt :=
  match h with
  | holds_callable c => c args e
  | holds_indeterminate_Function => Undef indeterminate_read
  | holds_empty_Function => Throw (cstring "wtf") e
  | holds_Function inner => CallableHolder_invoke inner args e
  end.

(** [CallableBase *clone() const override
    { return new CallableHolder<Callable>{callable_}; }]: the content of the
    new block.  A member [Function] is copied by [Function(const Function &)],
    which leaves the copy's pointer unwritten when the original is empty. *)
Fixpoint CallableHolder_clone (h : CallableHolder Args Rt Env)
  : UB + CallableHolder Args Rt Env :=
  match h with
  | holds_callable c => inr (holds_callable c)
  | holds_indeterminate_Function => inl indeterminate_read
  | holds_empty_Function => inr holds_indeterminate_Function
  | holds_Function inner =>
      match CallableHolder_clone inner with
      | inl u => inl u
      | inr inner' => inr (holds_Function inner')
      end
  end.

(** The implicit destructor: it destroys the member; [Some u] when that is
    undefined.  For a member [Function] this is [~Function()]. *)
Fixpoint CallableHolder_destroy (h : CallableHolder Args Rt Env) : option UB :=
  match h with
  | holds_callable _ => None
  | holds_indeterminate_Function => Some indeterminate_read
  | holds_empty_Function => None
  | holds_Function inner => CallableHolder_destroy inner
  end.

(** The user's callable that a call of the holder ends up in, if any. *)
Fixpoint innermost (h : CallableHolder Args Rt Env) : option (Callable Args Rt Env) :=
  match h with
  | holds_callable c => Some c
  | holds_Function inner => innermost inner
  | _ => None
  end.
End CallableHolder.

Section World.
Context {Args Rt Env : Type}.

Record World : Type := mkWorld {
  env : Env;                                     (* pointees and anything else user code sees *)
  holders : heap (CallableHolder Args Rt Env);   (* CallableHolder<C> blocks *)
  counters : heap Z;                             (* std::atomic<int> blocks *)
}.

Definition set_env (e : Env) (w : World) : World :=
  mkWorld e (holders w) (counters w).
Definition set_holders (h : heap (CallableHolder Args Rt Env)) (w : World) : World :=
  mkWorld (env w) h (counters w).
Definition set_counters (c : heap Z) (w : World) : World :=
  mkWorld (env w) (holders w) c.
End World.
Arguments World : clear implicits.

(** [new]: a fresh address, never one that was used before. *)
Definition alloc {V} (v : V) (h : heap V) : loc * heap V :=
  let l := fresh (dom h) in (l, <[l := live v]> h).

(** Read through a pointer. *)
Definition load {V} (l : loc) (h : heap V) : UB + V :=
  match h !! l with
  | Some (live v) => inr v
  | Some freed => inl use_after_free
  | None => inl wild_pointer
  end.

(** Write through a pointer. *)
Definition store {V} (l : loc) (v : V) (h : heap V) : UB + heap V :=
  match h !! l with
  | Some (live _) => inr (<[l := live v]> h)
  | Some freed => inl use_after_free
  | None => inl wild_pointer
  end.

(** [delete] of a non-null pointer. *)
Definition dealloc {V} (l : loc) (h : heap V) : UB + heap V :=
  match h !! l with
  | Some (live _) => inr (<[l := freed]> h)
  | Some freed => inl double_free
  | None => inl wild_pointer
  end.

(** [int] is 32 bits wide; atomic arithmetic wraps in two's complement. *)
Definition INT_MAX : Z := 2147483647.
Definition wrap_int (z : Z) : Z := (z + 2147483648) mod 4294967296 - 2147483648.

(** ** Heap primitives lifted to the monad *)
Section Primitives.
Context {Args Rt Env : Type}.
Abbreviation World := (World Args Rt Env).

(** [new CallableHolder<C>(...)] *)
Definition new_holder (h : CallableHolder Args Rt Env) : M World loc :=
  fun w =>
    let (l, hs) := alloc h (holders w) in Ret l (set_holders hs w).

(** the holder at [l], whose virtual functions are about to be called *)
Definition read_holder (l : loc) : M World (CallableHolder Args Rt Env) :=
  fun w =>
    match load l (holders w) with
    | inl u => Undef u
    | inr h => Ret h w
    end.

(** [delete callable_] on a non-null pointer: the holder's destructor
    runs, then the block is released. *)
Definition delete_holder (l : loc) : M World unit :=
  fun w =>
    match holders w !! l with
    | Some (live h) =>
        match CallableHolder_destroy h with
        | Some u => Undef u
        | None => Ret tt (set_holders (<[l := freed]> (holders w)) w)
        end
    | Some freed => Undef double_free
    | None => Undef wild_pointer
    end.

(** [new std::atomic<int>(n)] *)
Definition new_counter (n : Z) : M World loc :=
  fun w =>
    let (l, h) := alloc n (counters w) in Ret l (set_counters h w).

(** [c->load(order)] *)
Definition atomic_load (c : loc) : M World Z :=
  fun w =>
    match load c (counters w) with
    | inl u => Undef u
    | inr n => Ret n w
    end.

(** [c->fetch_add(d, order)]: one indivisible read-modify-write that
    returns the value held before. *)
Definition fetch_add (c : loc) (d : Z) : M World Z :=
  fun w =>
    match load c (counters w) with
    | inl u => Undef u
    | inr n =>
        match store c (wrap_int (n + d)) (counters w) with
        | inl u => Undef u
        | inr h => Ret n (set_counters h w)
        end
    end.

(** [c->fetch_sub(d, order)] *)
Definition fetch_sub (c : loc) (d : Z) : M World Z :=
  fun w =>
    match load c (counters w) with
    | inl u => Undef u
    | inr n =>
        match store c (wrap_int (n - d)) (counters w) with
        | inl u => Undef u
        | inr h => Ret n (set_counters h w)
        end
    end.

(** [delete ref_count_] on a non-null pointer *)
Definition delete_counter (c : loc) : M World unit :=
  fun w =>
    match dealloc c (counters w) with
    | inl u => Undef u
    | inr h => Ret tt (set_counters h w)
    end.

(** [callable_->invoke(args...)] on the holder [h] *)
Definition invoke (h : CallableHolder Args Rt Env) (args : Args) : M World Rt :=
  fun w =>
    match CallableHolder_invoke h args (env w) with
    | Ret r e => Ret r (set_env e w)
    | Throw x e => Throw x (set_env e w)
    | Terminate e => Terminate (set_env e w)
    | Undef u => Undef u
    end.

(** User code that acts on the pointees alone, such as the constructor
    call in a [new T(args...)] expression. *)
Definition in_env {A} (m : Env -> Outcome Env A) : M World A :=
  fun w =>
    match m (env w) with
    | Ret a e => Ret a (set_env e w)
    | Throw x e => Throw x (set_env e w)
    | Terminate e => Terminate (set_env e w)
    | Undef u => Undef u
    end.
End Primitives.

(** In [a = b] the right operand is either the object assigned to or
    another object; the assignment operators test [this != &other]. *)
Inductive Rhs (A : Type) : Type :=
| itself
| another (o : A).
Arguments itself {A}.
Arguments another {A} o.

(** * function.hpp *)
Module Function.
Section Function.
Context {Args Rt Env : Type}.
Abbreviation World := (World Args Rt Env).

(** The member [CallableBase *callable_].  It has no default member
    initialiser, so it can hold an indeterminate value. *)
Inductive CallableBase_ptr : Type :=
| indeterminate
| pointer (p : ptr).

Record t : Type := mk { callable_ : CallableBase_ptr }.

(** [Function() = default].  The constructor is not user-provided:
    [Function f;] leaves [callable_] indeterminate, while [Function()] and
    [Function{}] zero-initialise it first. *)
Inductive initialization : Type := default_init | value_init.

Definition default (i : initialization) : t :=
  match i with
  | default_init => mk indeterminate
  | value_init => mk (pointer nullptr)
  end.

(** [~Function()] *)
Definition destroy (f : t) : M World unit :=
  match callable_ f with
  | indeterminate => undef indeterminate_read
  | pointer None => ret tt
  | pointer (Some l) => delete_holder l
  end.

(** [template <typename Callable> Function(Callable &&callable)] for a
    callable of the user's. *)
Definition construct (c : Callable Args Rt Env) : M World t :=
  let* l := new_holder (holds_callable c) in
  ret (mk (pointer (Some l))).

(** [CallableHolder::clone] of the holder at [l] *)
Definition clone (l : loc) : M World loc :=
  let* h := read_holder l in
  match CallableHolder_clone h with
  | inl u => undef u
  | inr h' => new_holder h'
  end.

(** The same constructor template when the argument is a non-const
    [Function] lvalue: [Callable] is deduced as [Function&], which binds
    better than the copy constructor's [const Function&], so the new object
    points to a [CallableHolder<Function>] whose member is copy-constructed
    from [other]. *)
Definition construct_from_Function (other : t) : M World t :=
  let* member :=
    match callable_ other with
    | indeterminate => undef indeterminate_read
    | pointer None => ret holds_indeterminate_Function
    | pointer (Some l) =>
        let* h := read_holder l in
        match CallableHolder_clone h with
        | inl u => undef u
        | inr h' => ret (holds_Function h')
        end
    end in
  let* l := new_holder member in
  ret (mk (pointer (Some l))).

(** [Function(const Function &other)]: when [other] is empty the new
    object's member is never written. *)
Definition copy (other : t) : M World t :=
  match callable_ other with
  | indeterminate => undef indeterminate_read
  | pointer None => ret (mk indeterminate)
  | pointer (Some l) =>
      let* l' := clone l in
      ret (mk (pointer (Some l')))
  end.

(** [Function(Function &&other) noexcept = default]: member-wise, and
    moving a raw pointer copies it.  Returns the new object and the
    source as the constructor leaves it. *)
Definition move (other : t) : t * t :=
  (mk (callable_ other), other).

(** [operator=(const Function &other)]; the holder [this] had is not
    deleted. *)
Definition copy_assign (this : t) (other : Rhs t) : M World t :=
  match other with
  | itself => ret this
  | another o =>
      match callable_ o with
      | indeterminate => undef indeterminate_read
      | pointer None => ret (mk (pointer nullptr))
      | pointer (Some l) =>
          let* l' := clone l in
          ret (mk (pointer (Some l')))
      end
  end.

(** [operator=(Function &&other) noexcept = default].  Returns [this]
    and [other] as the assignment leaves them. *)
Definition move_assign (this other : t) : t * t :=
  (mk (callable_ other), other).

(** [Rt operator()(Args... args)] *)
Definition call (f : t) (args : Args) : M World Rt :=
  match callable_ f with
  | indeterminate => undef indeterminate_read
  | pointer None => throw "wtf"
  | pointer (Some l) =>
      let* h := read_holder l in
      invoke h args
  end.

(** [f] points at a live holder, and a call of [f] ends up in the user's
    callable [c]. *)
Definition wraps (w : World) (f : t) (c : Callable Args Rt Env) : Prop :=
  exists l h,
    f = mk (pointer (Some l)) /\ holders w !! l = Some (live h) /\
    innermost h = Some c.

(** [std::swap(a, b)] of [<utility>] on two distinct [Function] objects:
    [Function tmp(std::move(a)); a = std::move(b); b = std::move(tmp);],
    and [tmp] is destroyed when the call returns.  [Function] declares no
    [swap] of its own.  Returns [a] and [b] as the call leaves them. *)
Definition std_swap (a b : t) : M World (t * t) :=
  noexcept (
    let (tmp, a0) := move a in
    let (a1, b0) := move_assign a0 b in
    let (b1, tmp0) := move_assign b0 tmp in
    destroy tmp0 >>
    ret (a1, b1)).

(** [std::swap(a, a)] *)
Definition std_swap_self (a : t) : M World t :=
  noexcept (
    let (tmp, a0) := move a in
    let (a1, _) := move_assign a0 a0 in
    let (a2, tmp0) := move_assign a1 tmp in
    destroy tmp0 >>
    ret a2).
End Function.
End Function.

(** * memory.hpp *)

(** ** SharedPtr<T>

    [Env] holds the pointees; [delete_T] is the expression [delete ptr] on a
    [T*], which depends on the pointee type [T] alone. *)
Module SharedPtr.
Section SharedPtr.
Context {Env : Type}.
Variable delete_T : Callable ptr unit Env.
Abbreviation World := (World ptr unit Env).

(** [using Dt = Function<void(T *ptr)>] *)
Abbreviation Dt := (Function.t).

(** [class Deleter { void operator()(T *ptr) { delete ptr; } }] *)
Definition Deleter : Callable ptr unit Env := delete_T.

Record t : Type := mk {
  ptr_ : ptr;          (* T *ptr_ *)
  ref_count_ : ptr;    (* std::atomic<int> *ref_count_ *)
  deleter_ : Dt;       (* Dt deleter_ *)
}.

(** [SharedPtr() : ptr_(nullptr), ref_count_(nullptr), deleter_(Deleter())] *)
Definition default : M World t :=
  let* d := Function.construct Deleter in
  ret (mk nullptr nullptr d).

(** [explicit SharedPtr(T *ptr, Dt deleter)
      : ptr_(ptr), ref_count_(new std::atomic<int>(1)), deleter_(deleter)];
    the parameter object [deleter] belongs to the caller, and being a
    non-const lvalue it initialises [deleter_] through the constructor
    template. *)
Definition construct (p : ptr) (deleter : Dt) : M World t :=
  let* c := new_counter 1 in
  let* d := Function.construct_from_Function deleter in
  ret (mk p (Some c) d).

(** [void release()] *)
Definition release (this : t) : M World unit :=
  match ref_count_ this with
  | None => ret tt
  | Some c =>
      let* old := fetch_sub c 1 in
      if old =? 1 then
        Function.call (deleter_ this) (ptr_ this) >>
        delete_counter c
      else ret tt
  end.

(** The shared tail of the copy constructor and of copy assignment:
    adopt [other]'s three members, then count the new owner. *)
Definition share (deleter0 : Dt) (other : t) : M World t :=
  let* d := Function.copy_assign deleter0 (another (deleter_ other)) in
  match ref_count_ other with
  | None => ret tt
  | Some c => fetch_add c 1 >> ret tt
  end >>
  ret (mk (ptr_ other) (ref_count_ other) d).

(** [SharedPtr(const SharedPtr<T> &other)]: [deleter_] is
    default-initialised, then assigned in the body. *)
Definition copy (other : t) : M World t :=
  share (Function.default Function.default_init) other.

(** [SharedPtr(SharedPtr<T> &&other) noexcept]; returns the new object
    and [other] as the constructor leaves it. *)
Definition move (other : t) : M World (t * t) :=
  let (d, od) :=
    Function.move_assign (Function.default Function.default_init) (deleter_ other) in
  ret (mk (ptr_ other) (ref_count_ other) d, mk nullptr nullptr od).

(** [operator=(const SharedPtr<T> &other)] *)
Definition copy_assign (this : t) (other : Rhs t) : M World t :=
  match other with
  | itself => ret this
  | another o =>
      release this >>
      share (deleter_ this) o
  end.

(** [operator=(SharedPtr<T> &&other) noexcept]; returns [this] and
    [other] as the assignment leaves them. *)
Definition move_assign_from (this other : t) : M World (t * t) :=
  release this >>
  let (d, od) := Function.move_assign (deleter_ this) (deleter_ other) in
  ret (mk (ptr_ other) (ref_count_ other) d, mk nullptr nullptr od).

Definition move_assign (this : t) (other : Rhs t) : M World (t * Rhs t) :=
  match other with
  | itself => ret (this, itself)
  | another o =>
      noexcept (
        let* r := move_assign_from this o in
        ret (fst r, another (snd r)))
  end.

(** [operator bool() const] *)
Definition to_bool (this : t) : bool := bool_decide (ptr_ this <> nullptr).

(** [T *get() const] *)
Definition get (this : t) : ptr := ptr_ this.

(** [void set_deleter(Dt deleter)] *)
Definition set_deleter (this : t) (deleter : Dt) : M World t :=
  let* d := Function.copy_assign (deleter_ this) (another deleter) in
  ret (mk (ptr_ this) (ref_count_ this) d).

(** [int use_count() const] *)
Definition use_count (this : t) : M World Z :=
  match ref_count_ this with
  | None => ret 0
  | Some c => atomic_load c
  end.

(** [void reset(T *ptr, Dt deleter)] *)
Definition reset (this : t) (p : ptr) (deleter : Dt) : M World t :=
  release this >>
  match p with
  | Some _ =>
      let* c := new_counter 1 in
      let* d := Function.copy_assign (deleter_ this) (another deleter) in
      ret (mk p (Some c) d)
  | None => ret (mk nullptr nullptr (deleter_ this))
  end.

(** [~SharedPtr() { release(); }], then the member [deleter_] is
    destroyed. *)
Definition destroy (this : t) : M World unit :=
  noexcept (
    release this >>
    Function.destroy (deleter_ this)).

(** Owners going out of scope one after the other. *)
Fixpoint destroy_all (owners : list t) : M World unit :=
  match owners with
  | [] => ret tt
  | o :: rest => destroy o >> destroy_all rest
  end.

(** [o] is one of the owners of the pointee [p] counted by the block
    [c], and carries its own copy of the destroyer [d]. *)
Definition owns (c : loc) (p : ptr) (d : Callable ptr unit Env) (w : World) (o : t)
  : Prop :=
  ref_count_ o = Some c /\ ptr_ o = p /\ Function.wraps w (deleter_ o) d.

(** [void swap(SharedPtr<T> &other) noexcept] with another object;
    returns [this] and [other] as the call leaves them. *)
Definition swap_with (this other : t) : M World (t * t) :=
  let* r := Function.std_swap (deleter_ this) (deleter_ other) in
  ret (mk (ptr_ other) (ref_count_ other) (fst r),
       mk (ptr_ this) (ref_count_ this) (snd r)).

Definition swap (this : t) (other : Rhs t) : M World (t * Rhs t) :=
  noexcept (
    match other with
    | itself =>
        let* d := Function.std_swap_self (deleter_ this) in
        ret (mk (ptr_ this) (ref_count_ this) d, itself)
    | another o =>
        let* r := swap_with this o in
        ret (fst r, another (snd r))
    end).

(** [bool operator==(const SharedPtr<T> &other) const] and [operator!=] *)
Definition eq (this other : t) : bool := bool_decide (ptr_ this = ptr_ other).
Definition ne (this other : t) : bool := bool_decide (ptr_ this <> ptr_ other).

(** [bool operator==(const T *other) const] and [operator!=] *)
Definition eq_ptr (this : t) (other : ptr) : bool := bool_decide (ptr_ this = other).
Definition ne_ptr (this : t) (other : ptr) : bool := bool_decide (ptr_ this <> other).

(** [SharedPtr<T> s(p);], the destroyer defaulted: the argument
    [Deleter()] is converted to the parameter object [deleter], which lives
    until the constructor has returned. *)
Definition construct_default_deleter (p : ptr) : M World t :=
  scoped (Function.construct Deleter) Function.destroy (construct p).

(** [make_shared<T>(args...)]: [T *ptr = new T(args...); return
    SharedPtr<T>(ptr);].  [new_T] is the [new] expression, which yields
    the address of the new pointee; the returned prvalue initialises the
    caller's object directly. *)
Context {CtorArgs : Type}.
Variable new_T : CtorArgs -> Env -> Outcome Env loc.

Definition make_shared (args : CtorArgs) : M World t :=
  let* p := in_env (new_T args) in
  construct_default_deleter (Some p).
End SharedPtr.
End SharedPtr.

(** ** UniquePtr<T> *)
Module UniquePtr.
Section UniquePtr.
Context {Env : Type}.
Variable delete_T : Callable ptr unit Env.
Abbreviation World := (World ptr unit Env).
Abbreviation Dt := (Function.t).

(** [struct DefaultDeleter { void operator()(T *ptr) { delete ptr; } }] *)
Definition DefaultDeleter : Callable ptr unit Env := delete_T.

Record t : Type := mk {
  ptr_ : ptr;       (* T *ptr_ *)
  deleter_ : Dt;    (* Dt deleter_ *)
}.

(** The default argument [Dt deleter = DefaultDeleter()]: a temporary
    [Function] made by the caller and destroyed when the call is over. *)
Definition with_default_deleter {A} (call : Dt -> M World A) : M World A :=
  scoped (Function.construct DefaultDeleter) Function.destroy call.

(** [explicit UniquePtr(T *ptr, Dt deleter) : ptr_(ptr), deleter_(deleter)];
    [deleter] is a non-const lvalue, so [deleter_] is initialised through
    the constructor template. *)
Definition construct (p : ptr) (deleter : Dt) : M World t :=
  let* d := Function.construct_from_Function deleter in
  ret (mk p d).

(** [UniquePtr()], both arguments defaulted. *)
Definition default : M World t :=
  with_default_deleter (construct nullptr).

(** [UniquePtr(UniquePtr &&other) noexcept]; returns the new object and
    [other] as the constructor leaves it. *)
Definition move (other : t) : t * t :=
  let (d, od) := Function.move (deleter_ other) in
  (mk (ptr_ other) d, mk nullptr od).

(** [void reset(T *ptr, Dt deleter)] *)
Definition reset (this : t) (p : ptr) (deleter : Dt) : M World t :=
  Function.call (deleter_ this) (ptr_ this) >>
  let* d := Function.copy_assign (deleter_ this) (another deleter) in
  ret (mk p d).

(** [operator=(UniquePtr &&other) noexcept] *)
Definition move_assign_from (this other : t) : M World (t * t) :=
  let* this1 := with_default_deleter (reset this nullptr) in
  let (d, od) := Function.move_assign (deleter_ this1) (deleter_ other) in
  ret (mk (ptr_ other) d, mk nullptr od).

Definition move_assign (this : t) (other : Rhs t) : M World (t * Rhs t) :=
  match other with
  | itself => ret (this, itself)
  | another o =>
      noexcept (
        let* r := move_assign_from this o in
        ret (fst r, another (snd r)))
  end.

(** [~UniquePtr() { deleter_(ptr_); }], then the member [deleter_] is
    destroyed. *)
Definition destroy (this : t) : M World unit :=
  noexcept (
    Function.call (deleter_ this) (ptr_ this) >>
    Function.destroy (deleter_ this)).

(** [operator bool() const] *)
Definition to_bool (this : t) : bool := bool_decide (ptr_ this <> nullptr).

(** [T *get() const] *)
Definition get (this : t) : ptr := ptr_ this.

(** [void set_deleter(Dt deleter)] *)
Definition set_deleter (this : t) (deleter : Dt) : M World t :=
  let* d := Function.copy_assign (deleter_ this) (another deleter) in
  ret (mk (ptr_ this) d).

(** [void swap(UniquePtr<T> &other) noexcept] with another object;
    returns [this] and [other] as the call leaves them. *)
Definition swap_with (this other : t) : M World (t * t) :=
  let* r := Function.std_swap (deleter_ this) (deleter_ other) in
  ret (mk (ptr_ other) (fst r), mk (ptr_ this) (snd r)).

Definition swap (this : t) (other : Rhs t) : M World (t * Rhs t) :=
  noexcept (
    match other with
    | itself =>
        let* d := Function.std_swap_self (deleter_ this) in
        ret (mk (ptr_ this) d, itself)
    | another o =>
        let* r := swap_with this o in
        ret (fst r, another (snd r))
    end).

(** [bool operator==(const UniquePtr<T> &other) const] and [operator!=] *)
Definition eq (this other : t) : bool := bool_decide (ptr_ this = ptr_ other).
Definition ne (this other : t) : bool := bool_decide (ptr_ this <> ptr_ other).

(** [bool operator==(const T *other) const] and [operator!=] *)
Definition eq_ptr (this : t) (other : ptr) : bool := bool_decide (ptr_ this = other).
Definition ne_ptr (this : t) (other : ptr) : bool := bool_decide (ptr_ this <> other).

(** [make_unique<T>(args...)]: [return UniquePtr<T>(new T(args...));],
    the destroyer defaulted.  [new_T] is the [new] expression; the returned
    prvalue initialises the caller's object directly. *)
Context {CtorArgs : Type}.
Variable new_T : CtorArgs -> Env -> Outcome Env loc.

Definition make_unique (args : CtorArgs) : M World t :=
  let* p := in_env (new_T args) in
  with_default_deleter (construct (Some p)).
End UniquePtr.
End UniquePtr.

(** ** WeakPtr<T>

    Two members of [WeakPtr] are ill-formed as soon as they are
    instantiated, so no program contains them and they are not embedded:
    - [WeakPtr(const SharedPtr<T> &sharedPtr)] initialises [ref_count_]
      from the private member [ref_count_] of [SharedPtr], and [SharedPtr]
      declares no friend; [make_weak], which calls it, falls with it;
    - [lock()] builds its result as a [SharedPtr<T>] initialised from the
      [WeakPtr] itself, and [SharedPtr] has no constructor that accepts
      one.
    The members below are the ones a program can use. *)
Module WeakPtr.
Section WeakPtr.
Context {Env : Type}.
Abbreviation World := (World ptr unit Env).

Record t : Type := mk {
  ptr_ : ptr;          (* T *ptr_ *)
  ref_count_ : ptr;    (* std::atomic<int> *ref_count_ *)
}.

(** [WeakPtr()] *)
Definition default : t := mk nullptr nullptr.

(** [WeakPtr(const WeakPtr &other)] *)
Definition copy (other : t) : t := mk (ptr_ other) (ref_count_ other).

(** [WeakPtr(WeakPtr &&other) noexcept]; returns the new object and
    [other] as the constructor leaves it. *)
Definition move (other : t) : t * t :=
  (mk (ptr_ other) (ref_count_ other), mk nullptr nullptr).

(** [bool expired() const] *)
Definition expired (this : t) : M World bool :=
  match ref_count_ this with
  | None => ret true
  | Some c =>
      let* n := atomic_load c in
      ret (n =? 0)
  end.

(** [operator bool() const { return !expired(); }] *)
Definition to_bool (this : t) : M World bool :=
  let* e := expired this in
  ret (negb e).

(** [operator=(const WeakPtr &other)] *)
Definition copy_assign (this : t) (other : Rhs t) : t :=
  match other with
  | itself => this
  | another o => mk (ptr_ o) (ref_count_ o)
  end.

(** [operator=(WeakPtr &&other) noexcept]; returns [this] and [other]
    as the assignment leaves them. *)
Definition move_assign (this : t) (other : Rhs t) : t * Rhs t :=
  match other with
  | itself => (this, itself)
  | another o => (mk (ptr_ o) (ref_count_ o), another (mk nullptr nullptr))
  end.

(** [void swap(WeakPtr<T> &other) noexcept]: two [std::swap]s of raw
    pointers. *)
Definition swap (this : t) (other : Rhs t) : t * Rhs t :=
  match other with
  | itself => (this, itself)
  | another o => (mk (ptr_ o) (ref_count_ o), another (mk (ptr_ this) (ref_count_ this)))
  end.

(** [bool operator==(const WeakPtr<T> &other) const] and [operator!=] *)
Definition eq (this other : t) : bool := bool_decide (ptr_ this = ptr_ other).
Definition ne (this other : t) : bool := bool_decide (ptr_ this <> ptr_ other).

(** [bool operator==(const T *other) const] and [operator!=] *)
Definition eq_ptr (this : t) (other : ptr) : bool := bool_decide (ptr_ this = other).
Definition ne_ptr (this : t) (other : ptr) : bool := bool_decide (ptr_ this <> other).

(** The [WeakPtr] objects a program can hold: a default-constructed one,
    and what the copy and move constructors, the two assignments and
    [swap] make of objects it holds already, the operand that a move or a
    [swap] changes included. *)
Inductive buildable : t -> Prop :=
| buildable_default : buildable default
| buildable_copy o : buildable o -> buildable (copy o)
| buildable_move o : buildable o -> buildable (fst (move o))
| buildable_moved_from o : buildable o -> buildable (snd (move o))
| buildable_copy_assign this o :
    buildable this -> buildable o -> buildable (copy_assign this (another o))
| buildable_copy_assign_self this :
    buildable this -> buildable (copy_assign this itself)
| buildable_move_assign this o :
    buildable this -> buildable o -> buildable (fst (move_assign this (another o)))
| buildable_move_assigned_from this o o' :
    buildable this -> buildable o ->
    snd (move_assign this (another o)) = another o' -> buildable o'
| buildable_move_assign_self this :
    buildable this -> buildable (fst (move_assign this itself))
| buildable_swap this o :
    buildable this -> buildable o -> buildable (fst (swap this (another o)))
| buildable_swapped this o o' :
    buildable this -> buildable o ->
    snd (swap this (another o)) = another o' -> buildable o'
| buildable_swap_self this :
    buildable this -> buildable (fst (swap this itself)).
End WeakPtr.
End WeakPtr.

(** * any.hpp *)
Module Any.
Section Any.
(** The C++ types a value can have, the values of each, and the
    value-initialised object [T{}] of each. *)
Context {type : Type} `{EqDecision type}.
Variable value : type -> Type.
Variable value_initialized : forall T : type, value T.

(** [template <typename T> struct Holder : Placeholder { T held; }]: the
    dynamic type of a [Placeholder] object is [Holder<T>] for one [T]. *)
Record Placeholder : Type := Holder { T_ : type; held : value T_ }.

Abbreviation Env := (heap Placeholder).
Abbreviation World := (World ptr unit Env).

(** [delete ptr] on a [Placeholder*]; the destructor is virtual. *)
Definition delete_Placeholder (p : ptr) (e : Env) : Outcome Env unit :=
  match p with
  | None => Ret tt e
  | Some l =>
      match dealloc l e with
      | inl u => Undef u
      | inr e' => Ret tt e'
      end
  end.

(** [UniquePtr<Placeholder> content_] *)
Record t : Type := mk { content_ : UniquePtr.t }.

(** [new Holder<T>(v)] *)
Definition new_Holder (T : type) (v : value T) : M World loc :=
  fun w =>
    let (l, e) := alloc (Holder T v) (env w) in Ret l (set_env e w).

(** the [Placeholder] object a non-null [content_] points to *)
Definition read_Placeholder (l : loc) : M World Placeholder :=
  fun w =>
    match load l (env w) with
    | inl u => Undef u
    | inr h => Ret h w
    end.

(** [Any() = default] *)
Definition default : M World t :=
  let* c := UniquePtr.default delete_Placeholder in
  ret (mk c).

(** [template <typename T> Any(T &&t)] *)
Definition construct (T : type) (v : value T) : M World t :=
  let* c := UniquePtr.default delete_Placeholder in
  let* h := new_Holder T v in
  let* c' := UniquePtr.with_default_deleter delete_Placeholder
               (UniquePtr.reset c (Some h)) in
  ret (mk c').

(** [Placeholder *clone() const override { return new Holder(T{}); }] *)
Definition clone (l : loc) : M World loc :=
  let* h := read_Placeholder l in
  new_Holder (T_ h) (value_initialized (T_ h)).

(** [Any(const Any &other)] *)
Definition copy (other : t) : M World t :=
  let* c := UniquePtr.default delete_Placeholder in
  match UniquePtr.get (content_ other) with
  | Some l =>
      let* h := clone l in
      let* c' := UniquePtr.with_default_deleter delete_Placeholder
                   (UniquePtr.reset c (Some h)) in
      ret (mk c')
  | None => ret (mk c)
  end.

(** [Any(Any &&other) noexcept : content_(std::move(other.content_))];
    returns the new object and [other] as the constructor leaves it. *)
Definition move (other : t) : t * t :=
  let (c, oc) := UniquePtr.move (content_ other) in
  (mk c, mk oc).

(** [operator=(Any &&other) noexcept] *)
Definition move_assign (this : t) (other : Rhs t) : M World (t * Rhs t) :=
  match other with
  | itself => ret (this, itself)
  | another o =>
      noexcept (
        let* r := UniquePtr.move_assign_from delete_Placeholder
                    (content_ this) (content_ o) in
        ret (mk (fst r), another (mk (snd r))))
  end.

(** [~Any() = default] *)
Definition destroy (this : t) : M World unit :=
  UniquePtr.destroy (content_ this).

(** [bool has_value() const { return content_ != nullptr; }] *)
Definition has_value (this : t) : bool :=
  bool_decide (UniquePtr.ptr_ (content_ this) <> nullptr).

(** [dynamic_cast<Holder<T> *>(holder)]: succeeds when the dynamic type
    is exactly [Holder<T>]. *)
Definition dynamic_cast (T : type) (h : Placeholder) : option (value T) :=
  match decide (T_ h = T) with
  | left e => Some (eq_rect (T_ h) value (held h) T e)
  | right _ => None
  end.

(** [template <typename T> T &cast()] *)
Definition cast (T : type) (this : t) : M World (value T) :=
  match UniquePtr.get (content_ this) with
  | Some l =>
      let* h := read_Placeholder l in
      match dynamic_cast T h with
      | Some v => ret v
      | None => throw "wtfff"
      end
  | None => throw "wtfff"
  end.

(** [operator=(const Any &other)]:
    [Any temp(other); content_.swap(temp.content_);], and [temp] is
    destroyed at the end of the block.  [swap] is [noexcept], so nothing
    is thrown while [temp] is alive. *)
Definition copy_assign (this : t) (other : Rhs t) : M World t :=
  match other with
  | itself => ret this
  | another o =>
      let* temp := copy o in
      let* r := noexcept (UniquePtr.swap_with (content_ this) (content_ temp)) in
      destroy (mk (snd r)) >>
      ret (mk (fst r))
  end.
End Any.
End Any.

(** * Observing outcomes *)

Definition returned {S A} (o : Outcome S A) : option A :=
  match o with
  | Ret a _ => Some a
  | _ => None
  end.

Definition thrown {S A} (o : Outcome S A) : option Exn :=
  match o with
  | Throw e _ => Some e
  | _ => None
  end.


(** * Allocation bookkeeping *)

(** Every holder block that [w] knows, allocated or deleted, is the same
    in [w']: in between, no holder of [w] was deleted or overwritten. *)
Definition holders_kept {Args Rt Env} (w w' : World Args Rt Env) : Prop :=
  forall l b, holders w !! l = Some b -> holders w' !! l = Some b.

(** Every holder that is allocated in [w'] was allocated in [w] already:
    what was allocated in between has been deleted again. *)
Definition no_holder_left {Args Rt Env} (w w' : World Args Rt Env) : Prop :=
  forall l h, holders w' !! l = Some (live h) -> holders w !! l = Some (live h).

(** The holder at [l] was allocated after [w] and is still allocated in
    [w']. *)
Definition holder_left {Args Rt Env} (w w' : World Args Rt Env) (l : loc) : Prop :=
  holders w !! l = None /\ exists h, holders w' !! l = Some (live h).

(** * Concrete programs *)
Module Demo.
(** ** Pointees of type [int] and a log for user-supplied destroyers *)
Record Env : Type := mkEnv { objects : heap Z; log : list ptr }.

(** [delete ptr] on an [int*] *)
Definition delete_int : Callable ptr unit Env :=
  fun p e =>
    match p with
    | None => Ret tt e
    | Some l =>
        match dealloc l (objects e) with
        | inl u => Undef u
        | inr h => Ret tt (mkEnv h (log e))
        end
    end.

(** [new int(v)] *)
Definition new_int : Z -> Env -> Outcome Env loc :=
  fun v e =>
    let (l, h) := alloc v (objects e) in Ret l (mkEnv h (log e)).

(** A custom destroyer that appends the pointer it is given to the log. *)
Definition logging : Callable ptr unit Env :=
  fun p e => Ret tt (mkEnv (objects e) (log e ++ [p])).

(** The memory after [new int(5)] returned address 1. *)
Definition start : World ptr unit Env :=
  mkWorld (mkEnv {[ 1%positive := live 5 ]} []) ∅ ∅.

(** [SharedPtr<int> s(p, c);] and [UniquePtr<int> u(p, c);] for a callable
    [c] of the user's: [c] is converted to the parameter object [deleter],
    which lives until the constructor has returned. *)
Definition SharedPtr_with (p : ptr) (c : Callable ptr unit Env)
  : M (World ptr unit Env) SharedPtr.t :=
  scoped (Function.construct c) Function.destroy (SharedPtr.construct p).

Definition UniquePtr_with (p : ptr) (c : Callable ptr unit Env)
  : M (World ptr unit Env) UniquePtr.t :=
  scoped (Function.construct c) Function.destroy (UniquePtr.construct p).

(** Two [SharedPtr]s [a] and [b] that share the pointee at address 1:
    the memory after
    [SharedPtr<int> a(p, logging); SharedPtr<int> b(a);]. *)
Definition a : SharedPtr.t :=
  SharedPtr.mk (Some 1%positive) (Some 1%positive)
    (Function.mk (Function.pointer (Some 2%positive))).
Definition b : SharedPtr.t :=
  SharedPtr.mk (Some 1%positive) (Some 1%positive)
    (Function.mk (Function.pointer (Some 3%positive))).
Definition shared_by_two : World ptr unit Env :=
  mkWorld (mkEnv {[ 1%positive := live 5 ]} [])
    {[ 1%positive := freed;
       2%positive := live (holds_Function (holds_callable logging));
       3%positive := live (holds_Function (holds_callable logging)) ]}
    {[ 1%positive := live 2 ]}.

(** A destroyer that ignores its argument and throws a
    [std::runtime_error], and the memory after
    [SharedPtr<int> r(p, refusing);]. *)
Definition refusing : Callable ptr unit Env :=
  fun p e => Throw {| exn_type := class_type "std::runtime_error"; what := "busy" |} e.

Definition r : SharedPtr.t :=
  SharedPtr.mk (Some 1%positive) (Some 1%positive)
    (Function.mk (Function.pointer (Some 2%positive))).
Definition owned_by_r : World ptr unit Env :=
  mkWorld (mkEnv {[ 1%positive := live 5 ]} [])
    {[ 1%positive := freed;
       2%positive := live (holds_Function (holds_callable refusing)) ]}
    {[ 1%positive := live 1 ]}.

(** The memory after [new int(5)] returned address 1 and
    [SharedPtr<int>::Dt del = SharedPtr<int>::Deleter();] was executed. *)
Definition del : Function.t := Function.mk (Function.pointer (Some 1%positive)).
Definition start_with_del : World ptr unit Env :=
  mkWorld (mkEnv {[ 1%positive := live 5 ]} [])
    {[ 1%positive := live (holds_callable delete_int) ]} ∅.

(** The memory [shared_by_two] after [a] has been destroyed: [b] is
    the last owner. *)
Definition owned_by_b : World ptr unit Env :=
  mkWorld (mkEnv {[ 1%positive := live 5 ]} [])
    {[ 1%positive := freed;
       2%positive := freed;
       3%positive := live (holds_Function (holds_callable logging)) ]}
    {[ 1%positive := live 1 ]}.

(** The memory [shared_by_two] after
    [SharedPtr<int>::Dt del2 = SharedPtr<int>::Deleter();]. *)
Definition del2 : Function.t := Function.mk (Function.pointer (Some 4%positive)).
Definition shared_by_two_with_del2 : World ptr unit Env :=
  set_holders (<[ 4%positive := live (holds_callable delete_int) ]>
                 (holders shared_by_two)) shared_by_two.

(** The memory [shared_by_two] when the pointee has [INT_MAX] owners,
    [a] and [b] among them. *)
Definition crowded : World ptr unit Env :=
  set_counters {[ 1%positive := live INT_MAX ]} shared_by_two.

(** The memory after [UniquePtr<int> e(nullptr, logging);] in a
    program that has allocated nothing else. *)
Definition nothing : World ptr unit Env := mkWorld (mkEnv ∅ []) ∅ ∅.
Definition e : UniquePtr.t :=
  UniquePtr.mk nullptr (Function.mk (Function.pointer (Some 2%positive))).
Definition empty_unique : World ptr unit Env :=
  mkWorld (mkEnv ∅ [])
    {[ 1%positive := freed;
       2%positive := live (holds_Function (holds_callable logging)) ]} ∅.

(** ** A few C++ types for [Any] *)
Inductive cpp_type : Type := t_int | t_double | t_bool.

#[global] Instance cpp_type_eq_dec : EqDecision cpp_type.
Proof. solve_decision. Defined.

Definition cpp_value (T : cpp_type) : Type :=
  match T with
  | t_int => Z
  | t_double => float
  | t_bool => bool
  end.

(** [T{}] *)
Definition value_initialized (T : cpp_type) : cpp_value T :=
  match T with
  | t_int => 0
  | t_double => 0%float
  | t_bool => false
  end.

Definition no_values : World ptr unit (heap (Any.Placeholder cpp_value)) :=
  mkWorld ∅ ∅ ∅.

(** The memory after [Any x = 1; Any y = true;].  Odd addresses held
    the temporaries made for defaulted [deleter] arguments; holders 2 and 6
    are the ones [content_] was constructed with, which [reset] overwrote
    without deleting. *)
Definition x : Any.t :=
  Any.mk (UniquePtr.mk (Some 1%positive)
            (Function.mk (Function.pointer (Some 4%positive)))).
Definition y : Any.t :=
  Any.mk (UniquePtr.mk (Some 2%positive)
            (Function.mk (Function.pointer (Some 8%positive)))).
Definition two_values : World ptr unit (heap (Any.Placeholder cpp_value)) :=
  mkWorld
    {[ 1%positive := live (Any.Holder cpp_value t_int 1);
       2%positive := live (Any.Holder cpp_value t_bool true) ]}
    {[ 1%positive := freed;
       2%positive := live (holds_Function (holds_callable (Any.delete_Placeholder cpp_value)));
       3%positive := freed;
       4%positive := live (holds_callable (Any.delete_Placeholder cpp_value));
       5%positive := freed;
       6%positive := live (holds_Function (holds_callable (Any.delete_Placeholder cpp_value)));
       7%positive := freed;
       8%positive := live (holds_callable (Any.delete_Placeholder cpp_value)) ]}
    ∅.

(** ** [Function<bool(bool)>] wrapping [[](bool b) { return !b; }] *)
Definition negation : Callable bool bool unit :=
  fun b e => Ret (negb b) e.

Definition no_functions : World bool bool unit := mkWorld tt ∅ ∅.

(** The memory after [Function<bool(bool)> g(negation);]. *)
Definition g : Function.t := Function.mk (Function.pointer (Some 1%positive)).
Definition one_function : World bool bool unit :=
  mkWorld tt {[ 1%positive := live (holds_callable negation) ]} ∅.
End Demo.

(** * Proof tools *)

(** Reduce the projections of a memory that is given field by field. *)
Ltac wsimpl :=
  cbn [env holders counters set_env set_holders set_counters fst snd] in *.

(** Compare two heaps that are built from inserts, address by address. *)
Ltac heap_eq :=
  apply map_eq; intros ?; rewrite !lookup_insert; repeat case_decide; congruence.

(* ===================================================================== *)
(** * Theorems *)

(** ** Outcomes *)

Lemma bind_ret {S A B} (m : M S A) (k : A -> M S B) s a s' :
  m s = Ret a s' -> bind m k s = k a s'.
Proof. intros H. unfold bind. by rewrite H. Qed.

Lemma bind_undef {S A B} (m : M S A) (k : A -> M S B) s u :
  m s = Undef u -> bind m k s = Undef u.
Proof. intros H. unfold bind. by rewrite H. Qed.

Lemma scoped_ret {S T A} (make : M S T) dtor (body : T -> M S A) s tmp s1 a s2 s3 :
  make s = Ret tmp s1 -> body tmp s1 = Ret a s2 -> dtor tmp s2 = Ret tt s3 ->
  scoped make dtor body s = Ret a s3.
Proof. intros H1 H2 H3. unfold scoped, noexcept. by rewrite H1, H2, H3. Qed.

Lemma noexcept_ret {S A} (m : M S A) s a s' :
  m s = Ret a s' -> noexcept m s = Ret a s'.
Proof. intros H. unfold noexcept. by rewrite H. Qed.

(** ** Heaps and the primitives on them *)

Section HeapFacts.
Context {V : Type}.
Implicit Types (h : heap V) (l : loc) (v : V).

Lemma alloc_inv v h l h' :
  alloc v h = (l, h') -> h !! l = None /\ h' = <[l := live v]> h.
Proof.
  unfold alloc. intros [= <- <-]. split; [|done].
  apply not_elem_of_dom, is_fresh.
Qed.

Lemma load_live l v h : h !! l = Some (live v) -> load l h = inr v.
Proof. unfold load. by intros ->. Qed.

Lemma load_freed l h : h !! l = Some freed -> load l h = inl use_after_free.
Proof. unfold load. by intros ->. Qed.

Lemma store_live l v v' h :
  h !! l = Some (live v) -> store l v' h = inr (<[l := live v']> h).
Proof. unfold store. by intros ->. Qed.

Lemma dealloc_live l v h :
  h !! l = Some (live v) -> dealloc l h = inr (<[l := freed]> h).
Proof. unfold dealloc. by intros ->. Qed.

End HeapFacts.

Section HolderFacts.
Context {Args Rt Env : Type}.
Implicit Types (h : CallableHolder Args Rt Env) (c : Callable Args Rt Env).

Lemma invoke_innermost h c args (e : Env) :
  innermost h = Some c -> CallableHolder_invoke h args e = c args e.
Proof. induction h; cbn; try discriminate; [by intros [= ->]|done]. Qed.

Lemma clone_innermost h c : innermost h = Some c -> CallableHolder_clone h = inr h.
Proof.
  induction h as [| | |inner IH]; cbn; try discriminate; [done|].
  intros H. by rewrite (IH H).
Qed.

Lemma destroy_innermost h c : innermost h = Some c -> CallableHolder_destroy h = None.
Proof. induction h; cbn; try discriminate; done. Qed.
End HolderFacts.

Section PrimFacts.
Context {Args Rt Env : Type}.
Implicit Types (w : World Args Rt Env) (l : loc) (h : CallableHolder Args Rt Env)
  (c : Callable Args Rt Env).

Lemma new_holder_spec h w :
  exists l, holders w !! l = None /\
    new_holder h w = Ret l (set_holders (<[l := live h]> (holders w)) w).
Proof.
  unfold new_holder. destruct (alloc h (holders w)) as [l hs] eqn:E.
  apply alloc_inv in E as [? ->]. eauto.
Qed.

Lemma read_holder_live l h w :
  holders w !! l = Some (live h) -> read_holder l w = Ret h w.
Proof. intros H. unfold read_holder. by rewrite (load_live _ _ _ H). Qed.

Lemma read_holder_freed l w :
  holders w !! l = Some freed -> read_holder l w = Undef use_after_free.
Proof. intros H. unfold read_holder. by rewrite (load_freed _ _ H). Qed.

Lemma delete_holder_live l h c w :
  holders w !! l = Some (live h) ->
  innermost h = Some c ->
  delete_holder l w = Ret tt (set_holders (<[l := freed]> (holders w)) w).
Proof.
  intros H Hc. unfold delete_holder. by rewrite H, (destroy_innermost _ _ Hc).
Qed.

Lemma new_counter_spec n w :
  exists l, counters w !! l = None /\
    new_counter n w = Ret l (set_counters (<[l := live n]> (counters w)) w).
Proof.
  unfold new_counter. destruct (alloc n (counters w)) as [l hs] eqn:E.
  apply alloc_inv in E as [? ->]. eauto.
Qed.

Lemma atomic_load_live l n w :
  counters w !! l = Some (live n) -> atomic_load l w = Ret n w.
Proof. intros H. unfold atomic_load. by rewrite (load_live _ _ _ H). Qed.

Lemma atomic_load_freed l w :
  counters w !! l = Some freed -> atomic_load l w = Undef use_after_free.
Proof. intros H. unfold atomic_load. by rewrite (load_freed _ _ H). Qed.

Lemma fetch_add_live l n d w :
  counters w !! l = Some (live n) ->
  fetch_add l d w = Ret n (set_counters (<[l := live (wrap_int (n + d))]> (counters w)) w).
Proof.
  intros H. unfold fetch_add.
  by rewrite (load_live _ _ _ H), (store_live _ _ _ _ H).
Qed.

Lemma fetch_sub_live l n d w :
  counters w !! l = Some (live n) ->
  fetch_sub l d w = Ret n (set_counters (<[l := live (wrap_int (n - d))]> (counters w)) w).
Proof.
  intros H. unfold fetch_sub.
  by rewrite (load_live _ _ _ H), (store_live _ _ _ _ H).
Qed.

Lemma delete_counter_live l n w :
  counters w !! l = Some (live n) ->
  delete_counter l w = Ret tt (set_counters (<[l := freed]> (counters w)) w).
Proof. intros H. unfold delete_counter. by rewrite (dealloc_live _ _ _ H). Qed.

Lemma invoke_ret h c args w r e :
  innermost h = Some c ->
  c args (env w) = Ret r e -> invoke h args w = Ret r (set_env e w).
Proof. intros Hc H. unfold invoke. by rewrite (invoke_innermost _ _ _ _ Hc), H. Qed.
End PrimFacts.

Lemma wrap_int_id z : -2147483648 <= z <= INT_MAX -> wrap_int z = z.
Proof.
  unfold wrap_int, INT_MAX. intros H.
  rewrite Z.mod_small by lia. lia.
Qed.

(** ** Function *)

Section FunctionFacts.
Context {Args Rt Env : Type}.
Implicit Types (w : World Args Rt Env) (l : loc) (h : CallableHolder Args Rt Env)
  (c : Callable Args Rt Env) (f : Function.t).

Lemma Function_construct_spec c w :
  exists l, holders w !! l = None /\
    Function.construct c w =
      Ret (Function.mk (Function.pointer (Some l)))
          (set_holders (<[l := live (holds_callable c)]> (holders w)) w).
Proof.
  destruct (new_holder_spec (holds_callable c) w) as (l & Hl & E).
  exists l. split; [done|].
  unfold Function.construct. by rewrite (bind_ret _ _ _ _ _ E).
Qed.

Lemma Function_clone_spec l h c w :
  holders w !! l = Some (live h) ->
  innermost h = Some c ->
  exists l', holders w !! l' = None /\
    Function.clone l w = Ret l' (set_holders (<[l' := live h]> (holders w)) w).
Proof.
  intros H Hc. destruct (new_holder_spec h w) as (l' & Hl & E).
  exists l'. split; [done|].
  unfold Function.clone.
  rewrite (bind_ret _ _ _ _ _ (read_holder_live _ _ _ H)).
  by rewrite (clone_innermost _ _ Hc).
Qed.

Lemma Function_construct_from_Function_spec l h c w :
  holders w !! l = Some (live h) ->
  innermost h = Some c ->
  exists l', holders w !! l' = None /\
    Function.construct_from_Function (Function.mk (Function.pointer (Some l))) w =
      Ret (Function.mk (Function.pointer (Some l')))
          (set_holders (<[l' := live (holds_Function h)]> (holders w)) w).
Proof.
  intros H Hc. destruct (new_holder_spec (holds_Function h) w) as (l' & Hl & E).
  exists l'. split; [done|].
  unfold Function.construct_from_Function. cbn [Function.callable_].
  assert (E1 : (let* h0 := read_holder l in
                match CallableHolder_clone h0 with
                | inl u => undef u
                | inr h' => ret (holds_Function h')
                end) w = Ret (holds_Function h) w).
  { rewrite (bind_ret _ _ _ _ _ (read_holder_live _ _ _ H)).
    by rewrite (clone_innermost _ _ Hc). }
  rewrite (bind_ret _ _ _ _ _ E1). by rewrite (bind_ret _ _ _ _ _ E).
Qed.

Lemma Function_copy_assign_spec f l h c w :
  holders w !! l = Some (live h) ->
  innermost h = Some c ->
  exists l', holders w !! l' = None /\
    Function.copy_assign f (another (Function.mk (Function.pointer (Some l)))) w =
      Ret (Function.mk (Function.pointer (Some l')))
          (set_holders (<[l' := live h]> (holders w)) w).
Proof.
  intros H Hc. destruct (Function_clone_spec _ _ _ _ H Hc) as (l' & Hl & E).
  exists l'. split; [done|].
  unfold Function.copy_assign. cbn [Function.callable_].
  by rewrite (bind_ret _ _ _ _ _ E).
Qed.

Lemma Function_call_live l h args w :
  holders w !! l = Some (live h) ->
  Function.call (Function.mk (Function.pointer (Some l))) args w = invoke h args w.
Proof.
  intros H. unfold Function.call. cbn [Function.callable_].
  by rewrite (bind_ret _ _ _ _ _ (read_holder_live _ _ _ H)).
Qed.

Lemma Function_call_freed l args w :
  holders w !! l = Some freed ->
  Function.call (Function.mk (Function.pointer (Some l))) args w = Undef use_after_free.
Proof.
  intros H. unfold Function.call. cbn [Function.callable_].
  by rewrite (bind_undef _ _ _ _ (read_holder_freed _ _ H)).
Qed.

Lemma Function_call_wraps f c args w r e :
  Function.wraps w f c ->
  c args (env w) = Ret r e ->
  Function.call f args w = Ret r (set_env e w).
Proof.
  intros (l & h & -> & Hl & Hc) He.
  rewrite (Function_call_live _ _ _ _ Hl). by apply (invoke_ret h c).
Qed.

Lemma Function_destroy_wraps f c w :
  Function.wraps w f c ->
  exists l, f = Function.mk (Function.pointer (Some l)) /\
    Function.destroy f w = Ret tt (set_holders (<[l := freed]> (holders w)) w).
Proof.
  intros (l & h & -> & Hl & Hc). exists l. split; [done|].
  unfold Function.destroy. cbn [Function.callable_].
  by apply (delete_holder_live l h c).
Qed.
End FunctionFacts.

(** ** UniquePtr *)

Section UniquePtrFacts.
Context {Env : Type} (delete_T : Callable ptr unit Env).
Implicit Types (w : World ptr unit Env) (l : loc).

Lemma UniquePtr_default_spec w :
  exists u w',
    UniquePtr.default delete_T w = Ret u w' /\
    UniquePtr.ptr_ u = nullptr /\
    Function.wraps w' (UniquePtr.deleter_ u) delete_T /\
    env w' = env w /\ counters w' = counters w.
Proof.
  destruct (Function_construct_spec (UniquePtr.DefaultDeleter delete_T) w)
    as (l1 & Hl1 & E1).
  set (w1 := set_holders _ w) in E1.
  assert (H1 : holders w1 !! l1 = Some (live (holds_callable delete_T)))
    by apply lookup_insert_eq.
  destruct (Function_construct_from_Function_spec _ _ delete_T _ H1 eq_refl)
    as (l2 & Hl2 & E2).
  set (w2 := set_holders _ w1) in E2.
  assert (l1 <> l2). { intros <-. rewrite H1 in Hl2. discriminate. }
  assert (H2 : holders w2 !! l1 = Some (live (holds_callable delete_T))).
  { subst w2. wsimpl. by rewrite lookup_insert_ne. }
  eexists _, (set_holders (<[l1 := freed]> (holders w2)) w2).
  split_and!.
  - unfold UniquePtr.default, UniquePtr.with_default_deleter.
    eapply scoped_ret; [exact E1| |].
    + unfold UniquePtr.construct. rewrite (bind_ret _ _ _ _ _ E2). reflexivity.
    + apply (delete_holder_live _ _ delete_T _ H2 eq_refl).
  - done.
  - exists l2, (holds_Function (holds_callable delete_T)).
    split_and!; [done| |done].
    subst w2 w1. wsimpl. rewrite lookup_insert_ne by done. apply lookup_insert_eq.
  - done.
  - done.
Qed.

Lemma UniquePtr_reset_default_spec (this : UniquePtr.t) p d e' w :
  Function.wraps w (UniquePtr.deleter_ this) d ->
  d (UniquePtr.ptr_ this) (env w) = Ret tt e' ->
  exists u w',
    UniquePtr.with_default_deleter delete_T (UniquePtr.reset this p) w = Ret u w' /\
    UniquePtr.ptr_ u = p /\
    Function.wraps w' (UniquePtr.deleter_ u) delete_T /\
    env w' = e' /\ counters w' = counters w.
Proof.
  intros (l & h & Hd & Hl & Hh) He.
  destruct (Function_construct_spec (UniquePtr.DefaultDeleter delete_T) w)
    as (l1 & Hl1 & E1).
  set (w1 := set_holders _ w) in E1.
  assert (l <> l1). { intros ->. rewrite Hl1 in Hl. discriminate. }
  assert (Hc : Function.call (UniquePtr.deleter_ this) (UniquePtr.ptr_ this) w1
               = Ret tt (set_env e' w1)).
  { apply (Function_call_wraps _ d); [|done].
    exists l, h. split_and!; [done| |done].
    subst w1. wsimpl. by rewrite lookup_insert_ne. }
  set (w2 := set_env e' w1) in Hc.
  assert (H1 : holders w2 !! l1 = Some (live (holds_callable delete_T)))
    by apply lookup_insert_eq.
  destruct (Function_copy_assign_spec (UniquePtr.deleter_ this) _ _ delete_T _ H1 eq_refl)
    as (l2 & Hl2 & E2).
  set (w3 := set_holders _ w2) in E2.
  assert (l1 <> l2). { intros <-. rewrite H1 in Hl2. discriminate. }
  assert (H3 : holders w3 !! l1 = Some (live (holds_callable delete_T))).
  { subst w3. wsimpl. by rewrite lookup_insert_ne. }
  eexists _, (set_holders (<[l1 := freed]> (holders w3)) w3).
  split_and!.
  - unfold UniquePtr.with_default_deleter.
    eapply scoped_ret; [exact E1| |].
    + unfold UniquePtr.reset. rewrite (bind_ret _ _ _ _ _ Hc).
      rewrite (bind_ret _ _ _ _ _ E2). reflexivity.
    + apply (delete_holder_live _ _ delete_T _ H3 eq_refl).
  - done.
  - exists l2, (holds_callable delete_T). split_and!; [done| |done].
    subst w3 w2 w1. wsimpl. rewrite lookup_insert_ne by done. apply lookup_insert_eq.
  - done.
  - done.
Qed.
End UniquePtrFacts.

(** ** Any *)

Section AnyFacts.
Context {type : Type} `{EqDecision type}.
Variable value : type -> Type.
Variable value_initialized : forall T : type, value T.
Implicit Types (w : World ptr unit (heap (Any.Placeholder value))) (l h : loc)
  (T U : type) (a : Any.t).

Lemma dynamic_cast_same T (v : value T) :
  Any.dynamic_cast value T (Any.Holder value T v) = Some v.
Proof.
  unfold Any.dynamic_cast. simpl.
  destruct (decide (T = T)) as [e|]; [|done].
  by rewrite (proof_irrel e eq_refl).
Qed.

Lemma dynamic_cast_other T U (v : value T) :
  U <> T -> Any.dynamic_cast value U (Any.Holder value T v) = None.
Proof.
  intros Hne. unfold Any.dynamic_cast. simpl.
  destruct (decide (T = U)) as [e|]; [|done]. by destruct Hne.
Qed.

Lemma new_Holder_spec T (v : value T) w :
  exists h, env w !! h = None /\
    Any.new_Holder value T v w =
      Ret h (set_env (<[h := live (Any.Holder value T v)]> (env w)) w).
Proof.
  unfold Any.new_Holder.
  destruct (alloc (Any.Holder value T v) (env w)) as [h e] eqn:E.
  apply alloc_inv in E as [? ->]. eauto.
Qed.

Lemma read_Placeholder_live h p w :
  env w !! h = Some (live p) -> Any.read_Placeholder value h w = Ret p w.
Proof. intros E. unfold Any.read_Placeholder. by rewrite (load_live _ _ _ E). Qed.

(** From a default-constructed [content_] to one that owns the holder at
    [h]: the common tail of the converting and of the copy constructor. *)
Lemma Any_install u h w :
  UniquePtr.ptr_ u = nullptr ->
  Function.wraps w (UniquePtr.deleter_ u) (Any.delete_Placeholder value) ->
  exists a w',
    (let* c' := UniquePtr.with_default_deleter (Any.delete_Placeholder value)
                  (UniquePtr.reset u (Some h)) in
     ret (Any.mk c')) w = Ret a w' /\
    UniquePtr.ptr_ (Any.content_ a) = Some h /\
    env w' = env w /\ counters w' = counters w.
Proof.
  intros Hp Hw.
  destruct (UniquePtr_reset_default_spec (Any.delete_Placeholder value)
              u (Some h) _ (env w) w Hw) as (u' & w' & E & Hp' & _ & He & Hc).
  { by rewrite Hp. }
  exists (Any.mk u'), w'. split_and!; try done.
  by rewrite (bind_ret _ _ _ _ _ E).
Qed.

Lemma Any_construct_spec T (v : value T) w :
  exists a h w',
    Any.construct value T v w = Ret a w' /\
    UniquePtr.ptr_ (Any.content_ a) = Some h /\
    env w !! h = None /\
    env w' = <[h := live (Any.Holder value T v)]> (env w) /\
    counters w' = counters w.
Proof.
  destruct (UniquePtr_default_spec (Any.delete_Placeholder value) w)
    as (u & w1 & E1 & Hp1 & Hw1 & He1 & Hc1).
  destruct (new_Holder_spec T v w1) as (h & Hh & E2).
  set (w2 := set_env _ w1) in E2.
  destruct (Any_install u h w2 Hp1 Hw1) as (a & w3 & E3 & Hp3 & He3 & Hc3).
  exists a, h, w3. split_and!.
  - unfold Any.construct. rewrite (bind_ret _ _ _ _ _ E1).
    by rewrite (bind_ret _ _ _ _ _ E2).
  - done.
  - congruence.
  - rewrite He3. subst w2. wsimpl. by rewrite He1.
  - rewrite Hc3. subst w2. by wsimpl.
Qed.

Lemma Any_copy_spec a h p w :
  UniquePtr.ptr_ (Any.content_ a) = Some h ->
  env w !! h = Some (live p) ->
  exists b h' w',
    Any.copy value value_initialized a w = Ret b w' /\
    UniquePtr.ptr_ (Any.content_ b) = Some h' /\
    env w !! h' = None /\
    env w' =
      <[h' := live (Any.Holder value (Any.T_ value p)
                      (value_initialized (Any.T_ value p)))]> (env w) /\
    counters w' = counters w.
Proof.
  intros Ha Hp.
  destruct (UniquePtr_default_spec (Any.delete_Placeholder value) w)
    as (u & w1 & E1 & Hp1 & Hw1 & He1 & Hc1).
  assert (Hp' : env w1 !! h = Some (live p)) by congruence.
  destruct (new_Holder_spec (Any.T_ value p) (value_initialized (Any.T_ value p)) w1)
    as (h' & Hh & E2).
  set (w2 := set_env _ w1) in E2.
  destruct (Any_install u h' w2 Hp1 Hw1) as (b & w3 & E3 & Hp3 & He3 & Hc3).
  exists b, h', w3. split_and!.
  - unfold Any.copy. rewrite (bind_ret _ _ _ _ _ E1).
    unfold UniquePtr.get. rewrite Ha.
    assert (Ec : Any.clone value value_initialized h w1 = Ret h' w2).
    { unfold Any.clone.
      by rewrite (bind_ret _ _ _ _ _ (read_Placeholder_live _ _ _ Hp')). }
    by rewrite (bind_ret _ _ _ _ _ Ec).
  - done.
  - congruence.
  - rewrite He3. subst w2. wsimpl. by rewrite He1.
  - rewrite Hc3. subst w2. by wsimpl.
Qed.

Lemma Any_cast_held a h T (v : value T) w :
  UniquePtr.ptr_ (Any.content_ a) = Some h ->
  env w !! h = Some (live (Any.Holder value T v)) ->
  Any.cast value T a w = Ret v w.
Proof.
  intros Ha Hh. unfold Any.cast, UniquePtr.get. rewrite Ha.
  rewrite (bind_ret _ _ _ _ _ (read_Placeholder_live _ _ _ Hh)).
  by rewrite dynamic_cast_same.
Qed.

Lemma Any_cast_mismatch a h T U (v : value T) w :
  U <> T ->
  UniquePtr.ptr_ (Any.content_ a) = Some h ->
  env w !! h = Some (live (Any.Holder value T v)) ->
  Any.cast value U a w = Throw (cstring "wtfff") w.
Proof.
  intros Hne Ha Hh. unfold Any.cast, UniquePtr.get. rewrite Ha.
  rewrite (bind_ret _ _ _ _ _ (read_Placeholder_live _ _ _ Hh)).
  by rewrite dynamic_cast_other.
Qed.

Lemma Any_cast_empty a U w :
  UniquePtr.ptr_ (Any.content_ a) = nullptr ->
  Any.cast value U a w = Throw (cstring "wtfff") w.
Proof. intros E. unfold Any.cast, UniquePtr.get. by rewrite E. Qed.

Lemma Any_has_value_null a :
  UniquePtr.ptr_ (Any.content_ a) = nullptr -> Any.has_value a = false.
Proof.
  intros E. unfold Any.has_value. rewrite E.
  apply bool_decide_eq_false. intros Hn. by apply Hn.
Qed.

Lemma Any_has_value_held a h :
  UniquePtr.ptr_ (Any.content_ a) = Some h -> Any.has_value a = true.
Proof. intros E. unfold Any.has_value. rewrite E. by apply bool_decide_eq_true. Qed.

(** What the copy constructor does to the value, for every type: the copy
    holds [T{}], the original keeps its value. *)
Lemma Any_copy_value_initializes T (v : value T) w :
  exists a w1 b w2,
    Any.construct value T v w = Ret a w1 /\
    Any.copy value value_initialized a w1 = Ret b w2 /\
    Any.cast value T b w2 = Ret (value_initialized T) w2 /\
    Any.cast value T a w2 = Ret v w2.
Proof.
  destruct (Any_construct_spec T v w) as (a & h & w1 & E & Ha & _ & He & _).
  assert (Hh : env w1 !! h = Some (live (Any.Holder value T v))).
  { rewrite He. apply lookup_insert_eq. }
  destruct (Any_copy_spec a h _ w1 Ha Hh) as (b & h' & w2 & E' & Hb & Hf & He' & _).
  exists a, w1, b, w2. split_and!; try done.
  - apply (Any_cast_held b h'); [done|]. rewrite He'. apply lookup_insert_eq.
  - apply (Any_cast_held a h); [done|]. rewrite He'.
    rewrite lookup_insert_ne; [done|]. intros <-. rewrite Hh in Hf. discriminate.
Qed.
End AnyFacts.

(** ** SharedPtr *)

Section SharedPtrFacts.
Context {Env : Type}.
Implicit Types (w : World ptr unit Env) (l c : loc) (this o : SharedPtr.t)
  (d : Callable ptr unit Env) (owners : list SharedPtr.t).

Lemma Function_call_holders (f : Function.t) (args : ptr) w r w' :
  Function.call f args w = Ret r w' ->
  holders w' = holders w /\ counters w' = counters w.
Proof.
  unfold Function.call, throw, undef, bind, read_holder, invoke.
  destruct (Function.callable_ f) as [|[l|]]; try discriminate.
  destruct (load l (holders w)) as [|h]; try discriminate.
  destruct (CallableHolder_invoke h args (env w)); try discriminate.
  by intros [= _ <-].
Qed.

Lemma SharedPtr_release_holders this w w1 :
  SharedPtr.release this w = Ret tt w1 -> holders w1 = holders w.
Proof.
  unfold SharedPtr.release.
  destruct (SharedPtr.ref_count_ this) as [c|]; [|by intros [= <-]].
  unfold bind at 1. unfold fetch_sub.
  destruct (load c (counters w)) as [|n]; try discriminate.
  destruct (store c _ (counters w)) as [|hs]; try discriminate.
  destruct (n =? 1); [|by intros [= <-]].
  unfold bind.
  destruct (Function.call _ _ _) as [[] w2| | |] eqn:E; try discriminate.
  apply Function_call_holders in E as [E _]. wsimpl.
  unfold delete_counter. destruct (dealloc c (counters w2)); try discriminate.
  intros [= <-]. by wsimpl.
Qed.

Lemma SharedPtr_release_shared this c n w :
  SharedPtr.ref_count_ this = Some c ->
  counters w !! c = Some (live n) ->
  n <> 1 ->
  SharedPtr.release this w =
    Ret tt (set_counters (<[c := live (wrap_int (n - 1))]> (counters w)) w).
Proof.
  intros Hc Hn Hne. unfold SharedPtr.release. rewrite Hc.
  rewrite (bind_ret _ _ _ _ _ (fetch_sub_live _ _ _ _ Hn)).
  destruct (Z.eqb_spec n 1); [done|]. reflexivity.
Qed.

Lemma SharedPtr_release_last this c d e' w :
  SharedPtr.ref_count_ this = Some c ->
  counters w !! c = Some (live 1) ->
  Function.wraps w (SharedPtr.deleter_ this) d ->
  d (SharedPtr.ptr_ this) (env w) = Ret tt e' ->
  SharedPtr.release this w =
    Ret tt (mkWorld e' (holders w) (<[c := freed]> (counters w))).
Proof.
  intros Hc Hn Hd He. unfold SharedPtr.release. rewrite Hc.
  rewrite (bind_ret _ _ _ _ _ (fetch_sub_live _ _ _ _ Hn)).
  cbn [Z.eqb Pos.eqb].
  set (w1 := set_counters _ w).
  assert (E : Function.call (SharedPtr.deleter_ this) (SharedPtr.ptr_ this) w1
              = Ret tt (set_env e' w1)) by (by apply (Function_call_wraps _ d)).
  rewrite (bind_ret _ _ _ _ _ E).
  erewrite delete_counter_live by (subst w1; wsimpl; apply lookup_insert_eq).
  subst w1. unfold set_counters, set_env. wsimpl.
  by rewrite insert_insert_eq.
Qed.

Lemma SharedPtr_share_spec f this c n d w :
  SharedPtr.ref_count_ this = Some c ->
  counters w !! c = Some (live n) ->
  Function.wraps w (SharedPtr.deleter_ this) d ->
  exists l' h,
    holders w !! l' = None /\ innermost h = Some d /\
    SharedPtr.share f this w =
      Ret (SharedPtr.mk (SharedPtr.ptr_ this) (Some c)
             (Function.mk (Function.pointer (Some l'))))
          (mkWorld (env w) (<[l' := live h]> (holders w))
                   (<[c := live (wrap_int (n + 1))]> (counters w))).
Proof.
  intros Hc Hn (l & h & Hd & Hl & Hh).
  destruct (Function_copy_assign_spec f _ _ _ _ Hl Hh) as (l' & Hl' & E).
  exists l', h. split_and!; [done..|].
  unfold SharedPtr.share. rewrite Hd, (bind_ret _ _ _ _ _ E), Hc.
  set (w1 := set_holders _ w).
  assert (Hn1 : counters w1 !! c = Some (live n)) by done.
  assert (E1 : (fetch_add c 1 >> ret tt) w1 =
               Ret tt (set_counters (<[c := live (wrap_int (n + 1))]> (counters w1)) w1)).
  { by rewrite (bind_ret _ _ _ _ _ (fetch_add_live _ _ 1 _ Hn1)). }
  by rewrite (bind_ret _ _ _ _ _ E1).
Qed.

Lemma SharedPtr_destroy_shared this c n d w :
  SharedPtr.ref_count_ this = Some c ->
  counters w !! c = Some (live n) ->
  n <> 1 ->
  Function.wraps w (SharedPtr.deleter_ this) d ->
  exists l, SharedPtr.deleter_ this = Function.mk (Function.pointer (Some l)) /\
    SharedPtr.destroy this w =
      Ret tt (mkWorld (env w) (<[l := freed]> (holders w))
                      (<[c := live (wrap_int (n - 1))]> (counters w))).
Proof.
  intros Hc Hn Hne Hd.
  set (w1 := set_counters (<[c := live (wrap_int (n - 1))]> (counters w)) w).
  destruct (Function_destroy_wraps (SharedPtr.deleter_ this) d w1 Hd) as (l & Hf & E).
  exists l. split; [done|].
  unfold SharedPtr.destroy. apply noexcept_ret.
  by rewrite (bind_ret _ _ _ _ _ (SharedPtr_release_shared _ _ _ _ Hc Hn Hne)).
Qed.

Lemma SharedPtr_destroy_last this c d e' w :
  SharedPtr.ref_count_ this = Some c ->
  counters w !! c = Some (live 1) ->
  Function.wraps w (SharedPtr.deleter_ this) d ->
  d (SharedPtr.ptr_ this) (env w) = Ret tt e' ->
  exists l, SharedPtr.deleter_ this = Function.mk (Function.pointer (Some l)) /\
    SharedPtr.destroy this w =
      Ret tt (mkWorld e' (<[l := freed]> (holders w)) (<[c := freed]> (counters w))).
Proof.
  intros Hc Hn Hd He.
  set (w1 := mkWorld e' (holders w) (<[c := freed]> (counters w))).
  destruct (Function_destroy_wraps (SharedPtr.deleter_ this) d w1 Hd) as (l & Hf & E).
  exists l. split; [done|].
  unfold SharedPtr.destroy. apply noexcept_ret.
  by rewrite (bind_ret _ _ _ _ _ (SharedPtr_release_last _ _ _ _ _ Hc Hn Hd He)).
Qed.

Lemma owns_frame c p d w w' o :
  (forall l, SharedPtr.deleter_ o = Function.mk (Function.pointer (Some l)) ->
             holders w' !! l = holders w !! l) ->
  SharedPtr.owns c p d w o -> SharedPtr.owns c p d w' o.
Proof.
  intros Hf (Hc & Hp & l & h & Hd & Hl & Hh). split_and!; [done..|].
  exists l, h. split_and!; [done| |done]. by rewrite (Hf l Hd).
Qed.

(** Destroying owners while others remain: the count drops by one per
    owner, the destroyer is never called, the counter block stays. *)
Lemma destroy_all_shared owners : forall c p d w m,
  Forall (SharedPtr.owns c p d w) owners ->
  NoDup (SharedPtr.deleter_ <$> owners) ->
  counters w !! c = Some (live m) ->
  Z.of_nat (length owners) < m <= INT_MAX ->
  exists w',
    SharedPtr.destroy_all owners w = Ret tt w' /\
    env w' = env w /\
    counters w' !! c = Some (live (m - Z.of_nat (length owners))) /\
    (forall f l, f ∉ SharedPtr.deleter_ <$> owners ->
       f = Function.mk (Function.pointer (Some l)) ->
       holders w' !! l = holders w !! l).
Proof.
  induction owners as [|o rest IH]; intros c p d w m Hall Hnd Hm Hlen.
  - exists w. cbn [length SharedPtr.destroy_all]. split_and!; try done.
    rewrite Hm. do 2 f_equal. lia.
  - apply Forall_cons in Hall as [(Hc & Hp & Hd) Hrest].
    cbn [fmap list_fmap] in Hnd. apply NoDup_cons in Hnd as [Hnotin Hnd].
    cbn [length] in Hlen.
    destruct (SharedPtr_destroy_shared o c m d w Hc Hm ltac:(lia) Hd)
      as (l & Hf & E).
    rewrite wrap_int_id in E by (unfold INT_MAX in *; lia).
    set (w1 := mkWorld _ _ _) in E.
    assert (Hframe : forall f l0,
              f ∉ SharedPtr.deleter_ o :: (SharedPtr.deleter_ <$> rest) ->
              f = Function.mk (Function.pointer (Some l0)) ->
              holders w1 !! l0 = holders w !! l0).
    { intros f l0 Hnin ->. subst w1. wsimpl. apply lookup_insert_ne.
      intros ->. apply Hnin. rewrite Hf. left. }
    destruct (IH c p d w1 (m - 1)) as (w' & E' & He & Hcnt & Hh).
    + apply Forall_forall. intros o' Hin.
      apply (owns_frame c p d w); [|by eapply Forall_forall in Hrest].
      intros l0 Hl0. subst w1. wsimpl. apply lookup_insert_ne.
      intros ->. apply Hnotin. rewrite Hf, <- Hl0.
      by apply list_elem_of_fmap_2.
    + done.
    + subst w1. wsimpl. apply lookup_insert_eq.
    + lia.
    + exists w'. split_and!.
      * cbn [SharedPtr.destroy_all]. by rewrite (bind_ret _ _ _ _ _ E).
      * by rewrite He.
      * rewrite Hcnt. do 2 f_equal. cbn [length]. lia.
      * intros f l0 Hnin Hfl. rewrite fmap_cons in Hnin.
        rewrite (Hh f l0); [|by apply not_elem_of_cons in Hnin as [_ ?]|done].
        by apply (Hframe f l0).
Qed.
End SharedPtrFacts.

(** * The reference-counting protocol *)

(** C1.  [this] is an owner whose counter block [c] is allocated and holds
    [n], a count in the range of [int], and whose [deleter_] wraps the
    destroyer [d], so that [use_count] reads [n].  Then:
    - copy construction yields an owner of the same pointee and counter and
      leaves [n + 1] in the counter; nothing else changes but the copy's
      own holder;
    - copy assignment releases what the target held and then raises the
      count of the adopted counter by exactly one;
    - a release, and likewise a destruction, that finds a count above 1
      leaves [n - 1], does not call the destroyer and keeps the counter;
    - the release that finds 1 calls the destroyer on the pointee, once,
      and deallocates the counter;
    - when the [n] owners are destroyed one after the other, the pointee's
      memory is untouched until the last one goes, which runs the destroyer
      exactly once and deallocates the counter. *)
Theorem SharedPtr_strong_count_protocol {Env : Type}
    (w : World ptr unit Env) (this : SharedPtr.t) (c : loc) (n : Z)
    (d : Callable ptr unit Env) :
  SharedPtr.ref_count_ this = Some c ->
  counters w !! c = Some (live n) ->
  1 <= n <= INT_MAX ->
  Function.wraps w (SharedPtr.deleter_ this) d ->
  SharedPtr.use_count this w = Ret n w /\
  (n < INT_MAX ->
   exists l' h, holders w !! l' = None /\ innermost h = Some d /\
     SharedPtr.copy this w =
       Ret (SharedPtr.mk (SharedPtr.ptr_ this) (Some c)
              (Function.mk (Function.pointer (Some l'))))
           (mkWorld (env w) (<[l' := live h]> (holders w))
                    (<[c := live (n + 1)]> (counters w)))) /\
  (forall target w1 n1,
     SharedPtr.release target w = Ret tt w1 ->
     counters w1 !! c = Some (live n1) ->
     0 <= n1 < INT_MAX ->
     exists l' h, holders w1 !! l' = None /\ innermost h = Some d /\
       SharedPtr.copy_assign target (another this) w =
         Ret (SharedPtr.mk (SharedPtr.ptr_ this) (Some c)
                (Function.mk (Function.pointer (Some l'))))
             (mkWorld (env w1) (<[l' := live h]> (holders w1))
                      (<[c := live (n1 + 1)]> (counters w1)))) /\
  (1 < n ->
   SharedPtr.release this w =
     Ret tt (mkWorld (env w) (holders w) (<[c := live (n - 1)]> (counters w))) /\
   exists l, SharedPtr.deleter_ this = Function.mk (Function.pointer (Some l)) /\
     SharedPtr.destroy this w =
       Ret tt (mkWorld (env w) (<[l := freed]> (holders w))
                       (<[c := live (n - 1)]> (counters w)))) /\
  (n = 1 -> forall e',
   d (SharedPtr.ptr_ this) (env w) = Ret tt e' ->
   SharedPtr.release this w =
     Ret tt (mkWorld e' (holders w) (<[c := freed]> (counters w)))) /\
  (forall others e',
     Forall (SharedPtr.owns c (SharedPtr.ptr_ this) d w) others ->
     NoDup (SharedPtr.deleter_ <$> others ++ [this]) ->
     n = Z.of_nat (length (others ++ [this])) ->
     d (SharedPtr.ptr_ this) (env w) = Ret tt e' ->
     exists w1 w',
       SharedPtr.destroy_all others w = Ret tt w1 /\ env w1 = env w /\
       counters w1 !! c = Some (live 1) /\
       SharedPtr.destroy this w1 = Ret tt w' /\ env w' = e' /\
       counters w' !! c = Some freed).
Proof.
  intros Hc Hn Hrange Hd. split_and!.
  - unfold SharedPtr.use_count. rewrite Hc. by apply atomic_load_live.
  - intros Hlt.
    destruct (SharedPtr_share_spec (Function.default Function.default_init)
                this c n d w Hc Hn Hd) as (l' & h & Hl' & Hh & E).
    exists l', h. split_and!; [done..|]. unfold SharedPtr.copy. rewrite E.
    by rewrite wrap_int_id by (unfold INT_MAX in *; lia).
  - intros target w1 n1 Hr Hn1 Hrange1.
    assert (Hd1 : Function.wraps w1 (SharedPtr.deleter_ this) d).
    { destruct Hd as (l & h & ? & ? & ?). exists l, h.
      by rewrite (SharedPtr_release_holders _ _ _ Hr). }
    destruct (SharedPtr_share_spec (SharedPtr.deleter_ target) this c n1 d w1
                Hc Hn1 Hd1) as (l' & h & Hl' & Hh & E).
    exists l', h. split_and!; [done..|]. unfold SharedPtr.copy_assign.
    rewrite (bind_ret _ _ _ _ _ Hr), E.
    by rewrite wrap_int_id by (unfold INT_MAX in *; lia).
  - intros Hlt. split.
    + rewrite (SharedPtr_release_shared this c n w Hc Hn) by lia.
      by rewrite wrap_int_id by (unfold INT_MAX in *; lia).
    + destruct (SharedPtr_destroy_shared this c n d w Hc Hn ltac:(lia) Hd)
        as (l & Hf & E).
      exists l. split; [done|].
      by rewrite wrap_int_id in E by (unfold INT_MAX in *; lia).
  - intros -> e' He. by apply (SharedPtr_release_last this c d).
  - intros others e' Hothers Hnd Hlen He.
    rewrite fmap_app in Hnd. apply NoDup_app in Hnd as (Hnd & Hdisj & _).
    rewrite length_app in Hlen. cbn [length] in Hlen.
    destruct (destroy_all_shared others c (SharedPtr.ptr_ this) d w n Hothers Hnd Hn)
      as (w1 & E1 & He1 & Hc1 & Hh1); [lia|].
    replace (n - Z.of_nat (length others)) with 1 in Hc1 by lia.
    assert (Hd1 : Function.wraps w1 (SharedPtr.deleter_ this) d).
    { destruct Hd as (l & h & Hf & Hl & Hh). exists l, h. split_and!; [done| |done].
      rewrite (Hh1 (SharedPtr.deleter_ this) l); [done| |done].
      intros Hin. apply (Hdisj _ Hin). cbn. left. }
    destruct (SharedPtr_destroy_last this c d e' w1 Hc Hc1 Hd1) as (l & Hf & E2).
    { by rewrite He1. }
    eexists w1, _. split_and!; [done..|exact E2| |]; wsimpl; [done|].
    apply lookup_insert_eq.
Qed.

Lemma SharedPtr_strong_count_protocol_witness :
  SharedPtr.ref_count_ Demo.b = Some 1%positive /\
  counters Demo.shared_by_two !! 1%positive = Some (live 2) /\
  1 <= 2 <= INT_MAX /\
  Function.wraps Demo.shared_by_two (SharedPtr.deleter_ Demo.b) Demo.logging /\
  (exists copy w', SharedPtr.copy Demo.b Demo.shared_by_two = Ret copy w' /\
     counters w' = <[1%positive := live 3]> (counters Demo.shared_by_two)) /\
  (exists w1 w',
     SharedPtr.destroy_all [Demo.a] Demo.shared_by_two = Ret tt w1 /\
     env w1 = env Demo.shared_by_two /\
     counters w1 !! 1%positive = Some (live 1) /\
     SharedPtr.destroy Demo.b w1 = Ret tt w' /\
     Demo.log (env w') = [Some 1%positive] /\
     counters w' !! 1%positive = Some freed).
Proof.
  assert (H1 : SharedPtr.ref_count_ Demo.b = Some 1%positive) by reflexivity.
  assert (H2 : counters Demo.shared_by_two !! 1%positive = Some (live 2))
    by reflexivity.
  assert (H3 : 1 <= 2 <= INT_MAX) by (unfold INT_MAX; lia).
  assert (H4 : Function.wraps Demo.shared_by_two (SharedPtr.deleter_ Demo.b)
                 Demo.logging).
  { exists 3%positive, (holds_Function (holds_callable Demo.logging)).
    split_and!; reflexivity. }
  destruct (SharedPtr_strong_count_protocol Demo.shared_by_two Demo.b 1%positive 2
              Demo.logging H1 H2 H3 H4) as (_ & Hcopy & _ & _ & _ & Hlife).
  refine (conj H1 (conj H2 (conj H3 (conj H4 (conj _ _))))).
  - destruct Hcopy as (l' & h & _ & _ & E); [unfold INT_MAX; lia|].
    eexists _, _. split; [exact E|reflexivity].
  - destruct (Hlife [Demo.a]
                (Demo.mkEnv (Demo.objects (env Demo.shared_by_two)) [Some 1%positive]))
      as (w1 & w' & E1 & He1 & Hc1 & E2 & He2 & Hc2).
    + constructor; [|constructor]. split_and!; [reflexivity..|].
      exists 2%positive, (holds_Function (holds_callable Demo.logging)).
      split_and!; reflexivity.
    + cbn. apply NoDup_cons. split; [|apply NoDup_singleton].
      intros Hin. apply list_elem_of_singleton in Hin. discriminate.
    + reflexivity.
    + reflexivity.
    + exists w1, w'. split_and!; try done. by rewrite He2.
Defined.

(** ** Function: moves *)

Lemma Function_move_aliases (f : Function.t) : Function.move f = (f, f).
Proof. by destruct f. Qed.

Lemma Function_move_assign_aliases (this other : Function.t) :
  Function.move_assign this other = (other, other).
Proof. by destruct other. Qed.

(** C6 (the code departs from the claim).  [f] wraps [!b]; after
    [Function g(std::move(f))], and likewise after [g = std::move(f)], the
    moved-to [g] calls the captured callable, but calling the moved-from [f]
    does not fail as an empty instance: it returns [!true] as well, because
    the defaulted move operations copy [callable_] and leave the source
    pointing at the same holder.  Both objects then delete that holder when
    they are destroyed. *)
Theorem Function_moved_from_still_callable :
  returned ((let* f := Function.construct Demo.negation in
             let (g, f') := Function.move f in
             Function.call g true) Demo.no_functions) = Some false /\
  returned ((let* f := Function.construct Demo.negation in
             let (g, f') := Function.move f in
             Function.call f' true) Demo.no_functions) = Some false /\
  returned ((let* f := Function.construct Demo.negation in
             let (g, f') := Function.move_assign (Function.default Function.value_init) f in
             Function.call f' true) Demo.no_functions) = Some false /\
  (let* f := Function.construct Demo.negation in
   let (g, f') := Function.move f in
   Function.destroy g >> Function.destroy f') Demo.no_functions = Undef double_free.
Proof. split_and!; by vm_compute. Qed.

(** ** Function: calls *)

Section FunctionCall.
Context {Args Rt Env : Type}.
Implicit Types (w : World Args Rt Env) (c : Callable Args Rt Env) (f g : Function.t).


End FunctionCall.






(** ** The concrete memories of [Demo] are the ones the constructors build *)

Example Demo_shared_by_two_reached :
  (let* a := Demo.SharedPtr_with (Some 1%positive) Demo.logging in
   let* b := SharedPtr.copy a in
   ret (a, b)) Demo.start
  = Ret (Demo.a, Demo.b) Demo.shared_by_two.
Proof. by vm_compute. Qed.

(** The scenario of a destroyer that writes to a log: one owner, three
    copies, all four destroyed; the log has exactly one entry. *)
Example four_owners_one_log_entry :
  returned
    ((let* a := Demo.SharedPtr_with (Some 1%positive) Demo.logging in
      let* b := SharedPtr.copy a in
      let* c := SharedPtr.copy a in
      let* d := SharedPtr.copy b in
      SharedPtr.destroy_all [c; a; d; b] >>
      fun w => Ret (Demo.log (env w)) w) Demo.start)
  = Some [Some 1%positive].
Proof. by vm_compute. Qed.

Example Demo_two_values_reached :
  (let* x := Any.construct Demo.cpp_value Demo.t_int 1 in
   let* y := Any.construct Demo.cpp_value Demo.t_bool true in
   ret (x, y)) Demo.no_values
  = Ret (Demo.x, Demo.y) Demo.two_values.
Proof. by vm_compute. Qed.

Example Demo_one_function_reached :
  Function.construct Demo.negation Demo.no_functions = Ret Demo.g Demo.one_function.
Proof. by vm_compute. Qed.

(** ** SharedPtr: reset *)

Example Demo_owned_by_b_reached :
  SharedPtr.destroy Demo.a Demo.shared_by_two = Ret tt Demo.owned_by_b.
Proof. by vm_compute. Qed.

(** [reset] relative to what [release] leaves. *)
Lemma SharedPtr_reset_after_release {Env : Type}
    (this : SharedPtr.t) (deleter : Function.t) (w w1 : World ptr unit Env) :
  SharedPtr.release this w = Ret tt w1 ->
  SharedPtr.reset this nullptr deleter w =
    Ret (SharedPtr.mk nullptr nullptr (SharedPtr.deleter_ this)) w1 /\
  holders w1 = holders w /\
  (forall a c, Function.wraps w deleter c ->
     exists cn l' h,
       counters w1 !! cn = None /\ holders w1 !! l' = None /\
       innermost h = Some c /\
       SharedPtr.reset this (Some a) deleter w =
         Ret (SharedPtr.mk (Some a) (Some cn)
                (Function.mk (Function.pointer (Some l'))))
             (mkWorld (env w1) (<[l' := live h]> (holders w1))
                      (<[cn := live 1]> (counters w1)))).
Proof.
  intros Hr. pose proof (SharedPtr_release_holders _ _ _ Hr) as Hh.
  split_and!.
  - unfold SharedPtr.reset. by rewrite (bind_ret _ _ _ _ _ Hr).
  - done.
  - intros a c (l & h & -> & Hl & Hc).
    destruct (new_counter_spec 1 w1) as (cn & Hcn & E1).
    set (w2 := set_counters _ w1) in E1.
    assert (Hl2 : holders w2 !! l = Some (live h)) by (subst w2; wsimpl; congruence).
    destruct (Function_copy_assign_spec (SharedPtr.deleter_ this) _ _ _ _ Hl2 Hc)
      as (l' & Hl' & E2).
    exists cn, l', h. split_and!; [done..|].
    unfold SharedPtr.reset. rewrite (bind_ret _ _ _ _ _ Hr).
    rewrite (bind_ret _ _ _ _ _ E1), (bind_ret _ _ _ _ _ E2). reflexivity.
Qed.

(** C10.  [this] is an owner whose counter block [c] is allocated and
    holds [n], a count in the range of [int], and whose [deleter_] wraps the
    destroyer [d] (which returns, leaving the pointees as [e'], when [this]
    is the last owner and it is called).  Then [reset] with a null pointer
    - releases the referent: at a count above 1 it leaves [n - 1] in the
      counter and calls nothing; at the count 1 it calls the stored
      destroyer on the stored pointer, once, and deletes the counter;
    - leaves the object with null [ptr_] and null [ref_count_];
    - leaves the member [deleter_] and every holder as they were: the
      stored destroyer still wraps [d], and the [deleter] argument is
      neither installed nor touched, the result being the same for every
      argument.
    With a non-null pointer, [reset] releases in the same way and then
    installs a clone of the [deleter] argument next to a fresh counter that
    holds 1.  On an object without a counter there is nothing to release
    and the memory is unchanged. *)
Theorem SharedPtr_reset_null_keeps_deleter {Env : Type}
    (this : SharedPtr.t) (deleter : Function.t) (c : loc) (n : Z)
    (d : Callable ptr unit Env) (e' : Env) (w : World ptr unit Env) :
  SharedPtr.ref_count_ this = Some c ->
  counters w !! c = Some (live n) ->
  1 <= n <= INT_MAX ->
  Function.wraps w (SharedPtr.deleter_ this) d ->
  (n = 1 -> d (SharedPtr.ptr_ this) (env w) = Ret tt e') ->
  exists w1,
    w1 = (if n =? 1
          then mkWorld e' (holders w) (<[c := freed]> (counters w))
          else mkWorld (env w) (holders w) (<[c := live (n - 1)]> (counters w))) /\
    SharedPtr.release this w = Ret tt w1 /\
    SharedPtr.reset this nullptr deleter w =
      Ret (SharedPtr.mk nullptr nullptr (SharedPtr.deleter_ this)) w1 /\
    Function.wraps w1 (SharedPtr.deleter_ this) d /\
    (forall c', Function.wraps w deleter c' -> Function.wraps w1 deleter c') /\
    (forall deleter', SharedPtr.reset this nullptr deleter' w =
                      SharedPtr.reset this nullptr deleter w) /\
    (forall a c', Function.wraps w deleter c' ->
       exists cn l' h,
         counters w1 !! cn = None /\ holders w1 !! l' = None /\
         innermost h = Some c' /\
         SharedPtr.reset this (Some a) deleter w =
           Ret (SharedPtr.mk (Some a) (Some cn)
                  (Function.mk (Function.pointer (Some l'))))
               (mkWorld (env w1) (<[l' := live h]> (holders w1))
                        (<[cn := live 1]> (counters w1)))) /\
    (forall empty, SharedPtr.ref_count_ empty = nullptr ->
       SharedPtr.reset empty nullptr deleter w =
         Ret (SharedPtr.mk nullptr nullptr (SharedPtr.deleter_ empty)) w).
Proof.
  intros Hc Hn Hrange W Hd.
  assert (Hr : exists w1,
            w1 = (if n =? 1
                  then mkWorld e' (holders w) (<[c := freed]> (counters w))
                  else mkWorld (env w) (holders w)
                         (<[c := live (n - 1)]> (counters w))) /\
            SharedPtr.release this w = Ret tt w1 /\ holders w1 = holders w).
  { destruct (Z.eqb_spec n 1) as [->|Hne].
    - eexists. split; [reflexivity|]. split; [|done].
      exact (SharedPtr_release_last this c d e' w Hc Hn W (Hd eq_refl)).
    - eexists. split; [reflexivity|]. split; [|done].
      rewrite (SharedPtr_release_shared this c n w Hc Hn Hne).
      rewrite wrap_int_id; [done|]. unfold INT_MAX in *. lia. }
  destruct Hr as (w1 & Hw1 & Hr & Hh).
  destruct (SharedPtr_reset_after_release this deleter w w1 Hr) as (E & _ & Hp).
  exists w1. split_and!; try done.
  - destruct W as (l & h & Hf & Hl & Hi). exists l, h. by rewrite Hh.
  - intros c' (l & h & Hf & Hl & Hi). exists l, h. by rewrite Hh.
  - intros empty He. unfold SharedPtr.reset, SharedPtr.release. by rewrite He.
Qed.

Lemma SharedPtr_reset_null_keeps_deleter_witness :
  (SharedPtr.ref_count_ Demo.b = Some 1%positive /\
   counters Demo.owned_by_b !! 1%positive = Some (live 1) /\
   1 <= 1 <= INT_MAX /\
   Function.wraps Demo.owned_by_b (SharedPtr.deleter_ Demo.b) Demo.logging /\
   Demo.logging (SharedPtr.ptr_ Demo.b) (env Demo.owned_by_b)
     = Ret tt (Demo.mkEnv {[ 1%positive := live 5 ]} [Some 1%positive])) /\
  SharedPtr.reset Demo.b nullptr (SharedPtr.deleter_ Demo.b) Demo.owned_by_b
    = Ret (SharedPtr.mk nullptr nullptr (SharedPtr.deleter_ Demo.b))
          (mkWorld (Demo.mkEnv {[ 1%positive := live 5 ]} [Some 1%positive])
             (holders Demo.owned_by_b)
             (<[ 1%positive := freed ]> (counters Demo.owned_by_b))) /\
  SharedPtr.reset Demo.a nullptr (SharedPtr.deleter_ Demo.b) Demo.shared_by_two
    = Ret (SharedPtr.mk nullptr nullptr (SharedPtr.deleter_ Demo.a))
          (mkWorld (env Demo.shared_by_two) (holders Demo.shared_by_two)
             (<[ 1%positive := live 1 ]> (counters Demo.shared_by_two))).
Proof.
  assert (Wb : Function.wraps Demo.owned_by_b (SharedPtr.deleter_ Demo.b) Demo.logging).
  { exists 3%positive, (holds_Function (holds_callable Demo.logging)). by split_and!. }
  assert (Wa : Function.wraps Demo.shared_by_two (SharedPtr.deleter_ Demo.a) Demo.logging).
  { exists 2%positive, (holds_Function (holds_callable Demo.logging)). by split_and!. }
  assert (R1 : 1 <= 1 <= INT_MAX) by (unfold INT_MAX; lia).
  assert (R2 : 1 <= 2 <= INT_MAX) by (unfold INT_MAX; lia).
  split; [exact (conj eq_refl (conj eq_refl (conj R1 (conj Wb eq_refl))))|split].
  - destruct (SharedPtr_reset_null_keeps_deleter Demo.b (SharedPtr.deleter_ Demo.b) 1%positive 1
                Demo.logging (Demo.mkEnv {[ 1%positive := live 5 ]} [Some 1%positive])
                Demo.owned_by_b eq_refl eq_refl R1 Wb (fun _ => eq_refl))
      as (w1 & -> & _ & E & _).
    exact E.
  - destruct (SharedPtr_reset_null_keeps_deleter Demo.a (SharedPtr.deleter_ Demo.b) 1%positive 2
                Demo.logging (env Demo.shared_by_two)
                Demo.shared_by_two eq_refl eq_refl R2 Wa ltac:(discriminate))
      as (w1 & -> & _ & E & _).
    exact E.
Defined.

(** ** Any: empty objects *)

Section AnyEmpty.
Context {type : Type} `{EqDecision type}.
Variable value : type -> Type.
Implicit Types (w : World ptr unit (heap (Any.Placeholder value))) (a : Any.t).

Lemma UniquePtr_move_assign_from_nulls_source (this other : UniquePtr.t) w r w' :
  UniquePtr.move_assign_from (Any.delete_Placeholder value) this other w = Ret r w' ->
  UniquePtr.ptr_ r.2 = nullptr.
Proof.
  unfold UniquePtr.move_assign_from, bind.
  destruct (UniquePtr.with_default_deleter _ _ w) as [this1 w1| | |]; try discriminate.
  by intros [= <- _].
Qed.

(** C9.  A default-constructed [Any], the source of a move construction
    and the source of a move assignment all have a null [content_]:
    [has_value] is false and [cast<T>] throws "wtfff" for every [T],
    leaving the memory as it was - the very exception a cast to the wrong
    type throws. *)
Theorem Any_empty_cast_throws :
  (forall w, exists a w',
      Any.default value w = Ret a w' /\
      Any.has_value a = false /\
      forall T w'', Any.cast value T a w'' = Throw (cstring "wtfff") w'') /\
  (forall other,
      Any.has_value (Any.move other).2 = false /\
      forall T w, Any.cast value T (Any.move other).2 w = Throw (cstring "wtfff") w) /\
  (forall this other w r w',
      Any.move_assign value this (another other) w = Ret r w' ->
      exists moved_from,
        r.2 = another moved_from /\
        Any.has_value moved_from = false /\
        forall T w'', Any.cast value T moved_from w'' = Throw (cstring "wtfff") w'') /\
  (forall T U (v : value T) w, U <> T ->
      exists a w',
        Any.construct value T v w = Ret a w' /\
        forall empty, UniquePtr.ptr_ (Any.content_ empty) = nullptr ->
          thrown (Any.cast value U empty w') = thrown (Any.cast value U a w')).
Proof.
  split_and!.
  - intros w.
    destruct (UniquePtr_default_spec (Any.delete_Placeholder value) w)
      as (u & w' & E & Hu & _).
    exists (Any.mk u), w'. split_and!.
    + unfold Any.default. by rewrite (bind_ret _ _ _ _ _ E).
    + by apply Any_has_value_null.
    + intros T w''. by apply Any_cast_empty.
  - intros [[p f]]. split; [by apply Any_has_value_null|].
    intros T w. by apply Any_cast_empty.
  - intros this other w r w'. unfold Any.move_assign, noexcept, bind.
    destruct (UniquePtr.move_assign_from _ _ _ w) as [r0 w0| | |] eqn:E;
      try discriminate.
    apply UniquePtr_move_assign_from_nulls_source in E.
    intros [= <- _]. eexists. split_and!; [reflexivity| |].
    + by apply Any_has_value_null.
    + intros T w''. by apply Any_cast_empty.
  - intros T U v w Hne.
    destruct (Any_construct_spec value T v w) as (a & h & w' & E & Ha & _ & He & _).
    exists a, w'. split; [exact E|]. intros empty Hempty.
    rewrite (Any_cast_empty value empty U w' Hempty).
    rewrite (Any_cast_mismatch value a h T U v w' Hne Ha); [done|].
    rewrite He. apply lookup_insert_eq.
Qed.
End AnyEmpty.

Lemma Any_empty_cast_throws_witness :
  exists r w',
    Any.move_assign Demo.cpp_value Demo.x (another Demo.y) Demo.two_values = Ret r w' /\
    exists moved_from,
      r.2 = another moved_from /\
      Any.has_value moved_from = false /\
      forall T w'',
        Any.cast Demo.cpp_value T moved_from w'' = Throw (cstring "wtfff") w''.
Proof.
  destruct (Any.move_assign Demo.cpp_value Demo.x (another Demo.y) Demo.two_values)
    as [r w'| | |] eqn:E; try (by vm_compute in E).
  exists r, w'. split; [reflexivity|].
  exact (proj1 (proj2 (proj2 (Any_empty_cast_throws Demo.cpp_value)))
           Demo.x Demo.y Demo.two_values r w' E).
Defined.

(** ** The claims about [Any], stated for every universe of types *)

(** C2.  For every type [T], value [v] of [T] and memory [w]: constructing
    an [Any] from [v] returns, and [cast<T>] on the result returns [v]. *)
Theorem Any_construct_then_cast {type : Type} `{EqDecision type}
    (value : type -> Type) (T : type) (v : value T)
    (w : World ptr unit (heap (Any.Placeholder value))) :
  exists a w',
    Any.construct value T v w = Ret a w' /\
    Any.has_value a = true /\
    Any.cast value T a w' = Ret v w'.
Proof.
  destruct (Any_construct_spec value T v w) as (a & h & w' & E & Ha & _ & He & _).
  exists a, w'. split_and!; [exact E|by apply (Any_has_value_held a h)|].
  apply (Any_cast_held value a h); [done|]. rewrite He. apply lookup_insert_eq.
Qed.

(** C4.  For [U] different from [T], [cast<U>] on an [Any] constructed
    from a [T] throws "wtfff" - it returns no value of type [U] - and the
    memory in which the exception travels is the memory before the call,
    so that [cast<T>] still returns the stored value afterwards. *)
Theorem Any_cast_other_type_throws {type : Type} `{EqDecision type}
    (value : type -> Type) (T U : type) (v : value T)
    (w : World ptr unit (heap (Any.Placeholder value))) :
  U <> T ->
  exists a w',
    Any.construct value T v w = Ret a w' /\
    Any.cast value U a w' = Throw (cstring "wtfff") w' /\
    Any.cast value T a w' = Ret v w'.
Proof.
  intros Hne.
  destruct (Any_construct_spec value T v w) as (a & h & w' & E & Ha & _ & He & _).
  assert (Hh : env w' !! h = Some (live (Any.Holder value T v))).
  { rewrite He. apply lookup_insert_eq. }
  exists a, w'. split_and!; [exact E| |].
  - by apply (Any_cast_mismatch value a h T U v).
  - by apply (Any_cast_held value a h).
Qed.

Lemma Any_cast_other_type_throws_witness :
  Demo.t_double <> Demo.t_int /\
  exists a w',
    Any.construct Demo.cpp_value Demo.t_int 42 Demo.no_values = Ret a w' /\
    Any.cast Demo.cpp_value Demo.t_double a w' = Throw (cstring "wtfff") w' /\
    Any.cast Demo.cpp_value Demo.t_int a w' = Ret 42 w'.
Proof.
  assert (H : Demo.t_double <> Demo.t_int) by discriminate.
  split; [exact H|].
  exact (Any_cast_other_type_throws Demo.cpp_value Demo.t_int Demo.t_double 42
           Demo.no_values H).
Defined.

(** C3 (the code departs from the claim).  [Any a = 42; Any b(a);]:
    [b.cast<int>()] returns 0, not 42, because [Holder::clone] builds the
    copy from [T{}] instead of from [held]. *)
Theorem Any_copy_of_42_holds_0 :
  returned ((let* a := Any.construct Demo.cpp_value Demo.t_int 42 in
             let* b := Any.copy Demo.cpp_value Demo.value_initialized a in
             Any.cast Demo.cpp_value Demo.t_int b) Demo.no_values) = Some 0.
Proof. by vm_compute. Qed.

(** ** Moves of the owning pointers *)

Lemma UniquePtr_move_nulls_source (other : UniquePtr.t) :
  UniquePtr.ptr_ (UniquePtr.move other).2 = nullptr /\
  UniquePtr.ptr_ (UniquePtr.move other).1 = UniquePtr.ptr_ other /\
  UniquePtr.deleter_ (UniquePtr.move other).1 = UniquePtr.deleter_ other /\
  UniquePtr.deleter_ (UniquePtr.move other).2 = UniquePtr.deleter_ other.
Proof. by destruct other as [p [f]]. Qed.

(** Whatever the owner and its destroyer: once the moved-from source has
    been destroyed, every call through the target's [deleter_] goes through
    a pointer to a deleted holder. *)
Lemma UniquePtr_destroy_moved_from_dangles {Env : Type}
    (u : UniquePtr.t) (d : Callable ptr unit Env) (w : World ptr unit Env) e' :
  Function.wraps w (UniquePtr.deleter_ u) d ->
  d nullptr (env w) = Ret tt e' ->
  exists w',
    UniquePtr.destroy (UniquePtr.move u).2 w = Ret tt w' /\
    forall args,
      Function.call (UniquePtr.deleter_ (UniquePtr.move u).1) args w'
      = Undef use_after_free.
Proof.
  intros Hw He. destruct (UniquePtr_move_nulls_source u) as (Hp & _ & Hd1 & Hd2).
  assert (Hw1 : Function.wraps (set_env e' w) (UniquePtr.deleter_ u) d) by exact Hw.
  destruct (Function_destroy_wraps _ _ _ Hw1) as (l & Hl & E).
  eexists. split.
  - unfold UniquePtr.destroy. apply noexcept_ret. rewrite Hp, Hd2.
    rewrite (bind_ret _ _ _ _ _ (Function_call_wraps _ _ nullptr _ _ _ Hw He)).
    exact E.
  - intros args. rewrite Hd1, Hl. apply Function_call_freed.
    wsimpl. apply lookup_insert_eq.
Qed.

(** C8 (the code departs from the claim).  A [UniquePtr], and likewise a
    [SharedPtr], that owns the [int] at address 1 with the logging destroyer
    is moved from.  The source's pointer is null afterwards, but its
    [deleter_] still points at the holder the target uses: destroying the
    source deletes that holder, and the target's destructor then calls
    through the dangling pointer.  In the order in which a scope destroys
    them, target first, it is the source's destructor that uses the deleted
    holder. *)
Theorem moved_from_owner_deletes_the_shared_holder :
  (let* p := Demo.UniquePtr_with (Some 1%positive) Demo.logging in
   let (q, p') := UniquePtr.move p in
   UniquePtr.destroy p' >>
   UniquePtr.destroy q) Demo.start = Undef use_after_free /\
  (let* p := Demo.UniquePtr_with (Some 1%positive) Demo.logging in
   let (q, p') := UniquePtr.move p in
   UniquePtr.destroy q >>
   UniquePtr.destroy p') Demo.start = Undef use_after_free /\
  (let* p := Demo.SharedPtr_with (Some 1%positive) Demo.logging in
   let* r := SharedPtr.move p in
   SharedPtr.destroy r.2 >>
   SharedPtr.destroy r.1) Demo.start = Undef use_after_free /\
  (let* p := Demo.SharedPtr_with (Some 1%positive) Demo.logging in
   let* r := SharedPtr.move p in
   SharedPtr.destroy r.1 >>
   SharedPtr.destroy r.2) Demo.start = Undef double_free /\
  (let* p := Demo.SharedPtr_with (Some 1%positive) Demo.logging in
   let* r := SharedPtr.move p in
   SharedPtr.destroy r.2 >>
   fun w => Ret (SharedPtr.ptr_ r.2, holders w !! 2%positive, SharedPtr.deleter_ r.1) w)
    Demo.start
  = Ret (nullptr, Some freed, Function.mk (Function.pointer (Some 2%positive)))
        (mkWorld (Demo.mkEnv {[ 1%positive := live 5 ]} [])
                 {[ 1%positive := freed; 2%positive := freed ]}
                 {[ 1%positive := live 1 ]}).
Proof. split_and!; by vm_compute. Qed.


(* ===================================================================== *)
(** * Copies, leaks and dangling destroyers

    Properties of the operations around the reference-counting protocol
    and the value container: what each of them allocates, deletes, leaves
    behind and calls. *)

(** ** Allocation bookkeeping *)

Section Bookkeeping.
Context {Args Rt Env : Type}.
Implicit Types (w : World Args Rt Env) (l : loc) (h : CallableHolder Args Rt Env)
  (c : Callable Args Rt Env) (f g : Function.t).

Lemma holders_kept_refl w : holders_kept w w.
Proof. by intros l b. Qed.

Lemma holders_kept_trans w1 w2 w3 :
  holders_kept w1 w2 -> holders_kept w2 w3 -> holders_kept w1 w3.
Proof. intros H12 H23 l b Hl. by apply H23, H12. Qed.

Lemma holders_kept_eq w w' : holders w' = holders w -> holders_kept w w'.
Proof. intros E l b. by rewrite E. Qed.

Lemma holders_kept_insert w w' l b :
  holders w !! l = None -> holders w' = <[l := b]> (holders w) -> holders_kept w w'.
Proof.
  intros Hl E l' b' Hl'. rewrite E, lookup_insert_ne; [done|].
  intros ->. rewrite Hl in Hl'. discriminate.
Qed.

Lemma wraps_kept w w' f c :
  holders_kept w w' -> Function.wraps w f c -> Function.wraps w' f c.
Proof. intros K (l & h & -> & Hl & Hc). exists l, h. split_and!; auto. Qed.

Lemma wraps_eq w w' f c :
  holders w' = holders w -> Function.wraps w f c -> Function.wraps w' f c.
Proof. intros E. apply wraps_kept, holders_kept_eq, E. Qed.

Lemma invoke_throw h c args w x e :
  innermost h = Some c ->
  c args (env w) = Throw x e -> invoke h args w = Throw x (set_env e w).
Proof.
  intros Hc He. unfold invoke. by rewrite (invoke_innermost _ _ _ _ Hc), He.
Qed.

Lemma invoke_undef h c args w u :
  innermost h = Some c ->
  c args (env w) = Undef u -> invoke h args w = Undef u.
Proof.
  intros Hc He. unfold invoke. by rewrite (invoke_innermost _ _ _ _ Hc), He.
Qed.

Lemma Function_call_wraps_throw f c args w x e :
  Function.wraps w f c ->
  c args (env w) = Throw x e ->
  Function.call f args w = Throw x (set_env e w).
Proof.
  intros (l & h & -> & Hl & Hc) He.
  rewrite (Function_call_live _ _ _ _ Hl). by apply (invoke_throw h c).
Qed.

Lemma Function_call_wraps_undef f c args w u :
  Function.wraps w f c ->
  c args (env w) = Undef u ->
  Function.call f args w = Undef u.
Proof.
  intros (l & h & -> & Hl & Hc) He.
  rewrite (Function_call_live _ _ _ _ Hl). by apply (invoke_undef h c).
Qed.

Lemma bind_throw {S A B} (m : M S A) (k : A -> M S B) s x s' :
  m s = Throw x s' -> bind m k s = Throw x s'.
Proof. intros H. unfold bind. by rewrite H. Qed.

(** A deleted holder cannot be called and cannot be deleted again. *)
Lemma Function_destroy_freed l w :
  holders w !! l = Some freed ->
  Function.destroy (Function.mk (Function.pointer (Some l))) w = Undef double_free.
Proof.
  intros H. unfold Function.destroy, delete_holder. cbn [Function.callable_].
  by rewrite H.
Qed.
End Bookkeeping.

(** ** Function: copies are deep, copy assignment does not delete *)

(** X1.  [Function(const Function &)] on a non-empty [f]: the copy points
    to a holder of its own, allocated by the call, and wraps the callable
    [f] wraps; no holder that existed is touched, and destroying either of
    the two objects leaves the other one callable. *)
Theorem Function_copy_is_deep {Args Rt Env : Type}
    (f : Function.t) (c : Callable Args Rt Env) (w : World Args Rt Env) :
  Function.wraps w f c ->
  exists l' w',
    Function.copy f w = Ret (Function.mk (Function.pointer (Some l'))) w' /\
    holders w !! l' = None /\
    env w' = env w /\ counters w' = counters w /\
    holders_kept w w' /\
    Function.wraps w' f c /\
    Function.wraps w' (Function.mk (Function.pointer (Some l'))) c /\
    (exists w'', Function.destroy f w' = Ret tt w'' /\
       Function.wraps w'' (Function.mk (Function.pointer (Some l'))) c) /\
    (exists w'', Function.destroy (Function.mk (Function.pointer (Some l'))) w'
                 = Ret tt w'' /\
       Function.wraps w'' f c).
Proof.
  intros (l & h & -> & Hl & Hc).
  destruct (Function_clone_spec _ _ _ _ Hl Hc) as (l' & Hl' & E).
  set (w' := set_holders _ w) in E.
  assert (Hne : l <> l'). { intros ->. rewrite Hl' in Hl. discriminate. }
  assert (K : holders_kept w w') by (by apply (holders_kept_insert w w' l' (live h))).
  assert (Wf : Function.wraps w' (Function.mk (Function.pointer (Some l))) c).
  { apply (wraps_kept w); [done|]. by exists l, h. }
  assert (Wg : Function.wraps w' (Function.mk (Function.pointer (Some l'))) c).
  { exists l', h. split_and!; [done| |done]. apply lookup_insert_eq. }
  exists l', w'. split_and!; try done.
  - unfold Function.copy. cbn [Function.callable_]. by rewrite (bind_ret _ _ _ _ _ E).
  - destruct (Function_destroy_wraps _ _ _ Wf) as (l0 & [= <-] & Ed).
    eexists. split; [exact Ed|].
    exists l', h. split_and!; [done| |done].
    subst w'. wsimpl. rewrite lookup_insert_ne by done. apply lookup_insert_eq.
  - destruct (Function_destroy_wraps _ _ _ Wg) as (l0 & [= <-] & Ed).
    eexists. split; [exact Ed|].
    exists l, h. split_and!; [done| |done].
    subst w'. wsimpl. rewrite lookup_insert_ne by done. by rewrite lookup_insert_ne.
Qed.

Lemma Function_copy_is_deep_witness :
  Function.wraps Demo.one_function Demo.g Demo.negation /\
  exists l' w',
    Function.copy Demo.g Demo.one_function
      = Ret (Function.mk (Function.pointer (Some l'))) w' /\
    Function.wraps w' (Function.mk (Function.pointer (Some l'))) Demo.negation.
Proof.
  assert (W : Function.wraps Demo.one_function Demo.g Demo.negation).
  { exists 1%positive, (holds_callable Demo.negation). by split_and!. }
  split; [exact W|].
  destruct (Function_copy_is_deep Demo.g Demo.negation Demo.one_function W)
    as (l' & w' & E & _ & _ & _ & _ & _ & Wg & _).
  by exists l', w'.
Defined.

(** X2.  [Function(const Function &)] writes [callable_] only when the
    original is non-empty.  The copy of an empty [Function] therefore has an
    indeterminate pointer: the call succeeds and changes nothing, but
    calling or destroying the copy is undefined, in any memory.  Copy
    assignment from the same empty object stores a null pointer instead,
    and a call of the result throws the empty-call literal. *)
Theorem Function_copy_of_empty_is_indeterminate {Args Rt Env : Type}
    (f : Function.t) (w : World Args Rt Env) :
  Function.callable_ f = Function.pointer nullptr ->
  exists g,
    Function.copy f w = Ret g w /\
    (forall args (w' : World Args Rt Env),
       Function.call g args w' = Undef indeterminate_read) /\
    (forall w' : World Args Rt Env,
       Function.destroy g w' = Undef indeterminate_read) /\
    (forall this, exists g',
       Function.copy_assign this (another f) w = Ret g' w /\
       (forall args (w' : World Args Rt Env),
          Function.call g' args w' = Throw (cstring "wtf") w') /\
       (forall w' : World Args Rt Env, Function.destroy g' w' = Ret tt w')).
Proof.
  intros E. exists (Function.mk Function.indeterminate). split_and!.
  - unfold Function.copy. by rewrite E.
  - done.
  - done.
  - intros this. exists (Function.mk (Function.pointer nullptr)). split_and!.
    + unfold Function.copy_assign. by rewrite E.
    + done.
    + done.
Qed.

Lemma Function_copy_of_empty_is_indeterminate_witness :
  Function.callable_ (Function.default Function.value_init) = Function.pointer nullptr /\
  exists g,
    Function.copy (Function.default Function.value_init) Demo.no_functions
      = Ret g Demo.no_functions /\
    Function.call g true Demo.no_functions = Undef indeterminate_read.
Proof.
  split; [reflexivity|].
  destruct (Function_copy_of_empty_is_indeterminate
              (Function.default Function.value_init) Demo.no_functions eq_refl)
    as (g & E & Hc & _).
  exists g. split; [exact E|apply Hc].
Defined.

(** X3.  [operator=(const Function &)] overwrites [callable_] with a
    clone of the right operand's holder and never deletes the holder the
    left operand had.  After [this = o] with both non-empty, [this] points
    to a holder allocated by the call that wraps [o]'s callable, [o] is as
    before, and the holder [this] pointed to is still allocated though
    [this] no longer refers to it. *)
Theorem Function_copy_assign_keeps_old_holder {Args Rt Env : Type}
    (this o : Function.t) (c1 c2 : Callable Args Rt Env) (w : World Args Rt Env) :
  Function.wraps w this c1 ->
  Function.wraps w o c2 ->
  exists l' w',
    Function.copy_assign this (another o) w
      = Ret (Function.mk (Function.pointer (Some l'))) w' /\
    holders w !! l' = None /\
    env w' = env w /\ counters w' = counters w /\
    holders_kept w w' /\
    Function.wraps w' (Function.mk (Function.pointer (Some l'))) c2 /\
    Function.wraps w' o c2 /\
    Function.wraps w' this c1 /\
    Function.mk (Function.pointer (Some l')) <> this.
Proof.
  intros W1 (l & h & -> & Hl & Hc).
  destruct (Function_copy_assign_spec this _ _ _ _ Hl Hc) as (l' & Hl' & E).
  set (w' := set_holders _ w) in E.
  assert (K : holders_kept w w') by (by apply (holders_kept_insert w w' l' (live h))).
  exists l', w'. split_and!; try done.
  - exists l', h. split_and!; [done| |done]. apply lookup_insert_eq.
  - apply (wraps_kept w); [done|]. by exists l, h.
  - by apply (wraps_kept w).
  - destruct W1 as (l1 & h1 & -> & Hl1 & _). intros [= ->].
    rewrite Hl' in Hl1. discriminate.
Qed.

Lemma Function_copy_assign_keeps_old_holder_witness :
  Function.wraps Demo.shared_by_two (SharedPtr.deleter_ Demo.a) Demo.logging /\
  Function.wraps Demo.shared_by_two (SharedPtr.deleter_ Demo.b) Demo.logging /\
  exists l' w',
    Function.copy_assign (SharedPtr.deleter_ Demo.a)
      (another (SharedPtr.deleter_ Demo.b)) Demo.shared_by_two
      = Ret (Function.mk (Function.pointer (Some l'))) w' /\
    Function.wraps w' (SharedPtr.deleter_ Demo.a) Demo.logging.
Proof.
  assert (Wa : Function.wraps Demo.shared_by_two (SharedPtr.deleter_ Demo.a) Demo.logging).
  { exists 2%positive, (holds_Function (holds_callable Demo.logging)). by split_and!. }
  assert (Wb : Function.wraps Demo.shared_by_two (SharedPtr.deleter_ Demo.b) Demo.logging).
  { exists 3%positive, (holds_Function (holds_callable Demo.logging)). by split_and!. }
  split_and!; [exact Wa|exact Wb|].
  destruct (Function_copy_assign_keeps_old_holder _ _ _ _ _ Wa Wb)
    as (l' & w' & E & _ & _ & _ & _ & _ & _ & W & _).
  by exists l', w'.
Defined.

(** ** SharedPtr: empty owners, construction and destruction *)

Section SharedPtrMore.
Context {Env : Type}.
Implicit Types (w : World ptr unit Env) (l c : loc) (this o : SharedPtr.t)
  (d : Callable ptr unit Env) (f : Function.t) (p : ptr).

Lemma SharedPtr_construct_spec p f d w :
  Function.wraps w f d ->
  exists cn l' h',
    counters w !! cn = None /\ holders w !! l' = None /\ innermost h' = Some d /\
    SharedPtr.construct p f w =
      Ret (SharedPtr.mk p (Some cn) (Function.mk (Function.pointer (Some l'))))
          (mkWorld (env w) (<[l' := live h']> (holders w))
                   (<[cn := live 1]> (counters w))).
Proof.
  intros (l & h & -> & Hl & Hc).
  destruct (new_counter_spec 1 w) as (cn & Hcn & E1).
  set (w1 := set_counters _ w) in E1.
  destruct (Function_construct_from_Function_spec l h d w1 Hl Hc) as (l' & Hl' & E2).
  exists cn, l', (holds_Function h). split_and!; try done.
  unfold SharedPtr.construct.
  rewrite (bind_ret _ _ _ _ _ E1). by rewrite (bind_ret _ _ _ _ _ E2).
Qed.

(** [SharedPtr<T> s(p, c);] for a callable [c]: the parameter object is
    gone when the constructor has returned, and [s] carries a clone. *)
Lemma SharedPtr_construct_scoped_spec p d w :
  exists cn l1 l2 h',
    counters w !! cn = None /\ holders w !! l1 = None /\ holders w !! l2 = None /\
    l1 <> l2 /\ innermost h' = Some d /\
    scoped (Function.construct d) Function.destroy (SharedPtr.construct p) w =
      Ret (SharedPtr.mk p (Some cn) (Function.mk (Function.pointer (Some l2))))
          (mkWorld (env w) (<[l1 := freed]> (<[l2 := live h']> (holders w)))
                   (<[cn := live 1]> (counters w))).
Proof.
  destruct (Function_construct_spec d w) as (l1 & Hl1 & E1).
  set (w1 := set_holders _ w) in E1.
  assert (W1 : Function.wraps w1 (Function.mk (Function.pointer (Some l1))) d).
  { exists l1, (holds_callable d). split_and!; [done| |done]. apply lookup_insert_eq. }
  destruct (SharedPtr_construct_spec p _ d w1 W1) as (cn & l2 & h' & Hcn & Hl2 & Hh & E2).
  assert (Hne : l1 <> l2).
  { intros <-. subst w1. wsimpl. rewrite lookup_insert_eq in Hl2. discriminate. }
  assert (Hl2' : holders w !! l2 = None).
  { subst w1. wsimpl. by rewrite lookup_insert_ne in Hl2. }
  exists cn, l1, l2, h'. split_and!; try done.
  eapply scoped_ret; [exact E1|exact E2|].
  unfold Function.destroy. cbn [Function.callable_].
  rewrite (delete_holder_live l1 (holds_callable d) d); [|by wsimpl; rewrite lookup_insert_ne; [apply lookup_insert_eq|]|done].
  subst w1. unfold set_holders. wsimpl. f_equal. f_equal.
  rewrite (insert_insert_ne _ l2 l1) by done. by rewrite insert_insert_eq.
Qed.
End SharedPtrMore.

(** X4.  [SharedPtr()] owns nothing: [get] is null, the conversion to
    [bool] is false, [use_count] is 0 and no counter exists for it.  Its
    copies are empty as well and create no counter.  Destroying it calls no
    destroyer: the pointees and the counters are as before the
    construction, and the one holder the constructor allocated is
    deleted. *)
Theorem SharedPtr_default_is_empty {Env : Type}
    (delete_T : Callable ptr unit Env) (w : World ptr unit Env) :
  exists s w',
    SharedPtr.default delete_T w = Ret s w' /\
    SharedPtr.get s = nullptr /\
    SharedPtr.to_bool s = false /\
    SharedPtr.use_count s w' = Ret 0 w' /\
    env w' = env w /\ counters w' = counters w /\ holders_kept w w' /\
    (exists s2 w2,
       SharedPtr.copy s w' = Ret s2 w2 /\
       SharedPtr.get s2 = nullptr /\
       SharedPtr.use_count s2 w2 = Ret 0 w2 /\
       env w2 = env w /\ counters w2 = counters w) /\
    (exists w'',
       SharedPtr.destroy s w' = Ret tt w'' /\
       env w'' = env w /\ counters w'' = counters w /\
       holders_kept w w'' /\ no_holder_left w w'').
Proof.
  destruct (Function_construct_spec (SharedPtr.Deleter delete_T) w) as (l & Hl & E).
  set (w' := set_holders _ w) in E.
  assert (Hl' : holders w' !! l = Some (live (holds_callable delete_T)))
    by apply lookup_insert_eq.
  exists (SharedPtr.mk nullptr nullptr (Function.mk (Function.pointer (Some l)))), w'.
  split_and!; try done.
  - unfold SharedPtr.default. by rewrite (bind_ret _ _ _ _ _ E).
  - by apply (holders_kept_insert w w' l (live (holds_callable delete_T))).
  - destruct (Function_copy_assign_spec (Function.default Function.default_init)
                l (holds_callable delete_T) delete_T w' Hl' eq_refl) as (l2 & Hl2 & E2).
    eexists _, _. split_and!.
    + unfold SharedPtr.copy, SharedPtr.share. cbn [SharedPtr.deleter_ SharedPtr.ref_count_].
      rewrite (bind_ret _ _ _ _ _ E2). reflexivity.
    + done.
    + done.
    + done.
    + done.
  - exists (set_holders (<[l := freed]> (holders w')) w'). split_and!; try done.
    + unfold SharedPtr.destroy. apply noexcept_ret.
      unfold SharedPtr.release. cbn [SharedPtr.ref_count_ SharedPtr.deleter_].
      unfold bind, ret, Function.destroy. cbn [Function.callable_].
      by apply (delete_holder_live l (holds_callable delete_T) delete_T).
    + subst w'. wsimpl. rewrite insert_insert_eq.
      by apply (holders_kept_insert w _ l freed).
    + intros l0 h0. subst w'. wsimpl. rewrite insert_insert_eq.
      destruct (decide (l0 = l)) as [->|Hne].
      * rewrite lookup_insert_eq. discriminate.
      * by rewrite lookup_insert_ne.
Qed.

Section NoHolderLeft.
Context {Args Rt Env : Type}.
Implicit Types (w : World Args Rt Env) (l : loc).

(** Inserting deleted blocks leaves no holder behind. *)
Lemma no_holder_left_freed w w' w'' l :
  no_holder_left w w' -> holders w'' = <[l := freed]> (holders w') ->
  no_holder_left w w''.
Proof.
  intros N E l0 h0. rewrite E.
  destruct (decide (l0 = l)) as [->|Hne].
  - rewrite lookup_insert_eq. discriminate.
  - rewrite lookup_insert_ne by done. apply N.
Qed.

Lemma no_holder_left_refl w : no_holder_left w w.
Proof. by intros l h. Qed.

Lemma no_holder_left_eq w w' : holders w' = holders w -> no_holder_left w w'.
Proof. intros E l h. by rewrite E. Qed.

Lemma holders_kept_freed_fresh w w' w'' l :
  holders_kept w w' -> holders w !! l = None ->
  holders w'' = <[l := freed]> (holders w') ->
  holders_kept w w''.
Proof.
  intros K Hl E l0 b0 H0. rewrite E, lookup_insert_ne; [by apply K|].
  intros ->. rewrite Hl in H0. discriminate.
Qed.
End NoHolderLeft.

(** X5.  [make_shared] followed by the destruction of the only owner
    gives everything back.  When [new T(args...)] yields the address [p],
    [make_shared] returns the sole owner of [p] ([use_count] 1) with a
    counter of its own; destroying that owner runs [delete] on [p] once,
    deletes the counter and deletes every holder the two steps
    allocated. *)
Theorem make_shared_then_destroy {Env CtorArgs : Type}
    (delete_T : Callable ptr unit Env) (new_T : CtorArgs -> Env -> Outcome Env loc)
    (args : CtorArgs) (w : World ptr unit Env) (p : loc) (e1 e2 : Env) :
  new_T args (env w) = Ret p e1 ->
  delete_T (Some p) e1 = Ret tt e2 ->
  exists s cn w1 w2,
    SharedPtr.make_shared delete_T new_T args w = Ret s w1 /\
    SharedPtr.get s = Some p /\
    SharedPtr.ref_count_ s = Some cn /\ counters w !! cn = None /\
    SharedPtr.use_count s w1 = Ret 1 w1 /\
    env w1 = e1 /\
    SharedPtr.destroy s w1 = Ret tt w2 /\
    env w2 = e2 /\
    counters w2 = <[cn := freed]> (counters w) /\
    holders_kept w w2 /\ no_holder_left w w2.
Proof.
  intros Hn Hd.
  assert (E0 : in_env (Args:=ptr) (Rt:=unit) (new_T args) w = Ret p (set_env e1 w)).
  { unfold in_env. by rewrite Hn. }
  set (w0 := set_env e1 w) in E0.
  destruct (SharedPtr_construct_scoped_spec (Some p) delete_T w0)
    as (cn & l1 & l2 & h' & Hcn & Hl1 & Hl2 & Hne & Hh & E1).
  set (s := SharedPtr.mk _ _ _) in E1. set (w1 := mkWorld _ _ _) in E1.
  assert (Hc1 : counters w1 !! cn = Some (live 1)) by apply lookup_insert_eq.
  assert (W1 : Function.wraps w1 (SharedPtr.deleter_ s) delete_T).
  { exists l2, h'. split_and!; [done| |done].
    subst w1. wsimpl. rewrite lookup_insert_ne by done. apply lookup_insert_eq. }
  destruct (SharedPtr_destroy_last s cn delete_T e2 w1 eq_refl Hc1 W1 Hd)
    as (l & [= <-] & E2).
  exists s, cn, w1. eexists. split_and!.
  - unfold SharedPtr.make_shared. rewrite (bind_ret _ _ _ _ _ E0). exact E1.
  - done.
  - done.
  - done.
  - unfold SharedPtr.use_count. cbn [SharedPtr.ref_count_ s].
    by apply atomic_load_live.
  - done.
  - exact E2.
  - done.
  - wsimpl. subst w1. wsimpl. by rewrite insert_insert_eq.
  - wsimpl. subst w1 w0. wsimpl.
    apply (holders_kept_freed_fresh w
             (set_holders (<[l1:=freed]> (<[l2:=live h']> (holders w))) w) _ l2);
      [|done|done].
    apply (holders_kept_freed_fresh w
             (set_holders (<[l2:=live h']> (holders w)) w) _ l1); [|done|done].
    by apply (holders_kept_insert w _ l2 (live h')).
  - wsimpl. subst w1 w0. wsimpl.
    rewrite (insert_insert_ne _ l2 l1) by done. rewrite insert_insert_eq.
    apply (no_holder_left_freed w (set_holders (<[l2:=freed]> (holders w)) w) _ l1);
      [|done].
    by apply (no_holder_left_freed w w _ l2); [apply no_holder_left_refl|].
Qed.

Lemma make_shared_then_destroy_witness :
  Demo.new_int 7 (env Demo.start) =
    Ret 2%positive
        (Demo.mkEnv {[ 1%positive := live 5; 2%positive := live 7 ]} []) /\
  Demo.delete_int (Some 2%positive)
      (Demo.mkEnv {[ 1%positive := live 5; 2%positive := live 7 ]} []) =
    Ret tt (Demo.mkEnv {[ 1%positive := live 5; 2%positive := freed ]} []) /\
  exists s w1 w2,
    SharedPtr.make_shared Demo.delete_int Demo.new_int 7 Demo.start = Ret s w1 /\
    SharedPtr.destroy s w1 = Ret tt w2 /\
    env w2 = Demo.mkEnv {[ 1%positive := live 5; 2%positive := freed ]} [].
Proof.
  assert (Hn : Demo.new_int 7 (env Demo.start) =
               Ret 2%positive
                 (Demo.mkEnv {[ 1%positive := live 5; 2%positive := live 7 ]} []))
    by (by vm_compute).
  assert (Hd : Demo.delete_int (Some 2%positive)
                 (Demo.mkEnv {[ 1%positive := live 5; 2%positive := live 7 ]} []) =
               Ret tt (Demo.mkEnv {[ 1%positive := live 5; 2%positive := freed ]} []))
    by (by vm_compute).
  split_and!; [exact Hn|exact Hd|].
  destruct (make_shared_then_destroy Demo.delete_int Demo.new_int 7 Demo.start
              _ _ _ Hn Hd) as (s & cn & w1 & w2 & E1 & _ & _ & _ & _ & _ & E2 & He & _).
  by exists s, w1, w2.
Defined.

Section SharedPtrLast.
Context {Env : Type}.
Implicit Types (w : World ptr unit Env) (l c : loc) (this o : SharedPtr.t)
  (d : Callable ptr unit Env) (f : Function.t) (p : ptr).

(** The last release when the destroyer does not return. *)
Lemma SharedPtr_release_last_throw this c d x e' w :
  SharedPtr.ref_count_ this = Some c ->
  counters w !! c = Some (live 1) ->
  Function.wraps w (SharedPtr.deleter_ this) d ->
  d (SharedPtr.ptr_ this) (env w) = Throw x e' ->
  SharedPtr.release this w =
    Throw x (mkWorld e' (holders w) (<[c := live 0]> (counters w))).
Proof.
  intros Hc Hn Hd He. unfold SharedPtr.release. rewrite Hc.
  rewrite (bind_ret _ _ _ _ _ (fetch_sub_live _ _ _ _ Hn)).
  cbn [Z.eqb Pos.eqb].
  set (w1 := set_counters _ w).
  assert (E : Function.call (SharedPtr.deleter_ this) (SharedPtr.ptr_ this) w1
              = Throw x (set_env e' w1)) by (by apply (Function_call_wraps_throw _ d)).
  by rewrite (bind_throw _ _ _ _ _ E).
Qed.

Lemma SharedPtr_release_last_undef this c d u w :
  SharedPtr.ref_count_ this = Some c ->
  counters w !! c = Some (live 1) ->
  Function.wraps w (SharedPtr.deleter_ this) d ->
  d (SharedPtr.ptr_ this) (env w) = Undef u ->
  SharedPtr.release this w = Undef u.
Proof.
  intros Hc Hn Hd He. unfold SharedPtr.release. rewrite Hc.
  rewrite (bind_ret _ _ _ _ _ (fetch_sub_live _ _ _ _ Hn)).
  cbn [Z.eqb Pos.eqb].
  set (w1 := set_counters _ w).
  assert (E : Function.call (SharedPtr.deleter_ this) (SharedPtr.ptr_ this) w1
              = Undef u) by (by apply (Function_call_wraps_undef _ d)).
  by rewrite (bind_undef _ _ _ _ E).
Qed.

Lemma noexcept_undef {S A} (m : M S A) s u :
  m s = Undef u -> noexcept m s = Undef u.
Proof. intros H. unfold noexcept. by rewrite H. Qed.

Lemma noexcept_throw {S A} (m : M S A) s x s' :
  m s = Throw x s' -> noexcept m s = Terminate s'.
Proof. intros H. unfold noexcept. by rewrite H. Qed.
End SharedPtrLast.

(** X6.  Two [SharedPtr]s constructed from the same raw pointer do not
    share a count.  Each gets a counter of its own holding 1, although
    [operator==] calls them equal, so each believes it is the last owner:
    destroying both runs the destroyer twice on the same pointer, and when
    the second run is undefined (as it is for [delete]) so is the
    program. *)
Theorem SharedPtrs_from_one_raw_pointer {Env : Type}
    (p : ptr) (f : Function.t) (d : Callable ptr unit Env) (w : World ptr unit Env) :
  Function.wraps w f d ->
  exists s1 w1 s2 w2,
    SharedPtr.construct p f w = Ret s1 w1 /\
    SharedPtr.construct p f w1 = Ret s2 w2 /\
    SharedPtr.eq s1 s2 = true /\
    SharedPtr.ref_count_ s1 <> SharedPtr.ref_count_ s2 /\
    SharedPtr.use_count s1 w2 = Ret 1 w2 /\
    SharedPtr.use_count s2 w2 = Ret 1 w2 /\
    env w2 = env w /\
    (forall e1 e2,
       d p (env w) = Ret tt e1 -> d p e1 = Ret tt e2 ->
       exists w4,
         (SharedPtr.destroy s1 >> SharedPtr.destroy s2) w2 = Ret tt w4 /\
         env w4 = e2) /\
    (forall e1 u,
       d p (env w) = Ret tt e1 -> d p e1 = Undef u ->
       (SharedPtr.destroy s1 >> SharedPtr.destroy s2) w2 = Undef u).
Proof.
  intros W.
  destruct (SharedPtr_construct_spec p f d w W) as (c1 & l1 & h1 & Hc1 & Hl1 & Hh1 & E1).
  set (s1 := SharedPtr.mk _ _ _) in E1. set (w1 := mkWorld _ _ _) in E1.
  assert (W1 : Function.wraps w1 f d).
  { apply (wraps_kept w); [|done]. by apply (holders_kept_insert w w1 l1 (live h1)). }
  destruct (SharedPtr_construct_spec p f d w1 W1) as (c2 & l2 & h2 & Hc2 & Hl2 & Hh2 & E2).
  set (s2 := SharedPtr.mk _ _ _) in E2. set (w2 := mkWorld _ _ _) in E2.
  assert (Hc : c1 <> c2).
  { intros <-. subst w1. wsimpl. rewrite lookup_insert_eq in Hc2. discriminate. }
  assert (Hl : l1 <> l2).
  { intros <-. subst w1. wsimpl. rewrite lookup_insert_eq in Hl2. discriminate. }
  assert (Hn1 : counters w2 !! c1 = Some (live 1)).
  { subst w2 w1. wsimpl. rewrite lookup_insert_ne by done. apply lookup_insert_eq. }
  assert (Hn2 : counters w2 !! c2 = Some (live 1)) by apply lookup_insert_eq.
  assert (Ws1 : Function.wraps w2 (SharedPtr.deleter_ s1) d).
  { exists l1, h1. split_and!; [done| |done].
    subst w2 w1. wsimpl. rewrite lookup_insert_ne by done. apply lookup_insert_eq. }
  assert (D1 : forall e1, d p (env w) = Ret tt e1 ->
     exists w3, SharedPtr.destroy s1 w2 = Ret tt w3 /\ env w3 = e1 /\
       counters w3 !! c2 = Some (live 1) /\
       Function.wraps w3 (SharedPtr.deleter_ s2) d).
  { intros e1 He1.
    destruct (SharedPtr_destroy_last s1 c1 d e1 w2 eq_refl Hn1 Ws1 He1)
      as (l & [= <-] & E3).
    eexists. split_and!; [exact E3|done| |].
    - wsimpl. by rewrite lookup_insert_ne.
    - exists l2, h2. split_and!; [done| |done].
      wsimpl. rewrite lookup_insert_ne by done. apply lookup_insert_eq. }
  exists s1, w1, s2, w2. split_and!; try done.
  - by apply bool_decide_eq_true.
  - subst s1 s2. cbn. congruence.
  - unfold SharedPtr.use_count. cbn [SharedPtr.ref_count_ s1]. by apply atomic_load_live.
  - unfold SharedPtr.use_count. cbn [SharedPtr.ref_count_ s2]. by apply atomic_load_live.
  - intros e1 e2 He1 He2.
    destruct (D1 e1 He1) as (w3 & E3 & <- & Hn3 & W3).
    destruct (SharedPtr_destroy_last s2 c2 d e2 w3 eq_refl Hn3 W3 He2)
      as (l & _ & E4).
    eexists. split; [by rewrite (bind_ret _ _ _ _ _ E3)|done].
  - intros e1 u He1 Hu.
    destruct (D1 e1 He1) as (w3 & E3 & <- & Hn3 & W3).
    rewrite (bind_ret _ _ _ _ _ E3).
    unfold SharedPtr.destroy. apply noexcept_undef.
    by rewrite (bind_undef _ _ _ _
                  (SharedPtr_release_last_undef s2 c2 d u w3 eq_refl Hn3 W3 Hu)).
Qed.

Lemma SharedPtrs_from_one_raw_pointer_witness :
  Function.wraps Demo.start_with_del Demo.del Demo.delete_int /\
  exists s1 w1 s2 w2,
    SharedPtr.construct (Some 1%positive) Demo.del Demo.start_with_del = Ret s1 w1 /\
    SharedPtr.construct (Some 1%positive) Demo.del w1 = Ret s2 w2 /\
    SharedPtr.use_count s1 w2 = Ret 1 w2 /\
    SharedPtr.use_count s2 w2 = Ret 1 w2 /\
    (SharedPtr.destroy s1 >> SharedPtr.destroy s2) w2 = Undef double_free.
Proof.
  assert (W : Function.wraps Demo.start_with_del Demo.del Demo.delete_int).
  { exists 1%positive, (holds_callable Demo.delete_int). by split_and!. }
  split; [exact W|].
  destruct (SharedPtrs_from_one_raw_pointer (Some 1%positive) Demo.del Demo.delete_int
              Demo.start_with_del W)
    as (s1 & w1 & s2 & w2 & E1 & E2 & _ & _ & U1 & U2 & _ & _ & Hu).
  exists s1, w1, s2, w2. split_and!; try done.
  by apply (Hu (Demo.mkEnv {[ 1%positive := freed ]} [])).
Defined.

Lemma Demo_owned_by_r_reached :
  Demo.SharedPtr_with (Some 1%positive) Demo.refusing Demo.start
  = Ret Demo.r Demo.owned_by_r.
Proof. by vm_compute. Qed.

(** X7.  A destroyer that throws, at the last owner.  [release] has
    already taken the count to 0 when it calls the destroyer, so the
    exception leaves [release], [reset] and copy assignment with the counter
    block still allocated and holding 0 and with the members of the object
    unchanged; out of the destructor and out of move assignment, which are
    [noexcept], it ends the program.  When the object is destroyed
    afterwards it finds the count 0, takes it to -1 and does not call the
    destroyer again: the counter block is never deleted. *)
Theorem SharedPtr_destroyer_that_throws {Env : Type}
    (this : SharedPtr.t) (c : loc) (d : Callable ptr unit Env) (x : Exn) (e' : Env)
    (w : World ptr unit Env) :
  SharedPtr.ref_count_ this = Some c ->
  counters w !! c = Some (live 1) ->
  Function.wraps w (SharedPtr.deleter_ this) d ->
  d (SharedPtr.ptr_ this) (env w) = Throw x e' ->
  exists w',
    w' = mkWorld e' (holders w) (<[c := live 0]> (counters w)) /\
    SharedPtr.release this w = Throw x w' /\
    (forall p f, SharedPtr.reset this p f w = Throw x w') /\
    (forall o, SharedPtr.copy_assign this (another o) w = Throw x w') /\
    (forall o, SharedPtr.move_assign this (another o) w = Terminate w') /\
    SharedPtr.destroy this w = Terminate w' /\
    SharedPtr.use_count this w' = Ret 0 w' /\
    exists w'',
      SharedPtr.destroy this w' = Ret tt w'' /\
      env w'' = e' /\ counters w'' !! c = Some (live (-1)).
Proof.
  intros Hc Hn W He.
  pose proof (SharedPtr_release_last_throw this c d x e' w Hc Hn W He) as E.
  set (w' := mkWorld _ _ _) in E.
  assert (Hn' : counters w' !! c = Some (live 0)) by apply lookup_insert_eq.
  exists w'. split_and!; try done.
  - intros p f. unfold SharedPtr.reset. by rewrite (bind_throw _ _ _ _ _ E).
  - intros o. unfold SharedPtr.copy_assign. by rewrite (bind_throw _ _ _ _ _ E).
  - intros o. unfold SharedPtr.move_assign. apply noexcept_throw with (x := x).
    apply bind_throw. unfold SharedPtr.move_assign_from. by apply bind_throw.
  - unfold SharedPtr.destroy. apply noexcept_throw with (x := x). by apply bind_throw.
  - unfold SharedPtr.use_count. rewrite Hc. by apply atomic_load_live.
  - assert (W' : Function.wraps w' (SharedPtr.deleter_ this) d) by (by apply (wraps_eq w)).
    destruct (SharedPtr_destroy_shared this c 0 d w' Hc Hn' ltac:(done) W')
      as (l & _ & E2).
    eexists. split_and!; [exact E2|done|].
    wsimpl. by rewrite lookup_insert_eq.
Qed.

Lemma SharedPtr_destroyer_that_throws_witness :
  SharedPtr.ref_count_ Demo.r = Some 1%positive /\
  counters Demo.owned_by_r !! 1%positive = Some (live 1) /\
  Function.wraps Demo.owned_by_r (SharedPtr.deleter_ Demo.r) Demo.refusing /\
  thrown (SharedPtr.reset Demo.r nullptr Demo.del Demo.owned_by_r)
    = Some {| exn_type := class_type "std::runtime_error"; what := "busy" |} /\
  SharedPtr.destroy Demo.r Demo.owned_by_r
    = Terminate (set_counters {[ 1%positive := live 0 ]} Demo.owned_by_r).
Proof.
  assert (W : Function.wraps Demo.owned_by_r (SharedPtr.deleter_ Demo.r) Demo.refusing).
  { exists 2%positive, (holds_Function (holds_callable Demo.refusing)). by split_and!. }
  assert (Hn : counters Demo.owned_by_r !! 1%positive = Some (live 1)) by done.
  split_and!; [done|exact Hn|exact W| |].
  - destruct (SharedPtr_destroyer_that_throws Demo.r 1%positive Demo.refusing
                _ _ Demo.owned_by_r eq_refl Hn W eq_refl)
      as (w' & _ & _ & Hr & _).
    by rewrite Hr.
  - by vm_compute.
Defined.

Lemma Demo_shared_by_two_with_del2_reached :
  Function.construct Demo.delete_int Demo.shared_by_two
  = Ret Demo.del2 Demo.shared_by_two_with_del2.
Proof. by vm_compute. Qed.

(** X8.  [set_deleter] replaces the destroyer of this owner only.  The
    owners [a] and [b] share a pointee with count 2 and destroyer [d];
    after [a.set_deleter(f)] with [f] wrapping [d'], [a] carries a clone of
    [f] in a holder allocated by the call, [b] still carries [d], the count
    is unchanged, and the holder [a] had before is still allocated.  Which
    destroyer the pointee gets is decided by which owner goes last: [d]
    when it is [b], [d'] when it is [a]. *)
Theorem SharedPtr_set_deleter_is_per_owner {Env : Type}
    (a b : SharedPtr.t) (c : loc) (p : ptr) (d d' : Callable ptr unit Env)
    (f : Function.t) (w : World ptr unit Env) :
  SharedPtr.owns c p d w a ->
  SharedPtr.owns c p d w b ->
  counters w !! c = Some (live 2) ->
  Function.wraps w f d' ->
  exists a' w1,
    SharedPtr.set_deleter a f w = Ret a' w1 /\
    SharedPtr.ptr_ a' = p /\ SharedPtr.ref_count_ a' = Some c /\
    env w1 = env w /\ counters w1 = counters w /\ holders_kept w w1 /\
    SharedPtr.deleter_ a' <> SharedPtr.deleter_ a /\
    Function.wraps w1 (SharedPtr.deleter_ a) d /\
    Function.wraps w1 (SharedPtr.deleter_ a') d' /\
    Function.wraps w1 (SharedPtr.deleter_ b) d /\
    (forall e', d p (env w) = Ret tt e' ->
       exists w3,
         (SharedPtr.destroy a' >> SharedPtr.destroy b) w1 = Ret tt w3 /\ env w3 = e') /\
    (forall e', d' p (env w) = Ret tt e' ->
       exists w3,
         (SharedPtr.destroy b >> SharedPtr.destroy a') w1 = Ret tt w3 /\ env w3 = e').
Proof.
  intros (Hca & Hpa & Wa) (Hcb & Hpb & Wb) Hn (lf & hf & -> & Hlf & Hhf).
  destruct (Function_copy_assign_spec (SharedPtr.deleter_ a) _ _ _ _ Hlf Hhf)
    as (l' & Hl' & E).
  set (w1 := set_holders _ w) in E.
  set (a' := SharedPtr.mk (SharedPtr.ptr_ a) (SharedPtr.ref_count_ a)
               (Function.mk (Function.pointer (Some l')))).
  assert (K : holders_kept w w1) by (by apply (holders_kept_insert w w1 l' (live hf))).
  assert (Wa1 : Function.wraps w1 (SharedPtr.deleter_ a) d) by (by apply (wraps_kept w)).
  assert (Wb1 : Function.wraps w1 (SharedPtr.deleter_ b) d) by (by apply (wraps_kept w)).
  assert (Wa' : Function.wraps w1 (SharedPtr.deleter_ a') d').
  { exists l', hf. split_and!; [done| |done]. apply lookup_insert_eq. }
  assert (Hne : forall g d0, Function.wraps w g d0 ->
                  g <> Function.mk (Function.pointer (Some l'))).
  { intros g d0 (l0 & h0 & -> & Hl0 & _) [= ->]. rewrite Hl' in Hl0. discriminate. }
  exists a', w1. split_and!; try done.
  - unfold SharedPtr.set_deleter. by rewrite (bind_ret _ _ _ _ _ E).
  - intros Heq. by apply (Hne _ _ Wa).
  - intros e' He'.
    destruct (SharedPtr_destroy_shared a' c 2 d' w1 Hca Hn ltac:(done) Wa')
      as (l & [= <-] & E1).
    change (wrap_int (2 - 1)) with 1 in E1.
    set (w2 := mkWorld _ _ _) in E1.
    assert (Wb2 : Function.wraps w2 (SharedPtr.deleter_ b) d).
    { destruct Wb1 as (lb & hb & Hb & Hlb & Hhb). exists lb, hb.
      split_and!; [done| |done]. subst w2. wsimpl.
      rewrite lookup_insert_ne; [done|]. intros <-.
      apply (Hne _ _ Wb). by rewrite Hb. }
    assert (Hn2 : counters w2 !! c = Some (live 1)) by apply lookup_insert_eq.
    destruct (SharedPtr_destroy_last b c d e' w2 Hcb Hn2 Wb2) as (l & _ & E2).
    { by rewrite Hpb. }
    eexists. split; [by rewrite (bind_ret _ _ _ _ _ E1)|done].
  - intros e' He'.
    destruct (SharedPtr_destroy_shared b c 2 d w1 Hcb Hn ltac:(done) Wb1)
      as (lb & Hb & E1).
    change (wrap_int (2 - 1)) with 1 in E1.
    set (w2 := mkWorld _ _ _) in E1.
    assert (Wa2 : Function.wraps w2 (SharedPtr.deleter_ a') d').
    { exists l', hf. split_and!; [done| |done]. subst w2. wsimpl.
      rewrite lookup_insert_ne; [apply lookup_insert_eq|]. intros ->.
      apply (Hne _ _ Wb). by rewrite Hb. }
    assert (Hn2 : counters w2 !! c = Some (live 1)) by apply lookup_insert_eq.
    destruct (SharedPtr_destroy_last a' c d' e' w2 Hca Hn2 Wa2) as (l & _ & E2).
    { subst a'. cbn [SharedPtr.ptr_]. by rewrite Hpa. }
    eexists. split; [by rewrite (bind_ret _ _ _ _ _ E1)|done].
Qed.

Lemma SharedPtr_set_deleter_is_per_owner_witness :
  SharedPtr.owns 1%positive (Some 1%positive) Demo.logging
    Demo.shared_by_two_with_del2 Demo.a /\
  SharedPtr.owns 1%positive (Some 1%positive) Demo.logging
    Demo.shared_by_two_with_del2 Demo.b /\
  counters Demo.shared_by_two_with_del2 !! 1%positive = Some (live 2) /\
  Function.wraps Demo.shared_by_two_with_del2 Demo.del2 Demo.delete_int /\
  exists a' w1,
    SharedPtr.set_deleter Demo.a Demo.del2 Demo.shared_by_two_with_del2 = Ret a' w1 /\
    (exists w3,
       (SharedPtr.destroy a' >> SharedPtr.destroy Demo.b) w1 = Ret tt w3 /\
       env w3 = Demo.mkEnv {[ 1%positive := live 5 ]} [Some 1%positive]) /\
    (exists w3,
       (SharedPtr.destroy Demo.b >> SharedPtr.destroy a') w1 = Ret tt w3 /\
       env w3 = Demo.mkEnv {[ 1%positive := freed ]} []).
Proof.
  assert (Oa : SharedPtr.owns 1%positive (Some 1%positive) Demo.logging
                 Demo.shared_by_two_with_del2 Demo.a).
  { split_and!; [done..|].
    exists 2%positive, (holds_Function (holds_callable Demo.logging)). by split_and!. }
  assert (Ob : SharedPtr.owns 1%positive (Some 1%positive) Demo.logging
                 Demo.shared_by_two_with_del2 Demo.b).
  { split_and!; [done..|].
    exists 3%positive, (holds_Function (holds_callable Demo.logging)). by split_and!. }
  assert (Hn : counters Demo.shared_by_two_with_del2 !! 1%positive = Some (live 2)) by done.
  assert (W : Function.wraps Demo.shared_by_two_with_del2 Demo.del2 Demo.delete_int).
  { exists 4%positive, (holds_callable Demo.delete_int). by split_and!. }
  split_and!; [exact Oa|exact Ob|exact Hn|exact W|].
  destruct (SharedPtr_set_deleter_is_per_owner Demo.a Demo.b 1%positive (Some 1%positive)
              Demo.logging Demo.delete_int Demo.del2 Demo.shared_by_two_with_del2
              Oa Ob Hn W)
    as (a' & w1 & E & _ & _ & _ & _ & _ & _ & _ & _ & _ & H1 & H2).
  exists a', w1. split_and!; [exact E| |].
  - by apply H1.
  - apply H2. by vm_compute.
Defined.

(** X9.  The count is an [int] and wraps.  When [INT_MAX] owners share
    a pointee, one more copy succeeds, leaves [INT_MIN] in the counter and
    changes nothing else but its own holder: [use_count] of the copy and
    of every older owner is then negative.  Destroying the copy again does
    not call the destroyer and takes the counter back to [INT_MAX]. *)
Theorem SharedPtr_count_wraps_at_INT_MAX {Env : Type}
    (this : SharedPtr.t) (c : loc) (d : Callable ptr unit Env)
    (w : World ptr unit Env) :
  SharedPtr.ref_count_ this = Some c ->
  counters w !! c = Some (live INT_MAX) ->
  Function.wraps w (SharedPtr.deleter_ this) d ->
  exists s w',
    SharedPtr.copy this w = Ret s w' /\
    SharedPtr.ptr_ s = SharedPtr.ptr_ this /\
    SharedPtr.ref_count_ s = Some c /\
    Function.wraps w' (SharedPtr.deleter_ s) d /\
    env w' = env w /\
    counters w' = <[c := live (-2147483648)]> (counters w) /\
    holders_kept w w' /\
    SharedPtr.use_count s w' = Ret (-2147483648) w' /\
    SharedPtr.use_count this w' = Ret (-2147483648) w' /\
    exists w'',
      SharedPtr.destroy s w' = Ret tt w'' /\
      env w'' = env w /\ counters w'' = counters w /\
      SharedPtr.use_count this w'' = Ret INT_MAX w''.
Proof.
  intros Hc Hn W.
  destruct (SharedPtr_share_spec (Function.default Function.default_init)
              this c INT_MAX d w Hc Hn W) as (l' & h & Hl' & Hh & E).
  change (wrap_int (INT_MAX + 1)) with (-2147483648) in E.
  set (s := SharedPtr.mk _ _ _) in E. set (w' := mkWorld _ _ _) in E.
  assert (Hn' : counters w' !! c = Some (live (-2147483648))) by apply lookup_insert_eq.
  assert (Ws : Function.wraps w' (SharedPtr.deleter_ s) d).
  { exists l', h. split_and!; [done| |done]. apply lookup_insert_eq. }
  destruct (SharedPtr_destroy_shared s c (-2147483648) d w' eq_refl Hn' ltac:(done) Ws)
    as (l & _ & Ed).
  change (wrap_int (-2147483648 - 1)) with INT_MAX in Ed.
  assert (Hback : <[c := live INT_MAX]> (counters w') = counters w).
  { subst w'. wsimpl. rewrite insert_insert_eq. by apply insert_id. }
  exists s, w'. split_and!; try done.
  - by apply (holders_kept_insert w w' l' (live h)).
  - unfold SharedPtr.use_count. cbn [SharedPtr.ref_count_ s]. by apply atomic_load_live.
  - unfold SharedPtr.use_count. rewrite Hc. by apply atomic_load_live.
  - eexists. split_and!; [exact Ed|done|exact Hback|].
    unfold SharedPtr.use_count. rewrite Hc. apply atomic_load_live.
    wsimpl. apply lookup_insert_eq.
Qed.

Lemma SharedPtr_count_wraps_at_INT_MAX_witness :
  SharedPtr.ref_count_ Demo.a = Some 1%positive /\
  counters Demo.crowded !! 1%positive = Some (live INT_MAX) /\
  Function.wraps Demo.crowded (SharedPtr.deleter_ Demo.a) Demo.logging /\
  exists s w',
    SharedPtr.copy Demo.a Demo.crowded = Ret s w' /\
    SharedPtr.use_count s w' = Ret (-2147483648) w' /\
    SharedPtr.use_count Demo.a w' = Ret (-2147483648) w'.
Proof.
  assert (W : Function.wraps Demo.crowded (SharedPtr.deleter_ Demo.a) Demo.logging).
  { exists 2%positive, (holds_Function (holds_callable Demo.logging)). by split_and!. }
  assert (Hn : counters Demo.crowded !! 1%positive = Some (live INT_MAX)) by done.
  split_and!; [done|exact Hn|exact W|].
  destruct (SharedPtr_count_wraps_at_INT_MAX Demo.a 1%positive Demo.logging
              Demo.crowded eq_refl Hn W)
    as (s & w' & E & _ & _ & _ & _ & _ & _ & U & U' & _).
  by exists s, w'.
Defined.

(** ** What an operation that returns has done to the holders *)

Lemma bind_ret_inv {S A B} (m : M S A) (k : A -> M S B) s b s' :
  bind m k s = Ret b s' -> exists a s1, m s = Ret a s1 /\ k a s1 = Ret b s'.
Proof. unfold bind. destruct (m s) as [a s1| | |]; try discriminate. eauto. Qed.

Lemma noexcept_ret_inv {S A} (m : M S A) s a s' :
  noexcept m s = Ret a s' -> m s = Ret a s'.
Proof. unfold noexcept. by destruct (m s). Qed.

Lemma scoped_ret_inv {S T A} (make : M S T) (dtor : T -> M S unit)
    (body : T -> M S A) s a s3 :
  scoped make dtor body s = Ret a s3 ->
  exists tmp s1 s2,
    make s = Ret tmp s1 /\ body tmp s1 = Ret a s2 /\ dtor tmp s2 = Ret tt s3.
Proof.
  unfold scoped, noexcept.
  destruct (make s) as [tmp s1| | |]; try discriminate.
  destruct (body tmp s1) as [a' s2| | |] eqn:Eb; try discriminate.
  - destruct (dtor tmp s2) as [[] s3'| | |] eqn:E; try discriminate.
    intros [= <- <-]. by exists tmp, s1, s2.
  - destruct (dtor tmp _) as [[] ?| | |]; discriminate.
Qed.

Section Kept.
Context {Args Rt Env : Type}.
Implicit Types (w : World Args Rt Env) (l : loc) (h : CallableHolder Args Rt Env)
  (c : Callable Args Rt Env) (f g : Function.t).

(** [w'] differs from [w] at most in holders that [w] does not know. *)
Lemma new_holder_inv h w l w' :
  new_holder h w = Ret l w' ->
  holders w !! l = None /\ w' = set_holders (<[l := live h]> (holders w)) w.
Proof.
  destruct (new_holder_spec h w) as (l0 & Hl0 & E). rewrite E.
  by intros [= <- <-].
Qed.

Lemma read_holder_inv l w h w' :
  read_holder l w = Ret h w' -> w' = w /\ holders w !! l = Some (live h).
Proof.
  unfold read_holder, load.
  destruct (holders w !! l) as [[h0|]|]; try discriminate. by intros [= <- <-].
Qed.

Lemma delete_holder_inv l w w' :
  delete_holder l w = Ret tt w' ->
  (exists h, holders w !! l = Some (live h)) /\
  w' = set_holders (<[l := freed]> (holders w)) w.
Proof.
  unfold delete_holder.
  destruct (holders w !! l) as [[h0|]|]; try discriminate.
  destruct (CallableHolder_destroy h0); try discriminate.
  intros [= <-]. eauto.
Qed.

Lemma invoke_inv h args w r w' :
  invoke h args w = Ret r w' -> holders w' = holders w /\ counters w' = counters w.
Proof.
  unfold invoke. destruct (CallableHolder_invoke h args (env w)); try discriminate.
  by intros [= _ <-].
Qed.

Lemma Function_call_inv f args w r w' :
  Function.call f args w = Ret r w' ->
  holders w' = holders w /\ counters w' = counters w.
Proof.
  unfold Function.call, throw, undef.
  destruct (Function.callable_ f) as [|[l|]]; try discriminate.
  intros H. apply bind_ret_inv in H as (h & w1 & H1 & H2).
  apply read_holder_inv in H1 as [-> _]. by apply invoke_inv in H2.
Qed.

Lemma Function_construct_inv c w f w' :
  Function.construct c w = Ret f w' ->
  exists l, f = Function.mk (Function.pointer (Some l)) /\ holders w !! l = None /\
    w' = set_holders (<[l := live (holds_callable c)]> (holders w)) w.
Proof.
  destruct (Function_construct_spec c w) as (l & Hl & E). rewrite E.
  intros [= <- <-]. eauto.
Qed.

Lemma Function_clone_inv l w l' w' :
  Function.clone l w = Ret l' w' ->
  exists h', holders w !! l' = None /\
    w' = set_holders (<[l' := live h']> (holders w)) w.
Proof.
  unfold Function.clone. intros H.
  apply bind_ret_inv in H as (h & w1 & H1 & H2).
  apply read_holder_inv in H1 as [-> _].
  destruct (CallableHolder_clone h) as [u|h']; [discriminate|].
  apply new_holder_inv in H2 as [? ->]. eauto.
Qed.

Lemma Function_copy_assign_inv f (o : Rhs Function.t) w g w' :
  Function.copy_assign f o w = Ret g w' ->
  holders_kept w w' /\ env w' = env w /\ counters w' = counters w.
Proof.
  unfold Function.copy_assign, undef, ret.
  destruct o as [|o].
  { intros [= _ <-]. split_and!; [apply holders_kept_refl|done..]. }
  destruct (Function.callable_ o) as [|[l|]]; try discriminate.
  - intros H. apply bind_ret_inv in H as (l' & w1 & H1 & [= _ <-]).
    apply Function_clone_inv in H1 as (h' & Hl' & ->).
    split_and!; [|done..]. by apply (holders_kept_insert w _ l' (live h')).
  - intros [= _ <-]. split_and!; [apply holders_kept_refl|done..].
Qed.

Lemma Function_construct_from_Function_inv f w g w' :
  Function.construct_from_Function f w = Ret g w' ->
  holders_kept w w' /\ env w' = env w /\ counters w' = counters w.
Proof.
  unfold Function.construct_from_Function. intros H.
  apply bind_ret_inv in H as (member & w1 & H1 & H2).
  apply bind_ret_inv in H2 as (l' & w2 & H2 & [= _ <-]).
  apply new_holder_inv in H2 as [Hl' ->].
  assert (w1 = w) as ->.
  { destruct (Function.callable_ f) as [|[l|]]; try discriminate.
    - apply bind_ret_inv in H1 as (h & w3 & H1 & H3).
      apply read_holder_inv in H1 as [-> _].
      destruct (CallableHolder_clone h); [discriminate|]. by injection H3.
    - by injection H1. }
  split_and!; [|done..]. by apply (holders_kept_insert w _ l' (live member)).
Qed.

Lemma Function_destroy_inv l w w' :
  Function.destroy (Function.mk (Function.pointer (Some l))) w = Ret tt w' ->
  w' = set_holders (<[l := freed]> (holders w)) w.
Proof.
  unfold Function.destroy. cbn [Function.callable_]. intros H.
  by apply delete_holder_inv in H as [_ ->].
Qed.

(** A temporary [Function] around [body]: the holder of the temporary is
    new and is deleted at the end, the rest is what [body] did. *)
Lemma scoped_Function_kept {A} c (body : Function.t -> M (World Args Rt Env) A)
    w r w' :
  (forall f w1 r1 w2, body f w1 = Ret r1 w2 ->
     holders_kept w1 w2 /\ counters w2 = counters w1) ->
  scoped (Function.construct c) Function.destroy body w = Ret r w' ->
  holders_kept w w' /\ counters w' = counters w /\
  exists f w1 w2,
    holders_kept w w1 /\ env w1 = env w /\ counters w1 = counters w /\
    body f w1 = Ret r w2 /\ env w' = env w2.
Proof.
  intros Hb H. apply scoped_ret_inv in H as (tmp & w1 & w2 & H1 & H2 & H3).
  apply Function_construct_inv in H1 as (l & -> & Hl & ->).
  apply Function_destroy_inv in H3 as ->.
  destruct (Hb _ _ _ _ H2) as [K2 C2].
  assert (K1 : holders_kept w (set_holders (<[l:=live (holds_callable c)]> (holders w)) w)).
  { by apply (holders_kept_insert w _ l (live (holds_callable c))). }
  split_and!.
  - eapply (holders_kept_freed_fresh w w2 _ l); [|done|done].
    by apply (holders_kept_trans _ _ _ K1).
  - wsimpl. by rewrite C2.
  - eexists _, _, w2. split_and!; [exact K1|done|done|exact H2|done].
Qed.
End Kept.

Section UniquePtrKept.
Context {Env : Type} (delete_T : Callable ptr unit Env).
Implicit Types (w : World ptr unit Env) (l : loc) (u this : UniquePtr.t)
  (f : Function.t) (p : ptr) (d : Callable ptr unit Env).

Lemma UniquePtr_construct_inv p f w u w' :
  UniquePtr.construct p f w = Ret u w' ->
  UniquePtr.ptr_ u = p /\
  holders_kept w w' /\ env w' = env w /\ counters w' = counters w.
Proof.
  unfold UniquePtr.construct. intros H.
  apply bind_ret_inv in H as (g & w1 & H1 & [= <- <-]).
  apply Function_construct_from_Function_inv in H1. by split.
Qed.

Lemma UniquePtr_reset_inv this p f w u w' :
  UniquePtr.reset this p f w = Ret u w' ->
  UniquePtr.ptr_ u = p /\ holders_kept w w' /\ counters w' = counters w.
Proof.
  unfold UniquePtr.reset. intros H.
  apply bind_ret_inv in H as ([] & w1 & H1 & H2).
  apply bind_ret_inv in H2 as (g & w2 & H2 & [= <- <-]).
  apply Function_call_inv in H1 as [Hh Hc].
  apply Function_copy_assign_inv in H2 as (K & _ & Hc2).
  split_and!; [done| |congruence].
  apply (holders_kept_trans w w1); [by apply holders_kept_eq|done].
Qed.

Lemma UniquePtr_default_inv w u w' :
  UniquePtr.default delete_T w = Ret u w' ->
  UniquePtr.ptr_ u = nullptr /\
  holders_kept w w' /\ env w' = env w /\ counters w' = counters w.
Proof.
  unfold UniquePtr.default, UniquePtr.with_default_deleter. intros H.
  apply scoped_Function_kept in H
    as (K & C & f & w1 & w2 & K1 & E1 & C1 & Hb & E2).
  - apply UniquePtr_construct_inv in Hb as (Hp & _ & E3 & _).
    split_and!; [done|done|congruence|done].
  - intros f w1 r1 w2 Hb. apply UniquePtr_construct_inv in Hb. tauto.
Qed.

Lemma UniquePtr_reset_default_inv this p w u w' :
  UniquePtr.with_default_deleter delete_T (UniquePtr.reset this p) w = Ret u w' ->
  UniquePtr.ptr_ u = p /\ holders_kept w w' /\ counters w' = counters w.
Proof.
  unfold UniquePtr.with_default_deleter. intros H.
  apply scoped_Function_kept in H
    as (K & C & f & w1 & w2 & K1 & E1 & C1 & Hb & E2).
  - apply UniquePtr_reset_inv in Hb as (Hp & _). by split_and!.
  - intros f w1 r1 w2 Hb. apply UniquePtr_reset_inv in Hb. tauto.
Qed.
End UniquePtrKept.

Section AnyKept.
Context {type : Type} `{EqDecision type}.
Variable value : type -> Type.
Variable value_initialized : forall T : type, value T.
Implicit Types (w : World ptr unit (heap (Any.Placeholder value))) (l h : loc)
  (T U : type) (a o : Any.t).

Lemma new_Holder_inv T (v : value T) w h w' :
  Any.new_Holder value T v w = Ret h w' ->
  holders w' = holders w /\ counters w' = counters w.
Proof.
  destruct (new_Holder_spec value T v w) as (h0 & _ & E). rewrite E.
  by intros [= _ <-].
Qed.

Lemma Any_clone_inv l w h w' :
  Any.clone value value_initialized l w = Ret h w' ->
  holders w' = holders w /\ counters w' = counters w.
Proof.
  unfold Any.clone. intros H.
  apply bind_ret_inv in H as (ph & w1 & H1 & H2).
  assert (w1 = w) as ->.
  { unfold Any.read_Placeholder in H1. destruct (load l (env w)); [discriminate|].
    by injection H1. }
  by apply new_Holder_inv in H2.
Qed.

(** The copy constructor deletes no holder that existed and touches no
    counter. *)
Lemma Any_copy_inv o w b w' :
  Any.copy value value_initialized o w = Ret b w' ->
  holders_kept w w' /\ counters w' = counters w.
Proof.
  unfold Any.copy. intros H.
  apply bind_ret_inv in H as (u & w1 & H1 & H2).
  apply UniquePtr_default_inv in H1 as (_ & K1 & _ & C1).
  destruct (UniquePtr.get (Any.content_ o)) as [l|].
  - apply bind_ret_inv in H2 as (h & w2 & H2 & H3).
    apply bind_ret_inv in H3 as (u' & w3 & H3 & [= _ <-]).
    apply Any_clone_inv in H2 as [Hh2 C2].
    apply UniquePtr_reset_default_inv in H3 as (_ & K3 & C3).
    split; [|congruence].
    apply (holders_kept_trans w w1); [done|].
    apply (holders_kept_trans w1 w2); [by apply holders_kept_eq|done].
  - injection H2 as _ <-. by split.
Qed.

Lemma Any_construct_inv T (v : value T) w a w' :
  Any.construct value T v w = Ret a w' ->
  holders_kept w w' /\ counters w' = counters w.
Proof.
  unfold Any.construct. intros H.
  apply bind_ret_inv in H as (u & w1 & H1 & H2).
  apply UniquePtr_default_inv in H1 as (_ & K1 & _ & C1).
  apply bind_ret_inv in H2 as (h & w2 & H2 & H3).
  apply bind_ret_inv in H3 as (u' & w3 & H3 & [= _ <-]).
  apply new_Holder_inv in H2 as [Hh2 C2].
  apply UniquePtr_reset_default_inv in H3 as (_ & K3 & C3).
  split; [|congruence].
  apply (holders_kept_trans w w1); [done|].
  apply (holders_kept_trans w1 w2); [by apply holders_kept_eq|done].
Qed.
End AnyKept.

(** ** swap *)

Section Swap.
Context {Args Rt Env : Type}.
Implicit Types (w : World Args Rt Env) (l : loc) (c : Callable Args Rt Env)
  (a b : Function.t).

(** [std::swap] on two [Function]s exchanges the pointers and then
    destroys its temporary, which still points where [a] pointed: the
    holder [b] ends up with is deleted. *)
Lemma Function_std_swap_spec a b c w :
  Function.wraps w a c ->
  exists la, a = Function.mk (Function.pointer (Some la)) /\
    Function.std_swap a b w =
      Ret (b, a) (set_holders (<[la := freed]> (holders w)) w).
Proof.
  intros W. destruct (Function_destroy_wraps a c w W) as (la & -> & E).
  exists la. split; [done|]. destruct b as [cb].
  unfold Function.std_swap, Function.move, Function.move_assign.
  cbn [Function.callable_]. apply noexcept_ret.
  by rewrite (bind_ret _ _ _ _ _ E).
Qed.

Lemma Function_std_swap_self_spec a c w :
  Function.wraps w a c ->
  exists la, a = Function.mk (Function.pointer (Some la)) /\
    Function.std_swap_self a w =
      Ret a (set_holders (<[la := freed]> (holders w)) w).
Proof.
  intros W. destruct (Function_destroy_wraps a c w W) as (la & -> & E).
  exists la. split; [done|].
  unfold Function.std_swap_self, Function.move, Function.move_assign.
  cbn [Function.callable_]. apply noexcept_ret.
  by rewrite (bind_ret _ _ _ _ _ E).
Qed.
End Swap.

(** X10.  [SharedPtr::swap] exchanges the pointers and the counters,
    but the [std::swap] of the two [deleter_] members deletes the holder
    that [this] had and that [other] receives.  After [this.swap(other)],
    [this] has [other]'s pointee, counter and (when the two destroyers were
    in different holders) a working destroyer; [other] has [this]'s pointee
    and counter and a dangling destroyer: calling it is a use after free,
    and destroying [other] is undefined whatever its count.  Swapping an
    object with itself deletes its own holder the same way. *)
Theorem SharedPtr_swap_deletes_the_destroyer_of_other {Env : Type}
    (this other : SharedPtr.t) (d1 : Callable ptr unit Env) (w : World ptr unit Env) :
  Function.wraps w (SharedPtr.deleter_ this) d1 ->
  exists this' other' w',
    SharedPtr.swap this (another other) w = Ret (this', another other') w' /\
    this' = SharedPtr.mk (SharedPtr.ptr_ other) (SharedPtr.ref_count_ other)
              (SharedPtr.deleter_ other) /\
    other' = SharedPtr.mk (SharedPtr.ptr_ this) (SharedPtr.ref_count_ this)
               (SharedPtr.deleter_ this) /\
    env w' = env w /\ counters w' = counters w /\
    (forall d2, Function.wraps w (SharedPtr.deleter_ other) d2 ->
       SharedPtr.deleter_ other <> SharedPtr.deleter_ this ->
       Function.wraps w' (SharedPtr.deleter_ this') d2) /\
    (forall p, Function.call (SharedPtr.deleter_ other') p w' = Undef use_after_free) /\
    (exists u, SharedPtr.destroy other' w' = Undef u) /\
    SharedPtr.swap this itself w = Ret (this, itself) w'.
Proof.
  intros W.
  destruct (Function_std_swap_spec _ (SharedPtr.deleter_ other) _ _ W) as (la & Ha & E).
  destruct (Function_std_swap_self_spec _ _ _ W) as (la' & Ha' & E').
  assert (la' = la) as -> by congruence.
  set (w' := set_holders _ w) in E, E'.
  assert (Hf : holders w' !! la = Some freed) by apply lookup_insert_eq.
  assert (Hcall : forall p, Function.call (SharedPtr.deleter_ this) p w'
                            = Undef use_after_free).
  { intros p. rewrite Ha. by apply Function_call_freed. }
  eexists _, _, w'. split_and!; [|reflexivity|reflexivity|done|done| | | |].
  - unfold SharedPtr.swap. apply noexcept_ret.
    assert (Es : SharedPtr.swap_with this other w =
                 Ret (SharedPtr.mk (SharedPtr.ptr_ other) (SharedPtr.ref_count_ other)
                        (SharedPtr.deleter_ other),
                      SharedPtr.mk (SharedPtr.ptr_ this) (SharedPtr.ref_count_ this)
                        (SharedPtr.deleter_ this)) w').
    { unfold SharedPtr.swap_with. by rewrite (bind_ret _ _ _ _ _ E). }
    by rewrite (bind_ret _ _ _ _ _ Es).
  - intros d2 (lo & ho & Ho & Hlo & Hho) Hne. cbn [SharedPtr.deleter_].
    exists lo, ho. split_and!; [done| |done].
    subst w'. wsimpl. rewrite lookup_insert_ne; [done|]. intros <-.
    apply Hne. by rewrite Ho, Ha.
  - done.
  - cbn [SharedPtr.deleter_]. unfold SharedPtr.destroy, SharedPtr.release.
    cbn [SharedPtr.ref_count_ SharedPtr.deleter_ SharedPtr.ptr_].
    assert (Hd : forall w0, holders w0 = holders w' ->
              Function.destroy (SharedPtr.deleter_ this) w0 = Undef double_free).
    { intros w0 E0. rewrite Ha. apply Function_destroy_freed. by rewrite E0. }
    destruct (SharedPtr.ref_count_ this) as [c|].
    + unfold noexcept, bind at 1 2. unfold fetch_sub.
      destruct (load c (counters w')) as [u|n]; [by exists u|].
      destruct (store c _ (counters w')) as [u|hs]; [by exists u|].
      destruct (n =? 1).
      * unfold bind at 1. rewrite Ha.
        rewrite (Function_call_freed la) by done. by eexists.
      * unfold ret. rewrite Hd by done. by eexists.
    + unfold noexcept, bind, ret. rewrite Hd by done. by eexists.
  - unfold SharedPtr.swap. apply noexcept_ret.
    rewrite (bind_ret _ _ _ _ _ E'). by destruct this.
Qed.

Lemma SharedPtr_swap_deletes_the_destroyer_of_other_witness :
  Function.wraps Demo.shared_by_two_with_del2 (SharedPtr.deleter_ Demo.a) Demo.logging /\
  exists this' other' w',
    SharedPtr.swap Demo.a (another Demo.b) Demo.shared_by_two_with_del2
      = Ret (this', another other') w' /\
    Function.call (SharedPtr.deleter_ other') (Some 1%positive) w'
      = Undef use_after_free /\
    exists u, SharedPtr.destroy other' w' = Undef u.
Proof.
  assert (W : Function.wraps Demo.shared_by_two_with_del2 (SharedPtr.deleter_ Demo.a)
                Demo.logging).
  { exists 2%positive, (holds_Function (holds_callable Demo.logging)). by split_and!. }
  split; [exact W|].
  destruct (SharedPtr_swap_deletes_the_destroyer_of_other Demo.a Demo.b Demo.logging
              Demo.shared_by_two_with_del2 W)
    as (this' & other' & w' & E & _ & _ & _ & _ & _ & Hc & Hd & _).
  exists this', other', w'. split_and!; [exact E|apply Hc|exact Hd].
Defined.

(** X11.  [UniquePtr::swap] has the same defect: after
    [this.swap(other)], [other] holds the pointer [this] had together with a
    destroyer whose holder has been deleted, so the destructor of [other],
    which calls the destroyer unconditionally, is a use after free, and so
    is [other.reset(...)]; [this] has [other]'s pointer and destroyer.  A
    self-swap leaves the object with its own holder deleted. *)
Theorem UniquePtr_swap_deletes_the_destroyer_of_other {Env : Type}
    (this other : UniquePtr.t) (d1 : Callable ptr unit Env) (w : World ptr unit Env) :
  Function.wraps w (UniquePtr.deleter_ this) d1 ->
  exists this' other' w',
    UniquePtr.swap this (another other) w = Ret (this', another other') w' /\
    this' = UniquePtr.mk (UniquePtr.ptr_ other) (UniquePtr.deleter_ other) /\
    other' = UniquePtr.mk (UniquePtr.ptr_ this) (UniquePtr.deleter_ this) /\
    env w' = env w /\ counters w' = counters w /\
    (forall d2, Function.wraps w (UniquePtr.deleter_ other) d2 ->
       UniquePtr.deleter_ other <> UniquePtr.deleter_ this ->
       Function.wraps w' (UniquePtr.deleter_ this') d2) /\
    UniquePtr.destroy other' w' = Undef use_after_free /\
    (forall p f, UniquePtr.reset other' p f w' = Undef use_after_free) /\
    UniquePtr.swap this itself w = Ret (this, itself) w' /\
    UniquePtr.destroy this w' = Undef use_after_free.
Proof.
  intros W.
  destruct (Function_std_swap_spec _ (UniquePtr.deleter_ other) _ _ W) as (la & Ha & E).
  destruct (Function_std_swap_self_spec _ _ _ W) as (la' & Ha' & E').
  assert (la' = la) as -> by congruence.
  set (w' := set_holders _ w) in E, E'.
  assert (Hf : holders w' !! la = Some freed) by apply lookup_insert_eq.
  assert (Hcall : forall p, Function.call (UniquePtr.deleter_ this) p w'
                            = Undef use_after_free).
  { intros p. rewrite Ha. by apply Function_call_freed. }
  eexists _, _, w'. split_and!; [|reflexivity|reflexivity|done|done| | | | |].
  - unfold UniquePtr.swap. apply noexcept_ret.
    assert (Es : UniquePtr.swap_with this other w =
                 Ret (UniquePtr.mk (UniquePtr.ptr_ other) (UniquePtr.deleter_ other),
                      UniquePtr.mk (UniquePtr.ptr_ this) (UniquePtr.deleter_ this)) w').
    { unfold UniquePtr.swap_with. by rewrite (bind_ret _ _ _ _ _ E). }
    by rewrite (bind_ret _ _ _ _ _ Es).
  - intros d2 (lo & ho & Ho & Hlo & Hho) Hne. cbn [UniquePtr.deleter_].
    exists lo, ho. split_and!; [done| |done].
    subst w'. wsimpl. rewrite lookup_insert_ne; [done|]. intros <-.
    apply Hne. by rewrite Ho, Ha.
  - unfold UniquePtr.destroy. cbn [UniquePtr.deleter_ UniquePtr.ptr_].
    apply noexcept_undef. by apply bind_undef.
  - intros p f. unfold UniquePtr.reset. cbn [UniquePtr.deleter_ UniquePtr.ptr_].
    by apply bind_undef.
  - unfold UniquePtr.swap. apply noexcept_ret.
    rewrite (bind_ret _ _ _ _ _ E'). by destruct this.
  - unfold UniquePtr.destroy. apply noexcept_undef. by apply bind_undef.
Qed.

Lemma UniquePtr_swap_deletes_the_destroyer_of_other_witness :
  Function.wraps Demo.two_values (UniquePtr.deleter_ (Any.content_ Demo.x))
    (Any.delete_Placeholder Demo.cpp_value) /\
  exists this' other' w',
    UniquePtr.swap (Any.content_ Demo.x) (another (Any.content_ Demo.y)) Demo.two_values
      = Ret (this', another other') w' /\
    UniquePtr.ptr_ this' = Some 2%positive /\
    UniquePtr.ptr_ other' = Some 1%positive /\
    UniquePtr.destroy other' w' = Undef use_after_free.
Proof.
  assert (W : Function.wraps Demo.two_values (UniquePtr.deleter_ (Any.content_ Demo.x))
                (Any.delete_Placeholder Demo.cpp_value)).
  { exists 4%positive, (holds_callable (Any.delete_Placeholder Demo.cpp_value)).
    by split_and!. }
  split; [exact W|].
  destruct (UniquePtr_swap_deletes_the_destroyer_of_other (Any.content_ Demo.x)
              (Any.content_ Demo.y) _ Demo.two_values W)
    as (this' & other' & w' & E & -> & -> & _ & _ & _ & Hd & _).
  eexists _, _, w'. split_and!; [exact E|done|done|exact Hd].
Defined.

(** ** Any: assignment and destruction *)

Section AnyAssign.
Context {type : Type} `{EqDecision type}.
Variable value : type -> Type.
Variable value_initialized : forall T : type, value T.
Implicit Types (w : World ptr unit (heap (Any.Placeholder value))) (l h : loc)
  (T U : type) (a o this : Any.t).

Lemma UniquePtr_swap_with_spec (this other : UniquePtr.t) d w :
  Function.wraps w (UniquePtr.deleter_ this) d ->
  exists la,
    UniquePtr.deleter_ this = Function.mk (Function.pointer (Some la)) /\
    UniquePtr.swap_with this other w =
      Ret (UniquePtr.mk (UniquePtr.ptr_ other) (UniquePtr.deleter_ other),
           UniquePtr.mk (UniquePtr.ptr_ this) (UniquePtr.deleter_ this))
          (set_holders (<[la := freed]> (holders w)) w).
Proof.
  intros W.
  destruct (Function_std_swap_spec _ (UniquePtr.deleter_ other) _ _ W) as (la & Ha & E).
  exists la. split; [done|].
  unfold UniquePtr.swap_with. by rewrite (bind_ret _ _ _ _ _ E).
Qed.

(** The converting constructor, with the destroyer it leaves in
    [content_]. *)
Lemma Any_construct_wraps T (v : value T) w :
  exists a h w',
    Any.construct value T v w = Ret a w' /\
    UniquePtr.ptr_ (Any.content_ a) = Some h /\
    env w !! h = None /\
    env w' = <[h := live (Any.Holder value T v)]> (env w) /\
    counters w' = counters w /\
    holders_kept w w' /\
    Function.wraps w' (UniquePtr.deleter_ (Any.content_ a)) (Any.delete_Placeholder value).
Proof.
  destruct (UniquePtr_default_spec (Any.delete_Placeholder value) w)
    as (u & w1 & E1 & Hp1 & Hw1 & He1 & Hc1).
  destruct (new_Holder_spec value T v w1) as (h & Hh & E2).
  set (w2 := set_env _ w1) in E2.
  destruct (UniquePtr_reset_default_spec (Any.delete_Placeholder value)
              u (Some h) _ (env w2) w2 Hw1) as (u' & w3 & E3 & Hp3 & Hw3 & He3 & Hc3).
  { by rewrite Hp1. }
  assert (E : Any.construct value T v w = Ret (Any.mk u') w3).
  { unfold Any.construct. rewrite (bind_ret _ _ _ _ _ E1).
    rewrite (bind_ret _ _ _ _ _ E2). by rewrite (bind_ret _ _ _ _ _ E3). }
  exists (Any.mk u'), h, w3. split_and!; try done.
  - congruence.
  - rewrite He3. subst w2. wsimpl. by rewrite He1.
  - rewrite Hc3. subst w2. by wsimpl.
  - by apply Any_construct_inv in E as [K _].
Qed.

Lemma Any_copy_assign_undefined this o d w temp w1 :
  Function.wraps w (UniquePtr.deleter_ (Any.content_ this)) d ->
  Any.copy value value_initialized o w = Ret temp w1 ->
  Any.copy_assign value value_initialized this (another o) w = Undef use_after_free.
Proof.
  intros W Ec.
  pose proof (Any_copy_inv _ _ _ _ _ _ Ec) as [K _].
  pose proof (wraps_kept _ _ _ _ K W) as W1.
  destruct (UniquePtr_swap_with_spec (Any.content_ this) (Any.content_ temp) d w1 W1)
    as (la & Ha & Es).
  set (w2 := set_holders _ w1) in Es.
  unfold Any.copy_assign. rewrite (bind_ret _ _ _ _ _ Ec).
  rewrite (bind_ret _ _ _ _ _ (noexcept_ret _ _ _ _ Es)).
  apply bind_undef. unfold Any.destroy, UniquePtr.destroy.
  cbn [Any.content_ snd UniquePtr.deleter_ UniquePtr.ptr_].
  apply noexcept_undef, bind_undef. rewrite Ha.
  apply Function_call_freed. apply lookup_insert_eq.
Qed.
End AnyAssign.

(** X12.  [Any::operator=(const Any &)] between two distinct objects
    never completes.  It copies the right operand into [temp], swaps
    [content_] with [temp.content_], which deletes the holder of the
    destroyer that [temp] receives, and then destroys [temp], whose
    destructor calls that destroyer: a use after free.  This holds for every
    left operand with a working destroyer and every right operand that can
    be copied, in particular for any two objects that were constructed from
    values.  Only self-assignment, which the guard skips, returns. *)
Theorem Any_copy_assign_is_a_use_after_free {type : Type} `{EqDecision type}
    (value : type -> Type) (value_initialized : forall T : type, value T) :
  (forall (this o : Any.t) d (w : World ptr unit (heap (Any.Placeholder value)))
          temp w1,
     Function.wraps w (UniquePtr.deleter_ (Any.content_ this)) d ->
     Any.copy value value_initialized o w = Ret temp w1 ->
     Any.copy_assign value value_initialized this (another o) w
       = Undef use_after_free) /\
  (forall T1 (v1 : value T1) T2 (v2 : value T2)
          (w : World ptr unit (heap (Any.Placeholder value))),
     exists a w1 b w2,
       Any.construct value T1 v1 w = Ret a w1 /\
       Any.construct value T2 v2 w1 = Ret b w2 /\
       Any.copy_assign value value_initialized a (another b) w2
         = Undef use_after_free /\
       Any.copy_assign value value_initialized a itself w2 = Ret a w2).
Proof.
  split.
  - intros this o d w temp w1. apply Any_copy_assign_undefined.
  - intros T1 v1 T2 v2 w.
    destruct (Any_construct_wraps value T1 v1 w)
      as (a & h1 & w1 & E1 & Hp1 & _ & _ & _ & _ & W1).
    destruct (Any_construct_wraps value T2 v2 w1)
      as (b & h2 & w2 & E2 & Hp2 & _ & He2 & _ & K2 & _).
    assert (Hh2 : env w2 !! h2 = Some (live (Any.Holder value T2 v2))).
    { rewrite He2. apply lookup_insert_eq. }
    destruct (Any_copy_spec value value_initialized b h2 _ w2 Hp2 Hh2)
      as (temp & h' & w3 & Ec & _).
    exists a, w1, b, w2. split_and!; [done|done| |done].
    apply (Any_copy_assign_undefined value value_initialized a b
             (Any.delete_Placeholder value) w2 temp w3); [|done].
    by apply (wraps_kept w1).
Qed.

(** ** The holders behind a [UniquePtr] and an [Any], address by address *)

Section UniquePtrExact.
Context {Env : Type} (delete_T : Callable ptr unit Env).
Implicit Types (w : World ptr unit Env) (l : loc) (u this : UniquePtr.t)
  (f : Function.t) (p : ptr) (c d : Callable ptr unit Env).

(** [UniquePtr<T> u(p, c);] for a callable [c]: the parameter object
    lives in [l1] and is gone when the constructor has returned, [u] points
    to [l2]. *)
Lemma UniquePtr_construct_scoped_exact p c w :
  exists l1 l2,
    holders w !! l1 = None /\ holders w !! l2 = None /\ l1 <> l2 /\
    scoped (Function.construct c) Function.destroy (UniquePtr.construct p) w =
      Ret (UniquePtr.mk p (Function.mk (Function.pointer (Some l2))))
          (set_holders (<[l1 := freed]>
                          (<[l2 := live (holds_Function (holds_callable c))]>
                             (holders w))) w).
Proof.
  destruct (Function_construct_spec c w) as (l1 & Hl1 & E1).
  set (w1 := set_holders _ w) in E1.
  assert (H1 : holders w1 !! l1 = Some (live (holds_callable c)))
    by apply lookup_insert_eq.
  destruct (Function_construct_from_Function_spec _ _ c _ H1 eq_refl)
    as (l2 & Hl2 & E2).
  set (w2 := set_holders _ w1) in E2.
  assert (Hne : l1 <> l2). { intros <-. rewrite H1 in Hl2. discriminate. }
  assert (Hl2' : holders w !! l2 = None).
  { subst w1. wsimpl. by rewrite lookup_insert_ne in Hl2. }
  assert (H2 : holders w2 !! l1 = Some (live (holds_callable c))).
  { subst w2. wsimpl. by rewrite lookup_insert_ne. }
  exists l1, l2. split_and!; try done.
  eapply scoped_ret; [exact E1| |].
  - unfold UniquePtr.construct. rewrite (bind_ret _ _ _ _ _ E2). reflexivity.
  - unfold Function.destroy. cbn [Function.callable_].
    rewrite (delete_holder_live _ _ c _ H2 eq_refl).
    subst w2 w1. unfold set_holders. wsimpl. do 2 f_equal. heap_eq.
Qed.

(** [this.reset(p)], the destroyer defaulted: the parameter object lives
    in [l3], [this] ends up pointing to [l4], and the holder [this] pointed
    to before stays as it is. *)
Lemma UniquePtr_reset_default_exact this p d e' w :
  Function.wraps w (UniquePtr.deleter_ this) d ->
  d (UniquePtr.ptr_ this) (env w) = Ret tt e' ->
  exists l3 l4,
    holders w !! l3 = None /\ holders w !! l4 = None /\ l3 <> l4 /\
    UniquePtr.with_default_deleter delete_T (UniquePtr.reset this p) w =
      Ret (UniquePtr.mk p (Function.mk (Function.pointer (Some l4))))
          (mkWorld e'
             (<[l3 := freed]> (<[l4 := live (holds_callable delete_T)]> (holders w)))
             (counters w)).
Proof.
  intros (l & h & Hd & Hl & Hh) He.
  destruct (Function_construct_spec (UniquePtr.DefaultDeleter delete_T) w)
    as (l3 & Hl3 & E1).
  set (w1 := set_holders _ w) in E1.
  assert (l <> l3). { intros ->. rewrite Hl3 in Hl. discriminate. }
  assert (Hc : Function.call (UniquePtr.deleter_ this) (UniquePtr.ptr_ this) w1
               = Ret tt (set_env e' w1)).
  { apply (Function_call_wraps _ d); [|done].
    exists l, h. split_and!; [done| |done].
    subst w1. wsimpl. by rewrite lookup_insert_ne. }
  set (w2 := set_env e' w1) in Hc.
  assert (H1 : holders w2 !! l3 = Some (live (holds_callable delete_T)))
    by apply lookup_insert_eq.
  destruct (Function_copy_assign_spec (UniquePtr.deleter_ this) _ _ delete_T _ H1 eq_refl)
    as (l4 & Hl4 & E2).
  set (w3 := set_holders _ w2) in E2.
  assert (Hne : l3 <> l4). { intros <-. rewrite H1 in Hl4. discriminate. }
  assert (Hl4' : holders w !! l4 = None).
  { subst w2 w1. wsimpl. by rewrite lookup_insert_ne in Hl4. }
  assert (H3 : holders w3 !! l3 = Some (live (holds_callable delete_T))).
  { subst w3. wsimpl. by rewrite lookup_insert_ne. }
  exists l3, l4. split_and!; try done.
  unfold UniquePtr.with_default_deleter.
  eapply scoped_ret; [exact E1| |].
  - unfold UniquePtr.reset. rewrite (bind_ret _ _ _ _ _ Hc).
    rewrite (bind_ret _ _ _ _ _ E2). reflexivity.
  - unfold Function.destroy. cbn [Function.callable_].
    rewrite (delete_holder_live _ _ delete_T _ H3 eq_refl).
    subst w3 w2 w1. unfold set_holders, set_env. wsimpl. do 2 f_equal. heap_eq.
Qed.

(** [~UniquePtr()] when the destroyer returns. *)
Lemma UniquePtr_destroy_spec u l h d e' w :
  UniquePtr.deleter_ u = Function.mk (Function.pointer (Some l)) ->
  holders w !! l = Some (live h) -> innermost h = Some d ->
  d (UniquePtr.ptr_ u) (env w) = Ret tt e' ->
  UniquePtr.destroy u w = Ret tt (mkWorld e' (<[l := freed]> (holders w)) (counters w)).
Proof.
  intros Hu Hl Hh He. unfold UniquePtr.destroy. apply noexcept_ret.
  assert (W : Function.wraps w (UniquePtr.deleter_ u) d) by (by exists l, h).
  rewrite (bind_ret _ _ _ _ _ (Function_call_wraps _ _ _ _ _ _ W He)).
  rewrite Hu. unfold Function.destroy. cbn [Function.callable_].
  by rewrite (delete_holder_live l h d).
Qed.
End UniquePtrExact.

Section AnyExact.
Context {type : Type} `{EqDecision type}.
Variable value : type -> Type.
Implicit Types (w : World ptr unit (heap (Any.Placeholder value))) (l h : loc)
  (T U : type) (a o this : Any.t).

Lemma delete_Placeholder_live h (ph : Any.Placeholder value) (e : heap (Any.Placeholder value)) :
  e !! h = Some (live ph) ->
  Any.delete_Placeholder value (Some h) e = Ret tt (<[h := freed]> e).
Proof. intros E. unfold Any.delete_Placeholder. by rewrite (dealloc_live _ _ _ E). Qed.

(** From a default-constructed [content_] to one that owns the value at
    [h], holder by holder. *)
Lemma Any_install_exact u l2
    (hd : CallableHolder ptr unit (heap (Any.Placeholder value))) h w :
  UniquePtr.ptr_ u = nullptr ->
  UniquePtr.deleter_ u = Function.mk (Function.pointer (Some l2)) ->
  holders w !! l2 = Some (live hd) ->
  innermost hd = Some (Any.delete_Placeholder value) ->
  exists l3 l4,
    holders w !! l3 = None /\ holders w !! l4 = None /\ l3 <> l4 /\
    UniquePtr.with_default_deleter (Any.delete_Placeholder value)
      (UniquePtr.reset u (Some h)) w =
      Ret (UniquePtr.mk (Some h) (Function.mk (Function.pointer (Some l4))))
          (set_holders
             (<[l3 := freed]>
                (<[l4 := live (holds_callable (Any.delete_Placeholder value))]>
                   (holders w))) w).
Proof.
  intros Hp Hd Hl2 Hh2.
  destruct (UniquePtr_reset_default_exact (Any.delete_Placeholder value) u (Some h)
              (Any.delete_Placeholder value) (env w) w)
    as (l3 & l4 & Hl3 & Hl4 & Hne & E).
  - by exists l2, hd.
  - by rewrite Hp.
  - exists l3, l4. by split_and!.
Qed.

Lemma Any_construct_exact T (v : value T) w :
  exists h l1 l2 l3 l4,
    env w !! h = None /\
    holders w !! l1 = None /\ holders w !! l2 = None /\
    holders w !! l3 = None /\ holders w !! l4 = None /\
    l2 <> l4 /\ l2 <> l3 /\ l2 <> l1 /\ l3 <> l4 /\
    Any.construct value T v w =
      Ret (Any.mk (UniquePtr.mk (Some h) (Function.mk (Function.pointer (Some l4)))))
          (mkWorld
             (<[h := live (Any.Holder value T v)]> (env w))
             (<[l3 := freed]>
                (<[l4 := live (holds_callable (Any.delete_Placeholder value))]>
                   (<[l1 := freed]>
                      (<[l2 := live (holds_Function
                                       (holds_callable (Any.delete_Placeholder value)))]>
                         (holders w)))))
             (counters w)).
Proof.
  destruct (UniquePtr_construct_scoped_exact nullptr (Any.delete_Placeholder value) w)
    as (l1 & l2 & Hl1 & Hl2 & Hne12 & E1).
  set (u := UniquePtr.mk _ _) in E1. set (w1 := set_holders _ w) in E1.
  destruct (new_Holder_spec value T v w1) as (h & Hh & E2).
  set (w2 := set_env _ w1) in E2.
  assert (H2 : holders w2 !! l2 =
               Some (live (holds_Function (holds_callable (Any.delete_Placeholder value))))).
  { subst w2 w1. wsimpl. rewrite lookup_insert_ne by done. apply lookup_insert_eq. }
  destruct (Any_install_exact u l2 _ h w2 eq_refl eq_refl H2 eq_refl)
    as (l3 & l4 & Hl3 & Hl4 & Hne34 & E3).
  assert (l2 <> l3). { intros <-. rewrite H2 in Hl3. discriminate. }
  assert (l2 <> l4). { intros <-. rewrite H2 in Hl4. discriminate. }
  assert (H1f : holders w2 !! l1 = Some freed) by apply lookup_insert_eq.
  assert (l1 <> l3). { intros <-. rewrite H1f in Hl3. discriminate. }
  assert (l1 <> l4). { intros <-. rewrite H1f in Hl4. discriminate. }
  exists h, l1, l2, l3, l4. split_and!; try done.
  - subst w2 w1. wsimpl. by rewrite !lookup_insert_ne in Hl3 by done.
  - subst w2 w1. wsimpl. by rewrite !lookup_insert_ne in Hl4 by done.
  - unfold Any.construct. unfold UniquePtr.default, UniquePtr.with_default_deleter at 1.
    unfold UniquePtr.DefaultDeleter.
    rewrite (bind_ret _ _ _ _ _ E1). rewrite (bind_ret _ _ _ _ _ E2).
    rewrite (bind_ret _ _ _ _ _ E3). reflexivity.
Qed.
End AnyExact.

(** X13.  Every [Any] that is constructed from a value leaks one
    holder.  [content_] is first default-constructed, with a destroyer in a
    holder of its own, and the [reset] that installs the value overwrites
    that destroyer without deleting its holder.  So after the object has
    been constructed and destroyed, the value's block is deleted and no
    counter was touched, but exactly one of the holder blocks allocated on
    the way (a [CallableHolder<Function>], with the clone that its member
    owns) is still allocated, and nothing points to it.  A
    default-constructed [Any] leaves nothing behind. *)
Theorem Any_construct_destroy_leaks_one_holder {type : Type} `{EqDecision type}
    (value : type -> Type) (T : type) (v : value T)
    (w : World ptr unit (heap (Any.Placeholder value))) :
  (exists a h l w1 w2,
     Any.construct value T v w = Ret a w1 /\
     Any.destroy value a w1 = Ret tt w2 /\
     env w !! h = None /\
     env w2 = <[h := freed]> (env w) /\
     counters w2 = counters w /\
     holders_kept w w2 /\
     UniquePtr.deleter_ (Any.content_ a) <> Function.mk (Function.pointer (Some l)) /\
     (forall l0, holder_left w w2 l0 <-> l0 = l)) /\
  (exists a w1 w2,
     Any.default value w = Ret a w1 /\
     Any.destroy value a w1 = Ret tt w2 /\
     env w2 = env w /\ counters w2 = counters w /\
     holders_kept w w2 /\ no_holder_left w w2).
Proof.
  split.
  - destruct (Any_construct_exact value T v w)
      as (h & l1 & l2 & l3 & l4 & Hh & Hl1 & Hl2 & Hl3 & Hl4 & N24 & N23 & N21 & N34 & E).
    set (a := Any.mk _) in E. set (w1 := mkWorld _ _ _) in E.
    assert (H4 : holders w1 !! l4 =
                 Some (live (holds_callable (Any.delete_Placeholder value)))).
    { subst w1. wsimpl. rewrite lookup_insert_ne by done. apply lookup_insert_eq. }
    assert (Ed : Any.destroy value a w1 =
                 Ret tt (mkWorld (<[h := freed]> (env w1)) (<[l4 := freed]> (holders w1))
                           (counters w1))).
    { unfold Any.destroy.
      apply (UniquePtr_destroy_spec (Any.content_ a) l4
               (holds_callable (Any.delete_Placeholder value))
               (Any.delete_Placeholder value)); try done.
      apply (delete_Placeholder_live value h (Any.Holder value T v)).
      apply lookup_insert_eq. }
    exists a, h, l2, w1. eexists. split_and!; [exact E|exact Ed|done| |done| | |].
    + subst w1. wsimpl. by rewrite insert_insert_eq.
    + intros l0 b Hb. subst w1. wsimpl. rewrite !lookup_insert.
      repeat case_decide; congruence.
    + subst a. cbn. congruence.
    + intros l0. unfold holder_left. subst w1. wsimpl. rewrite !lookup_insert.
      split.
      * intros [Hn [h0 Hl0]]. repeat case_decide; congruence.
      * intros ->. split; [done|]. repeat case_decide; try congruence. eauto.
  - destruct (UniquePtr_construct_scoped_exact nullptr (Any.delete_Placeholder value) w)
      as (l1 & l2 & Hl1 & Hl2 & Hne12 & E1).
    set (u := UniquePtr.mk _ _) in E1. set (w1 := set_holders _ w) in E1.
    assert (H2 : holders w1 !! l2 =
                 Some (live (holds_Function (holds_callable (Any.delete_Placeholder value))))).
    { subst w1. wsimpl. rewrite lookup_insert_ne by done. apply lookup_insert_eq. }
    assert (Ed : Any.destroy value (Any.mk u) w1 =
                 Ret tt (mkWorld (env w1) (<[l2 := freed]> (holders w1)) (counters w1))).
    { unfold Any.destroy.
      by apply (UniquePtr_destroy_spec u l2
                  (holds_Function (holds_callable (Any.delete_Placeholder value)))
                  (Any.delete_Placeholder value)). }
    exists (Any.mk u), w1. eexists. split_and!; [|exact Ed|done|done| |].
    + unfold Any.default, UniquePtr.default, UniquePtr.with_default_deleter.
      unfold UniquePtr.DefaultDeleter. by rewrite (bind_ret _ _ _ _ _ E1).
    + intros l0 b Hb. subst w1. wsimpl. rewrite !lookup_insert.
      repeat case_decide; congruence.
    + intros l0 h0. subst w1. wsimpl. rewrite !lookup_insert.
      repeat case_decide; congruence.
Qed.

(** ** UniquePtr: construction, destruction and replacement of the destroyer *)

(** X14.  [make_unique] followed by the destruction of the object gives
    everything back.  When [new T(args...)] yields the address [p],
    [make_unique] returns a non-empty [UniquePtr] holding [p]; destroying it
    runs [delete] on [p] once, touches no counter and deletes every holder
    the two steps allocated. *)
Theorem make_unique_then_destroy {Env CtorArgs : Type}
    (delete_T : Callable ptr unit Env) (new_T : CtorArgs -> Env -> Outcome Env loc)
    (args : CtorArgs) (w : World ptr unit Env) (p : loc) (e1 e2 : Env) :
  new_T args (env w) = Ret p e1 ->
  delete_T (Some p) e1 = Ret tt e2 ->
  exists u w1 w2,
    UniquePtr.make_unique delete_T new_T args w = Ret u w1 /\
    UniquePtr.get u = Some p /\
    UniquePtr.to_bool u = true /\
    env w1 = e1 /\
    UniquePtr.destroy u w1 = Ret tt w2 /\
    env w2 = e2 /\
    counters w2 = counters w /\
    holders_kept w w2 /\ no_holder_left w w2.
Proof.
  intros Hn Hd.
  assert (E0 : in_env (Args:=ptr) (Rt:=unit) (new_T args) w = Ret p (set_env e1 w)).
  { unfold in_env. by rewrite Hn. }
  set (w0 := set_env e1 w) in E0.
  destruct (UniquePtr_construct_scoped_exact (Some p) delete_T w0)
    as (l1 & l2 & Hl1 & Hl2 & Hne & E1).
  set (u := UniquePtr.mk _ _) in E1. set (w1 := set_holders _ w0) in E1.
  assert (H2 : holders w1 !! l2 = Some (live (holds_Function (holds_callable delete_T)))).
  { subst w1. wsimpl. rewrite lookup_insert_ne by done. apply lookup_insert_eq. }
  pose proof (UniquePtr_destroy_spec u l2 _ delete_T e2 w1 eq_refl H2 eq_refl Hd) as E2.
  exists u, w1. eexists. split_and!; [|done| |done|exact E2|done|done| |].
  - unfold UniquePtr.make_unique, UniquePtr.with_default_deleter.
    rewrite (bind_ret _ _ _ _ _ E0). exact E1.
  - by apply bool_decide_eq_true.
  - intros l0 b Hb. subst w1 w0. wsimpl. rewrite !lookup_insert.
    repeat case_decide; congruence.
  - intros l0 h0. subst w1 w0. wsimpl. rewrite !lookup_insert.
    repeat case_decide; congruence.
Qed.

Lemma make_unique_then_destroy_witness :
  Demo.new_int 7 (env Demo.start) =
    Ret 2%positive
        (Demo.mkEnv {[ 1%positive := live 5; 2%positive := live 7 ]} []) /\
  Demo.delete_int (Some 2%positive)
      (Demo.mkEnv {[ 1%positive := live 5; 2%positive := live 7 ]} []) =
    Ret tt (Demo.mkEnv {[ 1%positive := live 5; 2%positive := freed ]} []) /\
  exists u w1 w2,
    UniquePtr.make_unique Demo.delete_int Demo.new_int 7 Demo.start = Ret u w1 /\
    UniquePtr.destroy u w1 = Ret tt w2 /\
    env w2 = Demo.mkEnv {[ 1%positive := live 5; 2%positive := freed ]} [].
Proof.
  assert (Hn : Demo.new_int 7 (env Demo.start) =
               Ret 2%positive
                 (Demo.mkEnv {[ 1%positive := live 5; 2%positive := live 7 ]} []))
    by (by vm_compute).
  assert (Hd : Demo.delete_int (Some 2%positive)
                 (Demo.mkEnv {[ 1%positive := live 5; 2%positive := live 7 ]} []) =
               Ret tt (Demo.mkEnv {[ 1%positive := live 5; 2%positive := freed ]} []))
    by (by vm_compute).
  split_and!; [exact Hn|exact Hd|].
  destruct (make_unique_then_destroy Demo.delete_int Demo.new_int 7 Demo.start
              _ _ _ Hn Hd) as (u & w1 & w2 & E1 & _ & _ & _ & E2 & He & _).
  by exists u, w1, w2.
Defined.

Lemma Demo_empty_unique_reached :
  Demo.UniquePtr_with nullptr Demo.logging Demo.nothing = Ret Demo.e Demo.empty_unique.
Proof. by vm_compute. Qed.

(** X15.  [UniquePtr] calls its destroyer without looking at the
    pointer.  The destructor of an empty [UniquePtr], and [reset] on one,
    call the destroyer with [nullptr]: a destroyer that returns has run once
    on [nullptr] before the holder is deleted; a destroyer that throws on
    [nullptr] ends the program when the object is destroyed and makes
    [reset] throw with the object unchanged; a destroyer that is undefined
    on [nullptr] makes both undefined. *)
Theorem UniquePtr_calls_destroyer_on_nullptr {Env : Type}
    (u : UniquePtr.t) (d : Callable ptr unit Env) (w : World ptr unit Env) :
  UniquePtr.ptr_ u = nullptr ->
  Function.wraps w (UniquePtr.deleter_ u) d ->
  UniquePtr.to_bool u = false /\
  (forall e', d nullptr (env w) = Ret tt e' ->
     exists l,
       UniquePtr.deleter_ u = Function.mk (Function.pointer (Some l)) /\
       UniquePtr.destroy u w =
         Ret tt (mkWorld e' (<[l := freed]> (holders w)) (counters w))) /\
  (forall x e', d nullptr (env w) = Throw x e' ->
     UniquePtr.destroy u w = Terminate (set_env e' w) /\
     forall p f, UniquePtr.reset u p f w = Throw x (set_env e' w)) /\
  (forall ub, d nullptr (env w) = Undef ub ->
     UniquePtr.destroy u w = Undef ub /\
     forall p f, UniquePtr.reset u p f w = Undef ub).
Proof.
  intros Hp W. split_and!.
  - unfold UniquePtr.to_bool. rewrite Hp.
    apply bool_decide_eq_false. intros Hn. by apply Hn.
  - intros e' He. destruct W as (l & h & Hu & Hl & Hh). exists l. split; [done|].
    apply (UniquePtr_destroy_spec u l h d); try done. by rewrite Hp.
  - intros x e' He.
    assert (Ec : Function.call (UniquePtr.deleter_ u) (UniquePtr.ptr_ u) w
                 = Throw x (set_env e' w)).
    { apply (Function_call_wraps_throw _ d); [done|]. by rewrite Hp. }
    split.
    + unfold UniquePtr.destroy. apply noexcept_throw with (x := x). by apply bind_throw.
    + intros p f. unfold UniquePtr.reset. by apply bind_throw.
  - intros ub He.
    assert (Ec : Function.call (UniquePtr.deleter_ u) (UniquePtr.ptr_ u) w = Undef ub).
    { apply (Function_call_wraps_undef _ d); [done|]. by rewrite Hp. }
    split.
    + unfold UniquePtr.destroy. apply noexcept_undef. by apply bind_undef.
    + intros p f. unfold UniquePtr.reset. by apply bind_undef.
Qed.

Lemma UniquePtr_calls_destroyer_on_nullptr_witness :
  UniquePtr.ptr_ Demo.e = nullptr /\
  Function.wraps Demo.empty_unique (UniquePtr.deleter_ Demo.e) Demo.logging /\
  exists w',
    UniquePtr.destroy Demo.e Demo.empty_unique = Ret tt w' /\
    Demo.log (env w') = [nullptr].
Proof.
  assert (W : Function.wraps Demo.empty_unique (UniquePtr.deleter_ Demo.e) Demo.logging).
  { exists 2%positive, (holds_Function (holds_callable Demo.logging)). by split_and!. }
  split_and!; [done|exact W|].
  destruct (UniquePtr_calls_destroyer_on_nullptr Demo.e Demo.logging Demo.empty_unique
              eq_refl W) as (_ & Hr & _).
  destruct (Hr (Demo.mkEnv ∅ [nullptr]) eq_refl) as (l & _ & E).
  eexists. split; [exact E|done].
Defined.

(** X16.  [UniquePtr::reset(p, f)] runs the destroyer the object had
    on the pointer it had, then stores [p] and a clone of [f]; from then on
    the object is destroyed with the callable of [f].  [set_deleter(f)]
    swaps the destroyer alone: the pointer the object holds will be
    destroyed with the callable of [f], and the former destroyer never sees
    it.  Neither deletes the holder of the former destroyer, which is still
    allocated after the object is gone, and [f] itself stays usable. *)
Theorem UniquePtr_reset_replaces_the_destroyer {Env : Type}
    (u : UniquePtr.t) (p : ptr) (f : Function.t) (d d' : Callable ptr unit Env)
    (w : World ptr unit Env) :
  Function.wraps w (UniquePtr.deleter_ u) d ->
  Function.wraps w f d' ->
  (forall e1, d (UniquePtr.ptr_ u) (env w) = Ret tt e1 ->
     exists u' w1,
       UniquePtr.reset u p f w = Ret u' w1 /\
       UniquePtr.get u' = p /\ env w1 = e1 /\ counters w1 = counters w /\
       Function.wraps w1 (UniquePtr.deleter_ u') d' /\
       UniquePtr.deleter_ u' <> UniquePtr.deleter_ u /\
       forall e2, d' p e1 = Ret tt e2 ->
         exists w2,
           UniquePtr.destroy u' w1 = Ret tt w2 /\ env w2 = e2 /\
           Function.wraps w2 (UniquePtr.deleter_ u) d /\ Function.wraps w2 f d') /\
  (exists u' w1,
     UniquePtr.set_deleter u f w = Ret u' w1 /\
     UniquePtr.get u' = UniquePtr.get u /\ env w1 = env w /\ counters w1 = counters w /\
     Function.wraps w1 (UniquePtr.deleter_ u') d' /\
     UniquePtr.deleter_ u' <> UniquePtr.deleter_ u /\
     forall e2, d' (UniquePtr.ptr_ u) (env w) = Ret tt e2 ->
       exists w2,
         UniquePtr.destroy u' w1 = Ret tt w2 /\ env w2 = e2 /\
         Function.wraps w2 (UniquePtr.deleter_ u) d /\ Function.wraps w2 f d').
Proof.
  intros W (lf & hf & -> & Hlf & Hhf).
  assert (Tail : forall (w0 : World ptr unit Env) q,
            holders w0 = holders w ->
            exists l',
              holders w !! l' = None /\
              Function.copy_assign (UniquePtr.deleter_ u)
                (another (Function.mk (Function.pointer (Some lf)))) w0
                = Ret (Function.mk (Function.pointer (Some l')))
                      (set_holders (<[l' := live hf]> (holders w)) w0) /\
              Function.mk (Function.pointer (Some l')) <> UniquePtr.deleter_ u /\
              forall e1 e2, d' q e1 = Ret tt e2 ->
                UniquePtr.destroy
                  (UniquePtr.mk q (Function.mk (Function.pointer (Some l'))))
                  (mkWorld e1 (<[l' := live hf]> (holders w)) (counters w0))
                = Ret tt (mkWorld e2 (<[l' := freed]> (<[l' := live hf]> (holders w)))
                            (counters w0)) /\
                Function.wraps
                  (mkWorld e2 (<[l' := freed]> (<[l' := live hf]> (holders w)))
                     (counters w0)) (UniquePtr.deleter_ u) d /\
                Function.wraps
                  (mkWorld e2 (<[l' := freed]> (<[l' := live hf]> (holders w)))
                     (counters w0)) (Function.mk (Function.pointer (Some lf))) d').
  { intros w0 q Hw0.
    assert (Hlf0 : holders w0 !! lf = Some (live hf)) by (by rewrite Hw0).
    destruct (Function_copy_assign_spec (UniquePtr.deleter_ u) _ _ d' w0 Hlf0 Hhf)
      as (l' & Hl' & E).
    rewrite Hw0 in Hl', E.
    destruct W as (lu & hu & Hu & Hlu & Hhu).
    assert (lu <> l'). { intros ->. rewrite Hl' in Hlu. discriminate. }
    assert (lf <> l'). { intros ->. rewrite Hl' in Hlf. discriminate. }
    exists l'. split_and!; [done|done|by rewrite Hu; intros [= ->]|].
    intros e1 e2 He2. split_and!.
    - pose proof (UniquePtr_destroy_spec
                    (UniquePtr.mk q (Function.mk (Function.pointer (Some l')))) l' hf d' e2
                    (mkWorld e1 (<[l' := live hf]> (holders w)) (counters w0))
                    eq_refl (lookup_insert_eq _ _ _) Hhf He2) as X.
      exact X.
    - exists lu, hu. split_and!; [done| |done]. wsimpl.
      by rewrite !lookup_insert_ne.
    - exists lf, hf. split_and!; [done| |done]. wsimpl.
      by rewrite !lookup_insert_ne. }
  split.
  - intros e1 He1.
    pose proof (Function_call_wraps _ _ _ _ _ _ W He1) as Ec.
    destruct (Tail (set_env e1 w) p eq_refl) as (l' & Hl' & E & Hne & Hd).
    eexists _, _. split_and!.
    + unfold UniquePtr.reset. rewrite (bind_ret _ _ _ _ _ Ec).
      rewrite (bind_ret _ _ _ _ _ E). reflexivity.
    + done.
    + done.
    + done.
    + exists l', hf. split_and!; [done| |done]. apply lookup_insert_eq.
    + done.
    + intros e2 He2. destruct (Hd e1 e2 He2) as (Ed & W1 & W2).
      eexists. split_and!; [exact Ed|done|exact W1|exact W2].
  - destruct (Tail w (UniquePtr.ptr_ u) eq_refl) as (l' & Hl' & E & Hne & Hd).
    eexists _, _. split_and!.
    + unfold UniquePtr.set_deleter. rewrite (bind_ret _ _ _ _ _ E). reflexivity.
    + done.
    + done.
    + done.
    + exists l', hf. split_and!; [done| |done]. apply lookup_insert_eq.
    + done.
    + intros e2 He2. destruct (Hd (env w) e2 He2) as (Ed & W1 & W2).
      eexists. split_and!; [exact Ed|done|exact W1|exact W2].
Qed.

Lemma UniquePtr_reset_replaces_the_destroyer_witness :
  Function.wraps Demo.shared_by_two_with_del2
    (UniquePtr.deleter_ (UniquePtr.mk nullptr (SharedPtr.deleter_ Demo.a))) Demo.logging /\
  Function.wraps Demo.shared_by_two_with_del2 Demo.del2 Demo.delete_int /\
  exists u' w1 w2,
    UniquePtr.reset (UniquePtr.mk nullptr (SharedPtr.deleter_ Demo.a))
      (Some 1%positive) Demo.del2 Demo.shared_by_two_with_del2 = Ret u' w1 /\
    Demo.log (env w1) = [nullptr] /\
    UniquePtr.destroy u' w1 = Ret tt w2 /\
    env w2 = Demo.mkEnv {[ 1%positive := freed ]} [nullptr].
Proof.
  assert (Wu : Function.wraps Demo.shared_by_two_with_del2
                 (UniquePtr.deleter_ (UniquePtr.mk nullptr (SharedPtr.deleter_ Demo.a)))
                 Demo.logging).
  { exists 2%positive, (holds_Function (holds_callable Demo.logging)). by split_and!. }
  assert (Wf : Function.wraps Demo.shared_by_two_with_del2 Demo.del2 Demo.delete_int).
  { exists 4%positive, (holds_callable Demo.delete_int). by split_and!. }
  split_and!; [exact Wu|exact Wf|].
  destruct (UniquePtr_reset_replaces_the_destroyer
              (UniquePtr.mk nullptr (SharedPtr.deleter_ Demo.a)) (Some 1%positive)
              Demo.del2 Demo.logging Demo.delete_int Demo.shared_by_two_with_del2 Wu Wf)
    as [Hr _].
  destruct (Hr (Demo.mkEnv {[ 1%positive := live 5 ]} [nullptr]) eq_refl)
    as (u' & w1 & E & _ & He & _ & _ & _ & Hd).
  destruct (Hd (Demo.mkEnv {[ 1%positive := freed ]} [nullptr])) as (w2 & Ed & He2 & _).
  { by vm_compute. }
  exists u', w1, w2. split_and!; [exact E|by rewrite He|exact Ed|exact He2].
Defined.

(** ** Any: moves *)

(** X17.  [Any b(std::move(a))] hands the value over: [b.cast<T>()]
    returns the value [a] was constructed from and [a] is left empty.  But
    the two objects then share one destroyer holder (the move of
    [content_] copies the pointer to it), so whichever order the two are
    destroyed in, the second destructor calls the destroyer through a
    deleted holder. *)
Theorem Any_move_transfers_but_shares_the_destroyer {type : Type} `{EqDecision type}
    (value : type -> Type) (T : type) (v : value T)
    (w : World ptr unit (heap (Any.Placeholder value))) :
  exists a w1,
    Any.construct value T v w = Ret a w1 /\
    Any.cast value T (Any.move a).1 w1 = Ret v w1 /\
    Any.has_value (Any.move a).1 = true /\
    Any.has_value (Any.move a).2 = false /\
    UniquePtr.deleter_ (Any.content_ (Any.move a).1)
      = UniquePtr.deleter_ (Any.content_ (Any.move a).2) /\
    (Any.destroy value (Any.move a).2 >> Any.destroy value (Any.move a).1) w1
      = Undef use_after_free /\
    (Any.destroy value (Any.move a).1 >> Any.destroy value (Any.move a).2) w1
      = Undef use_after_free.
Proof.
  destruct (Any_construct_exact value T v w)
    as (h & l1 & l2 & l3 & l4 & Hh & Hl1 & Hl2 & Hl3 & Hl4 & N24 & N23 & N21 & N34 & E).
  set (a := Any.mk _) in E. set (w1 := mkWorld _ _ _) in E.
  assert (Hv : env w1 !! h = Some (live (Any.Holder value T v))) by apply lookup_insert_eq.
  assert (H4 : holders w1 !! l4 =
               Some (live (holds_callable (Any.delete_Placeholder value)))).
  { subst w1. wsimpl. rewrite lookup_insert_ne by done. apply lookup_insert_eq. }
  exists a, w1. split_and!; [exact E| | |done|done| |].
  - by apply (Any_cast_held value _ h).
  - by apply bool_decide_eq_true.
  - assert (Ed : Any.destroy value (Any.move a).2 w1 =
                 Ret tt (mkWorld (env w1) (<[l4 := freed]> (holders w1)) (counters w1))).
    { unfold Any.destroy.
      exact (UniquePtr_destroy_spec (Any.content_ (Any.move a).2) l4
               (holds_callable (Any.delete_Placeholder value))
               (Any.delete_Placeholder value) (env w1) w1 eq_refl H4 eq_refl eq_refl). }
    rewrite (bind_ret _ _ _ _ _ Ed).
    unfold Any.destroy, UniquePtr.destroy. apply noexcept_undef, bind_undef.
    apply Function_call_freed. apply lookup_insert_eq.
  - assert (Ed : Any.destroy value (Any.move a).1 w1 =
                 Ret tt (mkWorld (<[h := freed]> (env w1)) (<[l4 := freed]> (holders w1))
                           (counters w1))).
    { unfold Any.destroy.
      exact (UniquePtr_destroy_spec (Any.content_ (Any.move a).1) l4
               (holds_callable (Any.delete_Placeholder value))
               (Any.delete_Placeholder value) _ w1 eq_refl H4 eq_refl
               (delete_Placeholder_live value h _ _ Hv)). }
    rewrite (bind_ret _ _ _ _ _ Ed).
    unfold Any.destroy, UniquePtr.destroy. apply noexcept_undef, bind_undef.
    apply Function_call_freed. apply lookup_insert_eq.
Qed.

(** X18.  [a = std::move(b)] on two [Any] objects constructed from
    values: the value [a] held is deleted, [a] takes over the value of [b]
    ([a.cast<T2>()] returns it), [b] is left empty, and no counter is
    touched.  The holder of the destroyer [a] had is not deleted and is no
    longer referred to by [a]; [a] and [b] now share the destroyer holder of
    [b], so destroying both is a use after free.  Self-assignment changes
    nothing. *)
Theorem Any_move_assign_transfers {type : Type} `{EqDecision type}
    (value : type -> Type) (T1 : type) (v1 : value T1) (T2 : type) (v2 : value T2)
    (w : World ptr unit (heap (Any.Placeholder value))) :
  exists a w1 b w2 a' b' w3 h1,
    Any.construct value T1 v1 w = Ret a w1 /\
    Any.construct value T2 v2 w1 = Ret b w2 /\
    Any.move_assign value a (another b) w2 = Ret (a', another b') w3 /\
    Any.cast value T2 a' w3 = Ret v2 w3 /\
    Any.has_value a' = true /\
    Any.has_value b' = false /\
    UniquePtr.ptr_ (Any.content_ a) = Some h1 /\
    env w3 !! h1 = Some freed /\
    counters w3 = counters w /\
    Function.wraps w3 (UniquePtr.deleter_ (Any.content_ a))
      (Any.delete_Placeholder value) /\
    UniquePtr.deleter_ (Any.content_ a') <> UniquePtr.deleter_ (Any.content_ a) /\
    UniquePtr.deleter_ (Any.content_ a') = UniquePtr.deleter_ (Any.content_ b') /\
    (Any.destroy value a' >> Any.destroy value b') w3 = Undef use_after_free /\
    Any.move_assign value a itself w2 = Ret (a, itself) w2.
Proof.
  destruct (Any_construct_exact value T1 v1 w)
    as (h1 & la1 & la2 & la3 & la4 & Hh1 & _ & _ & _ & _ & _ & _ & _ & Na34 & E1).
  set (a := Any.mk _) in E1. set (w1 := mkWorld _ _ _) in E1.
  assert (Hv1 : env w1 !! h1 = Some (live (Any.Holder value T1 v1)))
    by apply lookup_insert_eq.
  assert (Ha4 : holders w1 !! la4 =
                Some (live (holds_callable (Any.delete_Placeholder value)))).
  { subst w1. wsimpl. rewrite lookup_insert_ne by done. apply lookup_insert_eq. }
  destruct (Any_construct_exact value T2 v2 w1)
    as (h2 & lb1 & lb2 & lb3 & lb4 & Hh2 & Hb1 & Hb2 & Hb3 & Hb4 & _ & _ & _ & Nb34 & E2).
  set (b := Any.mk _) in E2. set (w2 := mkWorld _ _ _) in E2.
  assert (Nh : h1 <> h2). { intros ->. rewrite Hh2 in Hv1. discriminate. }
  assert (Hv1' : env w2 !! h1 = Some (live (Any.Holder value T1 v1))).
  { subst w2. wsimpl. by rewrite lookup_insert_ne. }
  assert (Hv2 : env w2 !! h2 = Some (live (Any.Holder value T2 v2)))
    by apply lookup_insert_eq.
  assert (Ha4' : holders w2 !! la4 =
                 Some (live (holds_callable (Any.delete_Placeholder value)))).
  { subst w2. wsimpl. rewrite !lookup_insert.
    repeat case_decide; try done; subst; rewrite Ha4 in *; discriminate. }
  assert (Hb4' : holders w2 !! lb4 =
                 Some (live (holds_callable (Any.delete_Placeholder value)))).
  { subst w2. wsimpl. rewrite lookup_insert_ne by done. apply lookup_insert_eq. }
  assert (Nab : la4 <> lb4). { intros ->. rewrite Hb4 in Ha4. discriminate. }
  destruct (UniquePtr_reset_default_exact (Any.delete_Placeholder value)
              (Any.content_ a) nullptr (Any.delete_Placeholder value)
              (<[h1 := freed]> (env w2)) w2)
    as (l3 & l4 & Hl3 & Hl4 & N34 & Er).
  { by exists la4, (holds_callable (Any.delete_Placeholder value)). }
  { by apply (delete_Placeholder_live value h1 (Any.Holder value T1 v1)). }
  set (w3 := mkWorld _ _ _) in Er.
  assert (Nb3 : lb4 <> l3). { intros ->. rewrite Hl3 in Hb4'. discriminate. }
  assert (Nb4 : lb4 <> l4). { intros ->. rewrite Hl4 in Hb4'. discriminate. }
  assert (Na3 : la4 <> l3). { intros ->. rewrite Hl3 in Ha4'. discriminate. }
  assert (Na4 : la4 <> l4). { intros ->. rewrite Hl4 in Ha4'. discriminate. }
  assert (Hb4'' : holders w3 !! lb4 =
                  Some (live (holds_callable (Any.delete_Placeholder value)))).
  { subst w3. wsimpl. by rewrite !lookup_insert_ne. }
  assert (Hv2' : env w3 !! h2 = Some (live (Any.Holder value T2 v2))).
  { subst w3. wsimpl. by rewrite lookup_insert_ne. }
  set (a' := Any.mk (UniquePtr.mk (Some h2) (Function.mk (Function.pointer (Some lb4))))).
  set (b' := Any.mk (UniquePtr.mk nullptr (Function.mk (Function.pointer (Some lb4))))).
  exists a, w1, b, w2, a', b', w3, h1.
  split_and!; [exact E1|exact E2| | | | |done| | | | |done| |done].
  - unfold Any.move_assign. apply noexcept_ret.
    assert (Em : UniquePtr.move_assign_from (Any.delete_Placeholder value)
                   (Any.content_ a) (Any.content_ b) w2
                 = Ret (Any.content_ a', Any.content_ b') w3).
    { unfold UniquePtr.move_assign_from. by rewrite (bind_ret _ _ _ _ _ Er). }
    by rewrite (bind_ret _ _ _ _ _ Em).
  - by apply (Any_cast_held value a' h2).
  - by apply bool_decide_eq_true.
  - apply bool_decide_eq_false. intros Hn. by apply Hn.
  - subst w3. wsimpl. apply lookup_insert_eq.
  - subst w3 w2 w1. by wsimpl.
  - exists la4, (holds_callable (Any.delete_Placeholder value)).
    split_and!; [done| |done]. subst w3. wsimpl. by rewrite !lookup_insert_ne.
  - subst a' a. cbn. congruence.
  - assert (Ed : Any.destroy value a' w3 =
                 Ret tt (mkWorld (<[h2 := freed]> (env w3)) (<[lb4 := freed]> (holders w3))
                           (counters w3))).
    { unfold Any.destroy.
      exact (UniquePtr_destroy_spec (Any.content_ a') lb4
               (holds_callable (Any.delete_Placeholder value))
               (Any.delete_Placeholder value) _ w3 eq_refl Hb4'' eq_refl
               (delete_Placeholder_live value h2 _ _ Hv2')). }
    rewrite (bind_ret _ _ _ _ _ Ed).
    unfold Any.destroy, UniquePtr.destroy. apply noexcept_undef, bind_undef.
    apply Function_call_freed. apply lookup_insert_eq.
Qed.

(** ** WeakPtr: the objects a program can hold *)

(** X19.  A program can obtain a [WeakPtr] by default construction and
    by copying, moving, assigning and swapping the [WeakPtr]s it has; the
    constructor from a [SharedPtr] and [make_weak] are ill-formed when
    instantiated.  Every object obtained in those ways has a null pointer
    and a null counter.  So on every [WeakPtr] a program can hold,
    [expired] returns true and the conversion to [bool] returns false, in
    every memory and without reading any counter, whatever the
    [SharedPtr]s of the program do; any two of them compare equal, and each
    compares equal to the null pointer. *)
Theorem WeakPtr_every_buildable_is_expired {Env : Type} (this : WeakPtr.t) :
  WeakPtr.buildable this ->
  WeakPtr.ptr_ this = nullptr /\
  WeakPtr.ref_count_ this = nullptr /\
  (forall w : World ptr unit Env,
     WeakPtr.expired this w = Ret true w /\
     WeakPtr.to_bool this w = Ret false w) /\
  (forall other, WeakPtr.buildable other ->
     WeakPtr.eq this other = true /\ WeakPtr.ne this other = false) /\
  WeakPtr.eq_ptr this nullptr = true /\
  WeakPtr.ne_ptr this nullptr = false.
Proof.
  assert (Hdef : forall o, WeakPtr.buildable o -> o = WeakPtr.default).
  { induction 1 as [ |o _ ->|o _ ->|o _ ->|t0 o _ -> _ ->|t0 _ ->|t0 o _ -> _ ->
                     |t0 o o' _ -> _ -> Ho|t0 _ ->|t0 o _ -> _ ->
                     |t0 o o' _ -> _ -> Ho|t0 _ ->]; try reflexivity.
    - by injection Ho as <-.
    - by injection Ho as <-. }
  intros Hb. rewrite (Hdef _ Hb). split_and!; try done.
  intros other Ho. by rewrite (Hdef _ Ho).
Qed.

Lemma WeakPtr_every_buildable_is_expired_witness :
  WeakPtr.buildable
    (fst (WeakPtr.swap (WeakPtr.copy WeakPtr.default)
            (another (snd (WeakPtr.move WeakPtr.default))))) /\
  WeakPtr.expired
    (fst (WeakPtr.swap (WeakPtr.copy WeakPtr.default)
            (another (snd (WeakPtr.move WeakPtr.default))))) Demo.shared_by_two
  = Ret true Demo.shared_by_two.
Proof.
  assert (Hb : WeakPtr.buildable
                 (fst (WeakPtr.swap (WeakPtr.copy WeakPtr.default)
                         (another (snd (WeakPtr.move WeakPtr.default)))))).
  { apply WeakPtr.buildable_swap.
    - apply WeakPtr.buildable_copy, WeakPtr.buildable_default.
    - apply WeakPtr.buildable_moved_from, WeakPtr.buildable_default. }
  split; [exact Hb|].
  apply (WeakPtr_every_buildable_is_expired _ Hb).
Defined.

(** ** SharedPtr: move assignment *)

Lemma SharedPtr_release_other_counters {Env : Type} (this : SharedPtr.t)
    (w w1 : World ptr unit Env) (c : loc) :
  SharedPtr.release this w = Ret tt w1 ->
  SharedPtr.ref_count_ this <> Some c ->
  counters w1 !! c = counters w !! c.
Proof.
  unfold SharedPtr.release.
  destruct (SharedPtr.ref_count_ this) as [c0|]; [|by intros [= <-]].
  intros H Hne. assert (c0 <> c) by congruence.
  apply bind_ret_inv in H as (n & w2 & H1 & H2).
  assert (Hw2 : counters w2 !! c = counters w !! c).
  { revert H1. unfold fetch_sub, load, store.
    destruct (counters w !! c0) as [[n0|]|]; try discriminate.
    intros [= _ <-]. wsimpl. by rewrite lookup_insert_ne. }
  destruct (n =? 1); [|by injection H2 as <-].
  apply bind_ret_inv in H2 as ([] & w3 & H2 & H3).
  apply Function_call_inv in H2 as [_ Hc3].
  revert H3. unfold delete_counter, dealloc.
  destruct (counters w3 !! c0) as [[n0|]|]; try discriminate.
  intros [= <-]. wsimpl. rewrite lookup_insert_ne by done. congruence.
Qed.

(** X20.  [operator=(SharedPtr &&)] is a release followed by a
    hand-over.  The target first releases what it owned, exactly as
    [release] does; it then takes the pointer, the counter and the destroyer
    pointer of the source without touching the counter, and the source is
    left with null pointer and null counter.  So a referent the target did
    not own before keeps its count, and when target and source were two
    owners of the same referent the count drops by one, to the number of
    owners that remain.  No holder is deleted: the one the destroyer of the
    target lived in stays allocated.  Self-assignment changes nothing. *)
Theorem SharedPtr_move_assign_hands_over {Env : Type}
    (this o : SharedPtr.t) (w w1 : World ptr unit Env) :
  SharedPtr.release this w = Ret tt w1 ->
  SharedPtr.move_assign this (another o) w =
    Ret (SharedPtr.mk (SharedPtr.ptr_ o) (SharedPtr.ref_count_ o) (SharedPtr.deleter_ o),
         another (SharedPtr.mk nullptr nullptr (SharedPtr.deleter_ o))) w1 /\
  holders w1 = holders w /\
  (forall c, SharedPtr.ref_count_ o = Some c -> SharedPtr.ref_count_ this <> Some c ->
     counters w1 !! c = counters w !! c) /\
  (forall c n, SharedPtr.ref_count_ o = Some c -> SharedPtr.ref_count_ this = Some c ->
     counters w !! c = Some (live n) -> 1 < n <= INT_MAX ->
     counters w1 !! c = Some (live (n - 1))) /\
  SharedPtr.move_assign this itself w = Ret (this, itself) w.
Proof.
  intros Hr. split_and!.
  - unfold SharedPtr.move_assign. apply noexcept_ret.
    assert (Em : SharedPtr.move_assign_from this o w =
                 Ret (SharedPtr.mk (SharedPtr.ptr_ o) (SharedPtr.ref_count_ o)
                        (SharedPtr.deleter_ o),
                      SharedPtr.mk nullptr nullptr (SharedPtr.deleter_ o)) w1).
    { unfold SharedPtr.move_assign_from. rewrite (bind_ret _ _ _ _ _ Hr).
      by destruct (SharedPtr.deleter_ o). }
    by rewrite (bind_ret _ _ _ _ _ Em).
  - by apply SharedPtr_release_holders in Hr.
  - intros c _ Hne. by apply (SharedPtr_release_other_counters this).
  - intros c n _ Hc Hn Hrange.
    rewrite (SharedPtr_release_shared this c n w Hc Hn) in Hr by lia.
    injection Hr as <-. wsimpl. rewrite lookup_insert_eq.
    rewrite wrap_int_id; [done|]. unfold INT_MAX in *. lia.
  - done.
Qed.

Lemma SharedPtr_move_assign_hands_over_witness :
  SharedPtr.release Demo.a Demo.shared_by_two
    = Ret tt (set_counters {[ 1%positive := live 1 ]} Demo.shared_by_two) /\
  SharedPtr.move_assign Demo.a (another Demo.b) Demo.shared_by_two =
    Ret (Demo.b, another (SharedPtr.mk nullptr nullptr (SharedPtr.deleter_ Demo.b)))
        (set_counters {[ 1%positive := live 1 ]} Demo.shared_by_two).
Proof.
  assert (Hr : SharedPtr.release Demo.a Demo.shared_by_two
               = Ret tt (set_counters {[ 1%positive := live 1 ]} Demo.shared_by_two))
    by (by vm_compute).
  split; [exact Hr|].
  exact (proj1 (SharedPtr_move_assign_hands_over Demo.a Demo.b _ _ Hr)).
Defined.

(** ** Any: what a copy keeps *)

(** X21.  [Any(const Any &)] keeps emptiness and the dynamic type.  The
    copy of an empty [Any] is empty; the copy of an [Any] that holds a [T]
    holds a [T] as well: for every type [U], [cast<U>()] on the copy throws
    exactly when it throws on the original, and with the same literal.  The
    original is not affected, the copy lives in a block of its own, no
    counter is touched and no holder that existed is deleted. *)
Theorem Any_copy_keeps_type_and_emptiness {type : Type} `{EqDecision type}
    (value : type -> Type) (value_initialized : forall T : type, value T)
    (a : Any.t) (w : World ptr unit (heap (Any.Placeholder value))) :
  (UniquePtr.ptr_ (Any.content_ a) = nullptr \/
   exists h p, UniquePtr.ptr_ (Any.content_ a) = Some h /\ env w !! h = Some (live p)) ->
  exists b w',
    Any.copy value value_initialized a w = Ret b w' /\
    Any.has_value b = Any.has_value a /\
    (forall U, thrown (Any.cast value U b w') = thrown (Any.cast value U a w)) /\
    (forall U, returned (Any.cast value U a w') = returned (Any.cast value U a w)) /\
    (Any.has_value a = true ->
       UniquePtr.ptr_ (Any.content_ b) <> UniquePtr.ptr_ (Any.content_ a)) /\
    counters w' = counters w /\ holders_kept w w'.
Proof.
  intros [Hn|(h & p & Hp & Hh)].
  - destruct (UniquePtr_default_spec (Any.delete_Placeholder value) w)
      as (u & w1 & E1 & Hp1 & _ & He1 & Hc1).
    assert (E : Any.copy value value_initialized a w = Ret (Any.mk u) w1).
    { unfold Any.copy. rewrite (bind_ret _ _ _ _ _ E1).
      unfold UniquePtr.get. by rewrite Hn. }
    exists (Any.mk u), w1. split_and!; try done.
    + by rewrite !Any_has_value_null.
    + intros U. by rewrite !(Any_cast_empty value).
    + intros U. by rewrite !(Any_cast_empty value).
    + rewrite (Any_has_value_null a Hn). discriminate.
    + by apply Any_copy_inv in E as [K _].
  - destruct (Any_copy_spec value value_initialized a h p w Hp Hh)
      as (b & h' & w' & E & Hb & Hf & He & Hc).
    assert (Hne : h <> h'). { intros ->. rewrite Hf in Hh. discriminate. }
    assert (Hh' : env w' !! h = Some (live p)).
    { rewrite He. by rewrite lookup_insert_ne. }
    assert (Hb' : env w' !! h' =
                  Some (live (Any.Holder value (Any.T_ value p)
                                (value_initialized (Any.T_ value p))))).
    { rewrite He. apply lookup_insert_eq. }
    exists b, w'. split_and!; try done.
    + by rewrite (Any_has_value_held a h), (Any_has_value_held b h').
    + intros U. destruct p as [T v]. cbn [Any.T_] in *.
      destruct (decide (U = T)) as [->|HU].
      * by rewrite (Any_cast_held value b h' T _ w' Hb Hb'),
                   (Any_cast_held value a h T v w Hp Hh).
      * by rewrite (Any_cast_mismatch value b h' T U _ w' HU Hb Hb'),
                   (Any_cast_mismatch value a h T U v w HU Hp Hh).
    + intros U. destruct p as [T v]. cbn [Any.T_] in *.
      destruct (decide (U = T)) as [->|HU].
      * by rewrite (Any_cast_held value a h T v w' Hp Hh'),
                   (Any_cast_held value a h T v w Hp Hh).
      * by rewrite (Any_cast_mismatch value a h T U v w' HU Hp Hh'),
                   (Any_cast_mismatch value a h T U v w HU Hp Hh).
    + intros _. rewrite Hb, Hp. congruence.
    + by apply Any_copy_inv in E as [K _].
Qed.

Lemma Any_copy_keeps_type_and_emptiness_witness :
  (UniquePtr.ptr_ (Any.content_ Demo.x) = nullptr \/
   exists h p, UniquePtr.ptr_ (Any.content_ Demo.x) = Some h /\
     env Demo.two_values !! h = Some (live p)) /\
  exists b w',
    Any.copy Demo.cpp_value Demo.value_initialized Demo.x Demo.two_values = Ret b w' /\
    Any.has_value b = true /\
    thrown (Any.cast Demo.cpp_value Demo.t_bool b w') = Some (cstring "wtfff") /\
    thrown (Any.cast Demo.cpp_value Demo.t_int b w') = None.
Proof.
  assert (H : UniquePtr.ptr_ (Any.content_ Demo.x) = nullptr \/
              exists h p, UniquePtr.ptr_ (Any.content_ Demo.x) = Some h /\
                env Demo.two_values !! h = Some (live p)).
  { right. by exists 1%positive, (Any.Holder Demo.cpp_value Demo.t_int 1). }
  split; [exact H|].
  destruct (Any_copy_keeps_type_and_emptiness Demo.cpp_value Demo.value_initialized
              Demo.x Demo.two_values H) as (b & w' & E & Hv & Ht & _).
  exists b, w'. split_and!; [exact E|by rewrite Hv|by rewrite Ht|by rewrite Ht].
Defined.
